(** * Webhook receiver service: admission pipeline

    A shallow embedding of the request admission pipeline of the webhook
    receiver service (NestJS / TypeORM), and the properties of its
    specification that were checked against it:

    - [SignatureService]      src/auth/services/signature.service.ts
    - [SignatureGuard]        src/auth/guards/signature.guard.ts
    - [IdempotencyInterceptor] src/common/interceptors/idempotency.interceptor.ts
    - [WebhooksService]       src/webhooks/webhooks.service.ts
    - [WebhooksController], [HttpExceptionFilter], [RequestIdMiddleware]
      and [LoggingInterceptor], which stand around them

    Platform functions the code calls (Node's [crypto] and [Buffer], the
    TypeORM repository) are modelled next to the code that uses them. *)

From Stdlib Require Import NArith ZArith String Ascii Strings.Byte List Lia Bool.
From Stdlib Require Import DecimalString.
From Stdlib Require Import Sorting.Sorted Sorting.Permutation.
From stdpp Require Import base option list gmap strings fin_maps.

Import ListNotations.
Local Open Scope string_scope.

(* ===================================================================== *)
(** * Part I: the embedding                                               *)
(* ===================================================================== *)

(** ** JavaScript values that appear in the code *)

Module Js.

(** A [string | undefined | null] argument or header: [None] stands for
    an absent / null value. *)
Definition maybe_string := option string.

(** JavaScript truthiness of a [string | undefined]: a string is truthy
    exactly when it is not empty. *)
Definition truthy (s : maybe_string) : bool :=
  match s with
  | None => false
  | Some EmptyString => false
  | Some (String _ _) => true
  end.

(** [x || null] for a [string | undefined]. *)
Definition or_null (s : maybe_string) : maybe_string :=
  if truthy s then s else None.

(** [['POST', 'PUT', 'PATCH'].includes(method)] *)
Definition includes (xs : list string) (x : string) : bool :=
  existsb (String.eqb x) xs.

Definition mutating_methods : list string := ["POST"; "PUT"; "PATCH"].

End Js.

(** ** SHA-256 and HMAC (Node's [crypto.createHmac('sha256', key)])

    FIPS 180-4 and RFC 2104, on 32-bit words kept in [N] with the
    wrap-around written out. *)

Module Sha256.
Local Open Scope N_scope.

Definition w32 (x : N) : N := N.land x 0xFFFFFFFF.
Definition add32 (a b : N) : N := w32 (a + b).
Definition not32 (x : N) : N := N.lxor x 0xFFFFFFFF.
Definition rotr (n x : N) : N :=
  N.lor (N.shiftr x n) (w32 (N.shiftl x (32 - n))).
Definition shr (n x : N) : N := N.shiftr x n.

Definition Ch (x y z : N) : N :=
  N.lxor (N.land x y) (N.land (not32 x) z).
Definition Maj (x y z : N) : N :=
  N.lxor (N.lxor (N.land x y) (N.land x z)) (N.land y z).
Definition bsig0 (x : N) : N :=
  N.lxor (N.lxor (rotr 2 x) (rotr 13 x)) (rotr 22 x).
Definition bsig1 (x : N) : N :=
  N.lxor (N.lxor (rotr 6 x) (rotr 11 x)) (rotr 25 x).
Definition ssig0 (x : N) : N :=
  N.lxor (N.lxor (rotr 7 x) (rotr 18 x)) (shr 3 x).
Definition ssig1 (x : N) : N :=
  N.lxor (N.lxor (rotr 17 x) (rotr 19 x)) (shr 10 x).

(** The round constants and the initial chaining value are the first 32
    bits of the fractional parts of the cube roots of the first 64
    primes and of the square roots of the first 8 (FIPS 180-4, 4.2.2 and
    5.3.3). *)
Definition is_prime (n : nat) : bool :=
  forallb (fun d => negb (Nat.eqb (Nat.modulo n d) 0)) (seq 2 (n - 2)).

Definition primes_upto (n : nat) : list N :=
  List.map N.of_nat (List.filter is_prime (seq 2 (n - 1))).

(** The largest [r] below [2 ^ bits] with [r ^ 3 <= x], bit by bit. *)
Fixpoint cube_root_bits (bits : nat) (x r : N) : N :=
  match bits with
  | O => r
  | S b =>
      let c := r + N.shiftl 1 (N.of_nat b) in
      cube_root_bits b x (if c * c * c <=? x then c else r)
  end.

Definition cube_root_fraction (p : N) : N :=
  w32 (cube_root_bits 40 (N.shiftl p 96) 0).

Definition square_root_fraction (p : N) : N :=
  w32 (N.sqrt (N.shiftl p 64)).

Definition K : list N :=
  Eval vm_compute in List.map cube_root_fraction (primes_upto 311).

(** The eight working variables / the chaining value. *)
Record state := State {
  ha : N; hb : N; hc : N; hd : N; he : N; hf : N; hg : N; hh : N }.

Definition state_of_words (ws : list N) : state :=
  State (nth 0 ws 0) (nth 1 ws 0) (nth 2 ws 0) (nth 3 ws 0)
        (nth 4 ws 0) (nth 5 ws 0) (nth 6 ws 0) (nth 7 ws 0).

Definition H0 : state :=
  Eval vm_compute in state_of_words (List.map square_root_fraction (primes_upto 19)).

(** Bytes are numbers below 256. *)
Definition bytes_of_string (s : string) : list N :=
  List.map (fun b => Byte.to_N b) (list_byte_of_string s).

Definition be32 (a b c d : N) : N :=
  N.lor (N.lor (N.shiftl a 24) (N.shiftl b 16)) (N.lor (N.shiftl c 8) d).

Fixpoint words_of_bytes (bs : list N) : list N :=
  match bs with
  | a :: b :: c :: d :: rest => be32 a b c d :: words_of_bytes rest
  | _ => []
  end.

Definition bytes_of_word (w : N) : list N :=
  [ N.land (N.shiftr w 24) 0xFF; N.land (N.shiftr w 16) 0xFF;
    N.land (N.shiftr w 8) 0xFF; N.land w 0xFF ].

(** Padding: a 1 bit, zeros up to 56 mod 64, and the bit length on 64
    bits, big-endian. *)
Definition pad (msg : list N) : list N :=
  let len := N.of_nat (length msg) in
  let zeros := N.to_nat ((119 - (len mod 64)) mod 64) in
  let bits := len * 8 in
  msg ++ [0x80] ++ repeat 0 zeros
      ++ bytes_of_word (w32 (N.shiftr bits 32)) ++ bytes_of_word (w32 bits).

(** Message schedule: extend the 16 words of a block to 64. *)
Definition schedule_next (w : list N) : N :=
  let n := length w in
  add32 (add32 (ssig1 (nth (n - 2) w 0)) (nth (n - 7) w 0))
        (add32 (ssig0 (nth (n - 15) w 0)) (nth (n - 16) w 0)).

Fixpoint schedule (fuel : nat) (w : list N) : list N :=
  match fuel with
  | O => w
  | S fuel' => schedule fuel' (w ++ [schedule_next w])
  end.

Definition round (s : state) (kw : N * N) : state :=
  let t1 := add32 (add32 (add32 (hh s) (bsig1 (he s)))
                         (add32 (Ch (he s) (hf s) (hg s)) (fst kw)))
                  (snd kw) in
  let t2 := add32 (bsig0 (ha s)) (Maj (ha s) (hb s) (hc s)) in
  State (add32 t1 t2) (ha s) (hb s) (hc s)
        (add32 (hd s) t1) (he s) (hf s) (hg s).

Definition compress (h : state) (block : list N) : state :=
  let w := schedule 48 (words_of_bytes block) in
  let s := fold_left round (combine K w) h in
  State (add32 (ha h) (ha s)) (add32 (hb h) (hb s))
        (add32 (hc h) (hc s)) (add32 (hd h) (hd s))
        (add32 (he h) (he s)) (add32 (hf h) (hf s))
        (add32 (hg h) (hg s)) (add32 (hh h) (hh s)).

(** One compression per 64-byte block; [fuel] counts the blocks. *)
Fixpoint blocks (fuel : nat) (h : state) (bs : list N) : state :=
  match fuel with
  | O => h
  | S fuel' =>
      match bs with
      | [] => h
      | _ => blocks fuel' (compress h (firstn 64 bs)) (skipn 64 bs)
      end
  end.

Definition digest_bytes (s : state) : list N :=
  bytes_of_word (ha s) ++ bytes_of_word (hb s) ++ bytes_of_word (hc s)
  ++ bytes_of_word (hd s) ++ bytes_of_word (he s) ++ bytes_of_word (hf s)
  ++ bytes_of_word (hg s) ++ bytes_of_word (hh s).

Definition sha256 (msg : list N) : list N :=
  let p := pad msg in
  digest_bytes (blocks (length p) H0 p).

(** RFC 2104 with block size 64. *)
Definition hmac_key (key : list N) : list N :=
  let k := if (64 <? length key)%nat then sha256 key else key in
  k ++ repeat 0 (64 - length k)%nat.

Definition hmac_sha256 (key msg : list N) : list N :=
  let k := hmac_key key in
  let ipad := List.map (N.lxor 0x36) k in
  let opad := List.map (N.lxor 0x5c) k in
  sha256 (opad ++ sha256 (ipad ++ msg)).

End Sha256.

(** ** Node's [Buffer] with the ['hex'] encoding *)

Module Buffer.

Definition t := list byte.

#[global] Instance byte_eq_decision : EqDecision byte := Byte.byte_eq_dec.

(** The byte of a number below 256. *)
Definition byte_of_N (n : N) : byte :=
  match Byte.of_N n with
  | Some b => b
  | None => x00
  end.

(** Lowercase hexadecimal digit of a value below 16. *)
Definition hex_digit (n : N) : ascii :=
  match n with
  | 0%N => "0" | 1%N => "1" | 2%N => "2" | 3%N => "3"
  | 4%N => "4" | 5%N => "5" | 6%N => "6" | 7%N => "7"
  | 8%N => "8" | 9%N => "9" | 10%N => "a" | 11%N => "b"
  | 12%N => "c" | 13%N => "d" | 14%N => "e" | _ => "f"
  end%char.

(** [buf.toString('hex')] / [digest('hex')]: two lowercase digits per
    byte. *)
Fixpoint to_hex (bs : t) : string :=
  match bs with
  | [] => EmptyString
  | b :: rest =>
      let n := Byte.to_N b in
      String (hex_digit (n / 16)) (String (hex_digit (n mod 16)) (to_hex rest))
  end.

(** Value of a hexadecimal digit, either case; [None] for any other
    character. *)
Definition unhex (c : ascii) : option N :=
  let n := N_of_ascii c in
  if ((48 <=? n) && (n <=? 57))%N then Some (n - 48)%N
  else if ((97 <=? n) && (n <=? 102))%N then Some (n - 87)%N
  else if ((65 <=? n) && (n <=? 70))%N then Some (n - 55)%N
  else None.

(** [Buffer.from(s, 'hex')] for a string whose characters are all below
    U+0100 (any string: [Utf16.from_hex] below): decodes whole pairs of
    hexadecimal digits and stops, without an error, at the first pair
    that is not one (a trailing single digit is dropped as well). *)
Fixpoint from_hex (s : string) : t :=
  match s with
  | String c1 (String c2 rest) =>
      match unhex c1, unhex c2 with
      | Some a, Some b => byte_of_N (a * 16 + b) :: from_hex rest
      | _, _ => []
      end
  | _ => []
  end.

End Buffer.

(** ** SignatureService *)

Module SignatureService.

(** Errors a JavaScript call can throw inside [verify]. *)
Inductive exn : Type :=
| RangeError (msg : string).

Inductive completion (A : Type) : Type :=
| Normal (a : A)
| Thrown (e : exn).
Arguments Normal {A} a.
Arguments Thrown {A} e.

Definition bind {A B} (c : completion A) (k : A -> completion B)
  : completion B :=
  match c with
  | Normal a => k a
  | Thrown e => Thrown e
  end.

(** [try { body } catch { return handler }] *)
Definition try_catch {A} (body : completion A) (handler : A) : A :=
  match body with
  | Normal a => a
  | Thrown _ => handler
  end.

(** The service holds the secret read from the configuration. *)
Record t := { webhookSecret : string }.

Definition hmac_hex (secret payload : string) : string :=
  Buffer.to_hex
    (List.map Buffer.byte_of_N
       (Sha256.hmac_sha256 (Sha256.bytes_of_string secret)
                           (Sha256.bytes_of_string payload))).

(** [generate(payload)] *)
Definition generate (svc : t) (payload : string) : string :=
  hmac_hex (webhookSecret svc) payload.

(** [crypto.timingSafeEqual(a, b)]: throws when the byte lengths
    differ. *)
Definition timingSafeEqual (a b : Buffer.t) : completion bool :=
  if Nat.eqb (length a) (length b)
  then Normal (bool_decide (a = b))
  else Thrown (RangeError "Input buffers must have the same byte length").

(** The body of the [try] block shared by [verify] and
    [verifyWithSecret]. *)
Definition compare_hex (signature expectedSignature : string)
  : completion bool :=
  let sigBuffer := Buffer.from_hex signature in
  let expectedBuffer := Buffer.from_hex expectedSignature in
  if negb (Nat.eqb (length sigBuffer) (length expectedBuffer))
  then Normal false
  else timingSafeEqual sigBuffer expectedBuffer.

(** [verify(payload, signature)], for a payload that is a string and a
    signature that is a request header, or absent. *)
Definition verify (svc : t) (payload : string) (signature : Js.maybe_string)
  : bool :=
  match signature with
  | Some sig =>
      if negb (Js.truthy signature) then false
      else
        let expectedSignature := generate svc payload in
        try_catch (compare_hex sig expectedSignature) false
  | None => false
  end.

(** [verifyWithSecret(payload, signature, secret)] *)
Definition verifyWithSecret (payload : string)
    (signature secret : Js.maybe_string) : bool :=
  match signature, secret with
  | Some sig, Some sec =>
      if negb (Js.truthy signature) || negb (Js.truthy secret) then false
      else
        let expectedSignature := hmac_hex sec payload in
        try_catch (compare_hex sig expectedSignature) false
  | _, _ => false
  end.

End SignatureService.

(** ** Strings of any characters

    A JavaScript string is a sequence of UTF-16 code units.  [string]
    holds the strings whose code units are all below 256, which is what
    Node makes of the bytes of a request header; [Utf16.t] holds any
    string. *)

Module Utf16.

Definition t := list N.

Definition of_latin1 (s : string) : t :=
  List.map N_of_ascii (list_ascii_of_string s).

(** The ['hex'] decoder of [Buffer.from] looks a code unit up by its low
    byte. *)
Definition low_byte (u : N) : ascii := ascii_of_N (u mod 256).

Definition low_bytes (s : t) : string :=
  string_of_list_ascii (List.map low_byte s).

(** [Buffer.from(s, 'hex')] *)
Definition from_hex (s : t) : Buffer.t := Buffer.from_hex (low_bytes s).

(** [!s] is false. *)
Definition truthy (s : option t) : bool :=
  match s with
  | Some (_ :: _) => true
  | _ => false
  end.

End Utf16.

(** ** SignatureService, called from JavaScript

    The types of [generate] and [verify] are TypeScript's; at run time a
    caller may pass a payload that is [undefined] or [null] ([None]
    below) and a signature with any characters. *)

Module SignatureServiceJs.
Import SignatureService.

Inductive raised : Type :=
| TypeError (code : string).

Inductive result (A : Type) : Type :=
| Returns (a : A)
| Raises (e : raised).
Arguments Returns {A} a.
Arguments Raises {A} e.

(** [generate(payload)]: [hmac.update(payload, 'utf8')] throws for a
    payload that is no string. *)
Definition generate (svc : SignatureService.t) (payload : Js.maybe_string)
  : result string :=
  match payload with
  | Some p => Returns (SignatureService.generate svc p)
  | None => Raises (TypeError "ERR_INVALID_ARG_TYPE")
  end.

(** The body of the [try] block of [verify]. *)
Definition compare_hex (signature : Utf16.t) (expectedSignature : string)
  : completion bool :=
  let sigBuffer := Utf16.from_hex signature in
  let expectedBuffer := Buffer.from_hex expectedSignature in
  if negb (Nat.eqb (length sigBuffer) (length expectedBuffer))
  then Normal false
  else timingSafeEqual sigBuffer expectedBuffer.

(** [verify(payload, signature)]: [generate] is called before the [try]
    block is entered. *)
Definition verify (svc : SignatureService.t) (payload : Js.maybe_string)
    (signature : option Utf16.t) : result bool :=
  match signature with
  | Some sig =>
      if negb (Utf16.truthy signature) then Returns false
      else
        match generate svc payload with
        | Raises e => Raises e
        | Returns expectedSignature =>
            Returns (try_catch (compare_hex sig expectedSignature) false)
        end
  | None => Returns false
  end.

End SignatureServiceJs.

(** ** JSON values and [JSON.stringify]

    The parsed request body.  Numbers are restricted to the integers a
    JavaScript number holds exactly (magnitude below 2^53), which
    [JSON.stringify] prints in decimal; the members of an object are kept
    in the order in which JavaScript enumerates them. *)

Module Json.
Local Set Warnings "-register-all".

Inductive value : Type :=
| Null
| Bool (b : bool)
| Num (n : Z)
| Str (s : string)
| Arr (items : list value)
| Obj (members : list (string * value)).

Definition dquote : ascii := ascii_of_nat 34.
Definition backslash : ascii := ascii_of_nat 92.

Definition hex4 (n : N) : string :=
  String "0" (String "0"
    (String (Buffer.hex_digit (n / 16)) (String (Buffer.hex_digit (n mod 16)) EmptyString))).

Definition escape_char (c : ascii) : string :=
  let n := N_of_ascii c in
  if (n =? 34)%N then String backslash (String dquote EmptyString)
  else if (n =? 92)%N then String backslash (String backslash EmptyString)
  else if (n =? 8)%N then String backslash "b"
  else if (n =? 9)%N then String backslash "t"
  else if (n =? 10)%N then String backslash "n"
  else if (n =? 12)%N then String backslash "f"
  else if (n =? 13)%N then String backslash "r"
  else if (n <? 32)%N then String backslash (String "u" (hex4 n))
  else String c EmptyString.

Fixpoint escape (s : string) : string :=
  match s with
  | EmptyString => EmptyString
  | String c rest => escape_char c ++ escape rest
  end.

Definition quote (s : string) : string :=
  String dquote (escape s ++ String dquote EmptyString).

Definition number (n : Z) : string := NilZero.string_of_int (Z.to_int n).

Fixpoint stringify (v : value) : string :=
  match v with
  | Null => "null"
  | Bool true => "true"
  | Bool false => "false"
  | Num n => number n
  | Str s => quote s
  | Arr items =>
      let fix go (first : bool) (vs : list value) : string :=
        match vs with
        | [] => EmptyString
        | x :: rest =>
            (if first then EmptyString else ",") ++ stringify x ++ go false rest
        end in
      "[" ++ go true items ++ "]"
  | Obj members =>
      let fix go (first : bool) (ms : list (string * value)) : string :=
        match ms with
        | [] => EmptyString
        | (k, x) :: rest =>
            (if first then EmptyString else ",")
              ++ quote k ++ ":" ++ stringify x ++ go false rest
        end in
      "{" ++ go true members ++ "}"
  end.

End Json.

(** ** SignatureGuard *)

Module SignatureGuard.

Inductive exception : Type :=
| ForbiddenException (message : string).

(** [canActivate] either returns [true] or throws. *)
Inductive outcome : Type :=
| Activated
| Throws (e : exception).

(** What the guard reads of the Express request.  [raw] is the body as
    it was transmitted; the guard never looks at it. *)
Record Request (Body : Type) : Type := {
  method : string;
  x_webhook_signature : Js.maybe_string;
  body : Body;
  raw : string }.
Arguments method {Body} _.
Arguments x_webhook_signature {Body} _.
Arguments body {Body} _.
Arguments raw {Body} _.

(** Truthiness of the [boolean | undefined] metadata returned by
    [reflector.getAllAndOverride]. *)
Definition metadata_set (m : option bool) : bool :=
  match m with Some true => true | _ => false end.

(** [canActivate(context)]; [JSON_stringify] is the platform's
    [JSON.stringify] on the type of parsed bodies. *)
Definition canActivate {Body : Type} (JSON_stringify : Body -> string)
    (signatureService : SignatureService.t)
    (skipSignature : option bool) (request : Request Body) : outcome :=
  if metadata_set skipSignature then Activated
  else if negb (Js.includes Js.mutating_methods (method request)) then Activated
  else
    let signature := x_webhook_signature request in
    if negb (Js.truthy signature)
    then Throws (ForbiddenException "Webhook signature is required")
    else
      let rawBody := JSON_stringify (body request) in
      let isValid := SignatureService.verify signatureService rawBody signature in
      if negb isValid
      then Throws (ForbiddenException "Invalid webhook signature")
      else Activated.

End SignatureGuard.

(** ** ApiKeyGuard (CredentialGate) *)

Module ApiKeyGuard.

Inductive decision : Type :=
| Admit
| Deny (reason : string).

(** Modelled from the spec: the guard's source file
    (src/auth/guards/api-key.guard.ts) is not among the sources, only
    its unit tests and an excerpt in ANALYSIS.md are.  The policy of
    section 4.2, in its order: public routes are admitted, an absent
    credential is denied as required, a credential different from the
    configured value is denied as invalid, anything else is admitted. *)
Definition canActivate (configured : string) (isPublic : bool)
    (credential : Js.maybe_string) : decision :=
  if isPublic then Admit
  else match credential with
       | None => Deny "credential required"
       | Some c =>
           if String.eqb c configured then Admit
           else Deny "invalid credential"
       end.

End ApiKeyGuard.

(** ** IdempotencyInterceptor *)

Module IdempotencyInterceptor.

Record CachedResponse (Data : Type) : Type := {
  data : Data;
  timestamp : Z }.
Arguments data {Data} _.
Arguments timestamp {Data} _.

(** 24 hours, in milliseconds. *)
Definition TTL : Z := 24 * 60 * 60 * 1000.

Record Request : Type := {
  method : string;
  x_idempotency_key : Js.maybe_string }.

(** What an observable delivers to its subscriber: a value, or an
    error. *)
Inductive notification (Data Err : Type) : Type :=
| Emits (d : Data)
| Fails (e : Err).
Arguments Emits {Data Err} d.
Arguments Fails {Data Err} e.

(** [next.handle()]: the later pipeline stages, run on the state [W]
    they own (the database among it). *)
Definition CallHandler (Data Err W : Type) : Type :=
  W -> notification Data Err * W.

(** The interceptor's own state is the cache. *)
Definition expired {Data} (now : Z) (entry : CachedResponse Data) : Prop :=
  (now - timestamp entry > TTL)%Z.

#[global] Instance expired_dec {Data} now (entry : CachedResponse Data)
  : Decision (expired now entry).
Proof. unfold expired. apply _. Defined.

(** [cleanExpiredEntries()]: the loop deletes each expired entry. *)
Definition cleanExpiredEntries {Data} (now : Z)
    (cache : gmap string (CachedResponse Data))
  : gmap string (CachedResponse Data) :=
  filter (fun kv => ~ expired now kv.2) cache.

(** [intercept(context, next)].  [now] is [Date.now()] when the request
    arrives, [later] is [Date.now()] when the handler's value passes
    through [tap].  The result is what the returned observable
    delivers, the cache and the handler's state afterwards. *)
Definition intercept {Data Err W : Type}
    (cache : gmap string (CachedResponse Data))
    (request : Request) (next : CallHandler Data Err W)
    (now later : Z) (w : W)
  : notification Data Err * gmap string (CachedResponse Data) * W :=
  if negb (Js.includes Js.mutating_methods (method request))
  then let '(n, w') := next w in (n, cache, w')
  else
    match x_idempotency_key request with
    | Some idempotencyKey =>
        if negb (Js.truthy (Some idempotencyKey))
        then let '(n, w') := next w in (n, cache, w')
        else
          let cache1 := cleanExpiredEntries now cache in
          match cache1 !! idempotencyKey with
          | Some cached => (Emits (data cached), cache1, w)
          | None =>
              let '(n, w') := next w in
              match n with
              | Emits d =>
                  (Emits d,
                   <[idempotencyKey := {| data := d; timestamp := later |}]> cache1,
                   w')
              | Fails e => (Fails e, cache1, w')
              end
          end
    | None => let '(n, w') := next w in (n, cache, w')
    end.

End IdempotencyInterceptor.

(** ** The Webhook entity and the TypeORM repository *)

Module Repository.

Inductive WebhookStatus : Type := pending | processed | failed.

(** The entity of src/webhooks/entities/webhook.entity.ts.  [receivedAt]
    is a [CreateDateColumn] (milliseconds since the epoch here);
    [idempotencyKey] is declared [unique: true]. *)
Record Webhook : Type := {
  id : string;
  source : string;
  event : string;
  payload : Json.value;
  signature : Js.maybe_string;
  idempotencyKey : Js.maybe_string;
  receivedAt : Z;
  status : WebhookStatus }.

(** The object handed to [repository.create]: every column but the one
    the database fills in. *)
Record Draft : Type := {
  d_id : string;
  d_source : string;
  d_event : string;
  d_payload : Json.value;
  d_signature : Js.maybe_string;
  d_idempotencyKey : Js.maybe_string;
  d_status : WebhookStatus }.

Inductive QueryFailedError : Type :=
| UniqueConstraintFailed (column : string).

Definition table := list Webhook.

Definition has_key (k : string) (r : Webhook) : bool :=
  match idempotencyKey r with
  | Some k' => String.eqb k' k
  | None => false
  end.

Definition has_id (i : string) (r : Webhook) : bool := String.eqb (id r) i.

(** [findOne({ where: { idempotencyKey } })] and
    [findOne({ where: { id } })] *)
Definition findOneByKey (k : string) (rows : table) : option Webhook :=
  List.find (has_key k) rows.

Definition findOneById (i : string) (rows : table) : option Webhook :=
  List.find (has_id i) rows.

Definition stored (d : Draft) (at_ : Z) : Webhook :=
  {| id := d_id d; source := d_source d; event := d_event d;
     payload := d_payload d; signature := d_signature d;
     idempotencyKey := d_idempotencyKey d; receivedAt := at_;
     status := d_status d |}.

(** The unique index on [idempotencyKey]: another row already holds the
    (non-null) key of the draft. *)
Definition violates_unique (d : Draft) (rows : table) : bool :=
  match d_idempotencyKey d with
  | Some k => existsb (fun r => has_key k r && negb (has_id (d_id d) r)) rows
  | None => false
  end.

(** [save(entity)]: rejected when the unique index is violated;
    otherwise the row with the entity's primary key is updated, or a
    row is inserted with [receivedAt] set by the database. *)
Definition save (now : Z) (d : Draft) (rows : table)
  : (QueryFailedError + Webhook) * table :=
  if violates_unique d rows
  then (inl (UniqueConstraintFailed "idempotencyKey"), rows)
  else
    match findOneById (d_id d) rows with
    | Some old =>
        let r := stored d (receivedAt old) in
        (inr r, List.map (fun x => if has_id (d_id d) x then r else x) rows)
    | None =>
        let r := stored d now in
        (inr r, (rows ++ [r])%list)
    end.

(** The query that [findAll] builds with the query builder. *)
Inductive direction : Type := ASC | DESC.

Record QueryBuilder : Type := {
  where_source : option string;
  where_event : option string;
  orderBy_receivedAt : option direction;
  skip : option Z;
  take : option Z }.

Definition createQueryBuilder : QueryBuilder :=
  {| where_source := None; where_event := None;
     orderBy_receivedAt := None; skip := None; take := None |}.

Definition andWhere_source (s : string) (qb : QueryBuilder) : QueryBuilder :=
  {| where_source := Some s; where_event := where_event qb;
     orderBy_receivedAt := orderBy_receivedAt qb;
     skip := skip qb; take := take qb |}.

Definition andWhere_event (e : string) (qb : QueryBuilder) : QueryBuilder :=
  {| where_source := where_source qb; where_event := Some e;
     orderBy_receivedAt := orderBy_receivedAt qb;
     skip := skip qb; take := take qb |}.

Definition orderBy (d : direction) (qb : QueryBuilder) : QueryBuilder :=
  {| where_source := where_source qb; where_event := where_event qb;
     orderBy_receivedAt := Some d;
     skip := skip qb; take := take qb |}.

Definition set_skip (n : Z) (qb : QueryBuilder) : QueryBuilder :=
  {| where_source := where_source qb; where_event := where_event qb;
     orderBy_receivedAt := orderBy_receivedAt qb;
     skip := Some n; take := take qb |}.

Definition set_take (n : Z) (qb : QueryBuilder) : QueryBuilder :=
  {| where_source := where_source qb; where_event := where_event qb;
     orderBy_receivedAt := orderBy_receivedAt qb;
     skip := skip qb; take := Some n |}.

Definition matches (qb : QueryBuilder) (r : Webhook) : bool :=
  match where_source qb with
  | Some s => String.eqb (source r) s
  | None => true
  end
  && match where_event qb with
     | Some e => String.eqb (event r) e
     | None => true
     end.

(** [ORDER BY receivedAt] names no second column, so the database is
    free in the order of rows with equal [receivedAt], and need not
    repeat it from one query to the next.  [tie] is the rank it happens
    to give the rows in one execution (the rowid read downwards when it
    scans the index on [receivedAt] backwards, say); rows it cannot tell
    apart keep their table order. *)
Definition before (d : direction) (tie : Webhook -> Z) (a b : Webhook) : bool :=
  match d with
  | DESC => (receivedAt b <? receivedAt a)%Z
            || ((receivedAt b =? receivedAt a)%Z && (tie a <=? tie b)%Z)
  | ASC => (receivedAt a <? receivedAt b)%Z
           || ((receivedAt a =? receivedAt b)%Z && (tie a <=? tie b)%Z)
  end.

Fixpoint insert_sorted (d : direction) (tie : Webhook -> Z) (r : Webhook)
    (l : list Webhook) : list Webhook :=
  match l with
  | [] => [r]
  | x :: rest =>
      if before d tie r x then r :: l else x :: insert_sorted d tie r rest
  end.

Definition sort_rows (d : direction) (tie : Webhook -> Z) (l : list Webhook)
  : list Webhook :=
  fold_right (insert_sorted d tie) [] l.

(** [OFFSET n] and [LIMIT n] as the query builder writes them for
    SQLite, the database of the default configuration
    (src/config/database.config.ts): it writes no [OFFSET] for 0 and
    SQLite reads a negative one as 0; it writes no [LIMIT] for 0 and
    SQLite reads a negative one as no limit. *)
Definition offset_rows (n : Z) (l : list Webhook) : list Webhook :=
  skipn (Z.to_nat n) l.

Definition limit_rows (n : Z) (l : list Webhook) : list Webhook :=
  if (0 <? n)%Z then firstn (Z.to_nat n) l else l.

(** [getManyAndCount()]: the page of rows, and the number of rows that
    match the conditions regardless of [skip] and [take]. *)
Definition getManyAndCount (tie : Webhook -> Z) (qb : QueryBuilder)
    (rows : table) : list Webhook * Z :=
  let matching := List.filter (matches qb) rows in
  let ordered :=
    match orderBy_receivedAt qb with
    | Some d => sort_rows d tie matching
    | None => matching
    end in
  let skipped :=
    match skip qb with
    | Some n => offset_rows n ordered
    | None => ordered
    end in
  let taken :=
    match take qb with
    | Some n => limit_rows n skipped
    | None => skipped
    end in
  (taken, Z.of_nat (length matching)).

End Repository.

(** ** Asynchronous code against the repository

    An [async] function is a tree of the calls it awaits: control returns
    to the event loop at each of them, and other requests may run in
    between. *)

Module Async.
Import Repository.

Inductive call : Type -> Type :=
| FindOneByKey (k : string) : call (option Webhook)
| FindOneById (i : string) : call (option Webhook)
| Save (d : Draft) : call (QueryFailedError + Webhook)
| Count : call Z
| GetManyAndCount (qb : QueryBuilder) : call (list Webhook * Z)
| Uuidv4 : call string.

Inductive exception : Type :=
| QueryFailed (e : QueryFailedError)
| NotFoundException (message : string).

Inductive t (A : Type) : Type :=
| Return (a : A)
| Throw (e : exception)
| Await {X : Type} (c : call X) (k : X -> t A).
Arguments Return {A} a.
Arguments Throw {A} e.
Arguments Await {A X} c k.

(** [await repository.save(w)] outside any [try]: a rejection is
    rethrown to the caller. *)
Definition await_save {A} (d : Draft) (k : Webhook -> t A) : t A :=
  Await (Save d)
    (fun r => match r with
              | inl e => Throw (QueryFailed e)
              | inr saved => k saved
              end).

(** The world the calls act on: the table, and the sources of
    identifiers, of time and of the database's order among rows with
    equal [receivedAt], read at the step at which a call runs. *)
Record World : Type := {
  rows : table;
  steps : nat;
  uuid_at : nat -> string;
  time_at : nat -> Z;
  tie_at : nat -> Webhook -> Z }.

Definition next_world (w : World) (rows' : table) : World :=
  {| rows := rows'; steps := S (steps w);
     uuid_at := uuid_at w; time_at := time_at w; tie_at := tie_at w |}.

Definition perform {X : Type} (c : call X) (w : World) : X * World :=
  match c in call X return X * World with
  | FindOneByKey k => (findOneByKey k (rows w), next_world w (rows w))
  | FindOneById i => (findOneById i (rows w), next_world w (rows w))
  | Save d =>
      let '(r, rows') := save (time_at w (steps w)) d (rows w) in
      (r, next_world w rows')
  | Count => (Z.of_nat (length (rows w)), next_world w (rows w))
  | GetManyAndCount qb =>
      (getManyAndCount (tie_at w (steps w)) qb (rows w), next_world w (rows w))
  | Uuidv4 => (uuid_at w (steps w), next_world w (rows w))
  end.

Inductive entry : Type :=
| Called {X : Type} (c : call X).

Definition is_write (e : entry) : bool :=
  match e with
  | Called (Save _) => true
  | Called _ => false
  end.

Definition is_key_lookup (e : entry) : bool :=
  match e with
  | Called (FindOneByKey _) => true
  | Called _ => false
  end.

Inductive outcome (A : Type) : Type :=
| Fulfilled (a : A)
| Rejected (e : exception).
Arguments Fulfilled {A} a.
Arguments Rejected {A} e.

(** One request running alone, to completion: its outcome, the world
    afterwards and the calls it made, in order. *)
Fixpoint run {A} (p : t A) (w : World) : outcome A * World * list entry :=
  match p with
  | Return a => (Fulfilled a, w, [])
  | Throw e => (Rejected e, w, [])
  | Await c k =>
      let '(x, w1) := perform c w in
      let '(o, w2, tr) := run (k x) w1 in
      (o, w2, Called c :: tr)
  end.

(** Several requests in flight: [schedule] names, step by step, the
    request whose pending call is performed next. *)
Fixpoint interleave {A} (schedule : list nat) (pool : list (t A)) (w : World)
  : list (t A) * World :=
  match schedule with
  | [] => (pool, w)
  | i :: rest =>
      match pool !! i with
      | Some (Await c k) =>
          let '(x, w') := perform c w in
          interleave rest (<[i := k x]> pool) w'
      | _ => interleave rest pool w
      end
  end.

End Async.

(** ** WebhooksService *)

Module WebhooksService.
Import Repository Async.

Record CreateWebhookDto : Type := {
  dto_source : string;
  dto_event : string;
  dto_payload : Json.value }.

Record CreateResult : Type := {
  webhook : Webhook;
  isNew : bool }.

(** The code after the idempotency check of [create]. *)
Definition create_new (createWebhookDto : CreateWebhookDto)
    (signature idempotencyKey : Js.maybe_string) : Async.t CreateResult :=
  Await Uuidv4 (fun uuid =>
    let webhook :=
      {| d_id := uuid;
         d_source := dto_source createWebhookDto;
         d_event := dto_event createWebhookDto;
         d_payload := dto_payload createWebhookDto;
         d_signature := Js.or_null signature;
         d_idempotencyKey := Js.or_null idempotencyKey;
         d_status := pending |} in
    await_save webhook (fun saved =>
      Return {| webhook := saved; isNew := true |})).

(** [create(createWebhookDto, signature?, idempotencyKey?)] *)
Definition create (createWebhookDto : CreateWebhookDto)
    (signature idempotencyKey : Js.maybe_string) : Async.t CreateResult :=
  match idempotencyKey with
  | Some key =>
      if Js.truthy idempotencyKey then
        Await (FindOneByKey key) (fun existing =>
          match existing with
          | Some found => Return {| webhook := found; isNew := false |}
          | None => create_new createWebhookDto signature idempotencyKey
          end)
      else create_new createWebhookDto signature idempotencyKey
  | None => create_new createWebhookDto signature idempotencyKey
  end.

(** The query parameters; validation and defaults of the fields are the
    DTO's, absent fields are [undefined]. *)
Record QueryWebhookDto : Type := {
  q_page : option Z;
  q_limit : option Z;
  q_source : Js.maybe_string;
  q_event : Js.maybe_string }.

(** A JavaScript number that may fail to be an integer. *)
Inductive number : Type :=
| Finite (z : Z)
| Infinity
| NaN.

(** [Math.ceil(total / limit)] for integers [total >= 0] and [limit]. *)
Definition Math_ceil_div (total limit : Z) : number :=
  if (limit =? 0)%Z then (if (total =? 0)%Z then NaN else Infinity)
  else Finite (- ((- total) / limit))%Z.

Record WebhookResponseDto : Type := {
  r_id : string;
  r_source : string;
  r_event : string;
  r_payload : Json.value;
  r_receivedAt : Z;
  r_status : WebhookStatus }.

(** [WebhookResponseDto.fromEntity] *)
Definition fromEntity (w : Webhook) : WebhookResponseDto :=
  {| r_id := id w; r_source := source w; r_event := event w;
     r_payload := payload w; r_receivedAt := receivedAt w;
     r_status := status w |}.

Record Meta : Type := {
  total : Z;
  page : Z;
  limit : Z;
  totalPages : number }.

Record PaginatedWebhooksResponseDto : Type := {
  data : list WebhookResponseDto;
  meta : Meta }.

Definition default (d : Z) (x : option Z) : Z :=
  match x with Some v => v | None => d end.

(** [findAll(query)] *)
Definition findAll (query : QueryWebhookDto)
  : Async.t PaginatedWebhooksResponseDto :=
  let page := default 1 (q_page query) in
  let limit := default 20 (q_limit query) in
  let skip := ((page - 1) * limit)%Z in
  let queryBuilder := createQueryBuilder in
  let queryBuilder :=
    match q_source query with
    | Some s => if Js.truthy (Some s) then andWhere_source s queryBuilder
                else queryBuilder
    | None => queryBuilder
    end in
  let queryBuilder :=
    match q_event query with
    | Some e => if Js.truthy (Some e) then andWhere_event e queryBuilder
                else queryBuilder
    | None => queryBuilder
    end in
  let queryBuilder := set_take limit (set_skip skip (orderBy DESC queryBuilder)) in
  Await (GetManyAndCount queryBuilder) (fun '(webhooks, total) =>
    Return {| data := List.map fromEntity webhooks;
              meta := {| total := total; page := page; limit := limit;
                         totalPages := Math_ceil_div total limit |} |}).

(** [findOne(id)] *)
Definition findOne (i : string) : Async.t Webhook :=
  Await (FindOneById i) (fun found =>
    match found with
    | Some webhook => Return webhook
    | None =>
        Throw (NotFoundException
                 ("Webhook with ID " ++ String Json.dquote i
                    ++ String Json.dquote " not found"))
    end).

(** [count()] *)
Definition count : Async.t Z := Await Count (fun n => Return n).

End WebhooksService.

(** ** Sequencing asynchronous code *)

Module AsyncOps.
Import Async.

(** [const a = await p; ... k a]: the caller resumes with the value of
    [p], and a rejection of [p] is the caller's. *)
Fixpoint bind {A B : Type} (p : Async.t A) (k : A -> Async.t B) : Async.t B :=
  match p with
  | Return a => k a
  | Throw e => Throw e
  | Await c f => Await c (fun x => bind (f x) k)
  end.

End AsyncOps.

(** ** WebhooksController (src/webhooks/webhooks.controller.ts) *)

Module WebhooksController.
Import Repository Async AsyncOps WebhooksService.

Record CreateWebhookResponseDto : Type := {
  c_id : string;
  c_message : string }.

(** [create(createWebhookDto, signature?, idempotencyKey?)]: the two
    headers are handed to the service as they arrive. *)
Definition create (createWebhookDto : CreateWebhookDto)
    (signature idempotencyKey : Js.maybe_string)
  : Async.t CreateWebhookResponseDto :=
  bind (WebhooksService.create createWebhookDto signature idempotencyKey)
    (fun result =>
       Return {| c_id := id (webhook result);
                 c_message :=
                   if isNew result then "Webhook received"
                   else "Webhook already processed (idempotent)" |}).

(** [findAll(query)] *)
Definition findAll (query : QueryWebhookDto)
  : Async.t PaginatedWebhooksResponseDto :=
  WebhooksService.findAll query.

(** [findOne(id)], reached once [ParseUUIDPipe] has accepted [id]. *)
Definition findOne (i : string) : Async.t WebhookResponseDto :=
  bind (WebhooksService.findOne i)
    (fun webhook => Return (fromEntity webhook)).

End WebhooksController.

(** ** HttpExceptionFilter (src/common/filters/http-exception.filter.ts) *)

Module HttpExceptionFilter.

(** The [message] member of the body of an [HttpException]. *)
Inductive message_member : Type :=
| NoMessage
| MessageString (s : string)
| MessageArray (items : list string).

(** [exception.getResponse()]: a string, or an object of which the
    filter reads [message] and [errorCode]. *)
Inductive exception_response : Type :=
| ResponseString (s : string)
| ResponseObject (message : message_member) (errorCode : Js.maybe_string).

(** What reaches [catch(exception: unknown, ...)]. *)
Inductive thrown : Type :=
| HttpException (status : Z) (response : exception_response) (message : string)
| Error (message : string) (stack : Js.maybe_string)
| NotAnError.

Record ErrorResponse : Type := {
  statusCode : Z;
  message : string;
  errorCode : option string;
  errors : option (list string);
  requestId : string;
  timestamp : string;
  path : string }.

(** What the filter reads of the request. *)
Record Request : Type := {
  req_requestId : Js.maybe_string;
  req_url : string }.

(** [a || b] on strings. *)
Definition or_else (a : Js.maybe_string) (b : string) : string :=
  match a with
  | Some s => if Js.truthy a then s else b
  | None => b
  end.

Definition members (l : list (string * Js.maybe_string)) : list (string * Json.value) :=
  omap (fun kv => match kv.2 with
                  | Some s => Some (kv.1, Json.Str s)
                  | None => None
                  end) l.

(** The line logged for an exception that is an [Error] and not an
    [HttpException]; a member that is [undefined] is left out by
    [JSON.stringify]. *)
Definition unhandled_line (requestId error : string) (stack : Js.maybe_string)
    (now : string) : string :=
  Json.stringify
    (Json.Obj (members [ ("type", Some "unhandled_exception");
                         ("requestId", Some requestId);
                         ("error", Some error);
                         ("stack", stack);
                         ("timestamp", Some now) ])).

(** [catch(exception, host)]: the body sent with [response.status(status)]
    and the lines written with [logger.error].  [log_now] and [now] are
    [new Date().toISOString()] when the line is logged and when the body
    is built. *)
Definition catch (exception : thrown) (request : Request) (log_now now : string)
  : ErrorResponse * list string :=
  let requestId := or_else (req_requestId request) "unknown" in
  let '(status, message, errors, errorCode, logged) :=
    match exception with
    | HttpException status exceptionResponse exception_message =>
        match exceptionResponse with
        | ResponseString s => (status, s, None, None, [])
        | ResponseObject resp_message resp_errorCode =>
            match resp_message with
            | MessageArray items =>
                (status, "Validation failed", Some items, resp_errorCode, [])
            | MessageString s =>
                (status, or_else (Some s) exception_message, None,
                 resp_errorCode, [])
            | NoMessage =>
                (status, exception_message, None, resp_errorCode, [])
            end
        end
    | Error error_message stack =>
        (500%Z, "Internal server error", None, None,
         [unhandled_line requestId error_message stack log_now])
    | NotAnError => (500%Z, "Internal server error", None, None, [])
    end in
  ({| statusCode := status;
      message := message;
      errorCode := if Js.truthy errorCode then errorCode else None;
      errors := errors;
      requestId := requestId;
      timestamp := now;
      path := req_url request |},
   logged).

End HttpExceptionFilter.

(** ** RequestIdMiddleware (src/common/middleware/request-id.middleware.ts) *)

Module RequestIdMiddleware.

(** What [use] leaves behind: [req.requestId] and the response header
    [X-Request-ID]. *)
Record Effect : Type := {
  req_requestId : string;
  res_X_Request_ID : string }.

(** [use(req, res, next)]; [uuidv4] is the identifier that [uuidv4()]
    gives when it is called. *)
Definition use (x_request_id : Js.maybe_string) (uuidv4 : string) : Effect :=
  let requestId := HttpExceptionFilter.or_else x_request_id uuidv4 in
  {| req_requestId := requestId; res_X_Request_ID := requestId |}.

End RequestIdMiddleware.

(** ** LoggingInterceptor (src/common/interceptors/logging.interceptor.ts) *)

Module LoggingInterceptor.
Import IdempotencyInterceptor.

Definition sensitiveFields : list string :=
  ["password"; "token"; "secret"; "apiKey"; "api_key"].

(** [if (field in o) o[field] = v]: the member keeps its place. *)
Definition assign_if_present (field : string) (v : Json.value)
    (o : list (string * Json.value)) : list (string * Json.value) :=
  List.map (fun kv => if String.eqb kv.1 field then (kv.1, v) else kv) o.

(** The own enumerable members of a value spread into an object literal
    ([{ ...body }]): those of an object, the indexed items of an array. *)
Definition index_name (i : nat) : string :=
  NilZero.string_of_uint (Nat.to_uint i).

Definition spread (body : Json.value) : list (string * Json.value) :=
  match body with
  | Json.Obj ms => ms
  | Json.Arr items => imap (fun i x => (index_name i, x)) items
  | _ => []
  end.

(** [typeof body === 'object'] for a body that is not [null]. *)
Definition is_object (body : Json.value) : bool :=
  match body with
  | Json.Obj _ | Json.Arr _ => true
  | _ => false
  end.

(** [sanitizeBody(body)]; [None] is an [undefined] body. *)
Definition sanitizeBody (body : option Json.value) : option Json.value :=
  match body with
  | None => None
  | Some b =>
      if negb (is_object b) then Some b
      else
        Some (Json.Obj
                (fold_left (fun sanitized field =>
                              assign_if_present field (Json.Str "[REDACTED]") sanitized)
                           sensitiveFields (spread b)))
  end.

(** What the interceptor reads of the request. *)
Record Request : Type := {
  method : string;
  url : string;
  body : option Json.value;
  requestId : Js.maybe_string;
  user_agent : Js.maybe_string }.

(** What the [error] callback reads of an error passing through: its
    [status], when it has one that is a number, and its [message], when
    it has one that is a string. *)
Record ErrorView : Type := {
  error_status : option Z;
  error_message : Js.maybe_string }.

Inductive line : Type :=
| Log (text : string)
| LogError (text : string).

Definition member_str (k : string) (v : string) : option (string * Json.value) :=
  Some (k, Json.Str v).

Definition present (l : list (option (string * Json.value))) : Json.value :=
  Json.Obj (omap (fun x => x) l).

(** [`${duration}ms`] *)
Definition duration_ms (startTime endTime : Z) : string :=
  Json.number (endTime - startTime) ++ "ms".

(** [error.status || 500] *)
Definition status_or_500 (s : option Z) : Z :=
  match s with
  | Some n => if (n =? 0)%Z then 500%Z else n
  | None => 500%Z
  end.

Definition request_line (request : Request) (now : string) : line :=
  Log (Json.stringify
         (present [ member_str "type" "request";
                    member_str "requestId"
                      (HttpExceptionFilter.or_else (requestId request) "unknown");
                    member_str "method" (method request);
                    member_str "url" (url request);
                    member_str "userAgent"
                      (HttpExceptionFilter.or_else (user_agent request) "unknown");
                    option_map (fun b => ("body", b)) (sanitizeBody (body request));
                    member_str "timestamp" now ])).

Definition response_line (request : Request) (statusCode : Z)
    (startTime endTime : Z) (now : string) : line :=
  Log (Json.stringify
         (present [ member_str "type" "response";
                    member_str "requestId"
                      (HttpExceptionFilter.or_else (requestId request) "unknown");
                    member_str "method" (method request);
                    member_str "url" (url request);
                    Some ("statusCode", Json.Num statusCode);
                    member_str "duration" (duration_ms startTime endTime);
                    member_str "timestamp" now ])).

Definition error_line (request : Request) (error : ErrorView)
    (startTime endTime : Z) (now : string) : line :=
  LogError (Json.stringify
         (present [ member_str "type" "error";
                    member_str "requestId"
                      (HttpExceptionFilter.or_else (requestId request) "unknown");
                    member_str "method" (method request);
                    member_str "url" (url request);
                    Some ("statusCode", Json.Num (status_or_500 (error_status error)));
                    option_map (fun m => ("error", Json.Str m)) (error_message error);
                    member_str "duration" (duration_ms startTime endTime);
                    member_str "timestamp" now ])).

(** [intercept(context, next)].  [startTime] and [start_iso] are the clock
    when the request arrives, [endTime] and [end_iso] when the handler's
    value or error passes through [tap]; [statusCode] is
    [response.statusCode] at that moment.  [view] is what the error
    exposes, [None] for a thrown [null] or [undefined]: reading its
    [status] throws inside the callback, and [tap] passes that
    [type_error] on in place of the error, with no line logged.  The
    result is what the returned observable delivers, the handler's state
    afterwards and the lines logged. *)
Definition intercept {Data Err W : Type} (request : Request)
    (statusCode : Z) (view : Err -> option ErrorView) (type_error : Err)
    (next : CallHandler Data Err W)
    (startTime endTime : Z) (start_iso end_iso : string) (w : W)
  : notification Data Err * W * list line :=
  let first := request_line request start_iso in
  let '(n, w') := next w in
  match n with
  | Emits d =>
      (Emits d, w', [first; response_line request statusCode startTime endTime end_iso])
  | Fails e =>
      match view e with
      | Some error =>
          (Fails e, w', [first; error_line request error startTime endTime end_iso])
      | None => (Fails type_error, w', [first])
      end
  end.

End LoggingInterceptor.

(* ===================================================================== *)
(** * Vocabulary of the properties, and sample data                        *)
(* ===================================================================== *)

(** ** Strings used in examples *)

Definition dq : string := String Json.dquote EmptyString.

(** [{"valid":"payload"}], the payload of the service's unit tests. *)
Definition test_payload : string :=
  "{" ++ dq ++ "valid" ++ dq ++ ":" ++ dq ++ "payload" ++ dq ++ "}".

Definition test_service : SignatureService.t :=
  {| SignatureService.webhookSecret := "test-webhook-secret" |}.

Module Claims.

(** [s] with the character at index [i] replaced by [c]. *)
Fixpoint replace_at (i : nat) (c : ascii) (s : string) : string :=
  match s with
  | EmptyString => EmptyString
  | String x rest =>
      match i with
      | O => String c rest
      | S i' => String x (replace_at i' c rest)
      end
  end.

(** A string of hexadecimal digits, two per byte. *)
Fixpoint all_hex (s : string) : bool :=
  match s with
  | EmptyString => true
  | String c rest =>
      match Buffer.unhex c with
      | Some _ => all_hex rest
      | None => false
      end
  end.

Definition valid_hex (s : string) : bool :=
  all_hex s && Nat.even (String.length s).

(** The bytes of the expected digest. *)
Definition digest (svc : SignatureService.t) (payload : string) : Buffer.t :=
  List.map Buffer.byte_of_N
    (Sha256.hmac_sha256 (Sha256.bytes_of_string (SignatureService.webhookSecret svc))
                        (Sha256.bytes_of_string payload)).

(** The hexadecimal digit that [Buffer.from(s, 'hex')] reads a character
    as, if any. *)
Definition digit_of (u : N) : option N := Buffer.unhex (Utf16.low_byte u).

(** The signature of the unit tests' payload, and Latin capital K with
    cedilla, U+0136, whose low byte is that of the digit 6. *)
Definition test_signature : Utf16.t :=
  Utf16.of_latin1 (SignatureService.generate test_service test_payload).

Definition K_cedilla : N := 0x136.

End Claims.

Module GateClaims.
Import SignatureGuard.

(** The mutating verbs. *)
Definition mutating (m : string) : Prop :=
  m = "POST" \/ m = "PUT" \/ m = "PATCH".

Definition required : outcome :=
  Throws (ForbiddenException "Webhook signature is required").
Definition invalid : outcome :=
  Throws (ForbiddenException "Invalid webhook signature").

(** The decision procedure in the words of section 4.3: a signature
    header that is present is verified. *)
Definition SignatureGate_spec {Body : Type} (JSON_stringify : Body -> string)
    (svc : SignatureService.t) (skip : bool) (request : Request Body)
  : outcome :=
  if skip then Activated
  else if negb (Js.includes Js.mutating_methods (method request)) then Activated
  else match x_webhook_signature request with
       | None => required
       | Some s =>
           if SignatureService.verify svc (JSON_stringify (body request)) (Some s)
           then Activated else invalid
       end.

(** A POST whose signature header is present and empty. *)
Definition empty_signature_post : Request Json.value :=
  {| method := "POST";
     x_webhook_signature := Some EmptyString;
     body := Json.Obj [("data", Json.Str "test")];
     raw := "{" ++ dq ++ "data" ++ dq ++ ":" ++ dq ++ "test" ++ dq ++ "}" |}.

(** A POST whose body was transmitted with a space after the colon, and
    signed by the sender over exactly those bytes. *)
Definition spaced_raw : string :=
  "{" ++ dq ++ "a" ++ dq ++ ": 1}".

Definition spaced_post : Request Json.value :=
  {| method := "POST";
     x_webhook_signature :=
       Some (SignatureService.generate test_service spaced_raw);
     body := Json.Obj [("a", Json.Num 1)];
     raw := spaced_raw |}.

Definition with_raw {Body} (r : Request Body) (raw' : string) : Request Body :=
  {| method := method r; x_webhook_signature := x_webhook_signature r;
     body := body r; raw := raw' |}.

End GateClaims.

Module CacheClaims.
Import IdempotencyInterceptor.

(** A handler that would create record [id-2] now; the cached response
    of an earlier request carries [id-1]. *)
Definition sample_handler : CallHandler string string nat :=
  fun calls => (Emits "id-2", S calls).

Definition failing_handler : CallHandler string string nat :=
  fun calls => (Fails "QueryFailedError", S calls).

Definition sample_cache : gmap string (CachedResponse string) :=
  <["k1" := {| data := "id-1"; timestamp := 1000 |}]>
    (<["k0" := {| data := "id-0"; timestamp := 0 |}]> ∅).

(** More than 24 hours after the entry of [k0], less after that of
    [k1]. *)
Definition sample_now : Z := 86400500.

Definition post (key : Js.maybe_string) : Request :=
  {| method := "POST"; x_idempotency_key := key |}.

End CacheClaims.

Module ServiceClaims.
Import Repository Async WebhooksService.

(** The record that [create] builds once the identifier is drawn. *)
Definition draft (dto : CreateWebhookDto) (signature key : Js.maybe_string)
    (uuid : string) : Draft :=
  {| d_id := uuid; d_source := dto_source dto; d_event := dto_event dto;
     d_payload := dto_payload dto; d_signature := Js.or_null signature;
     d_idempotencyKey := Js.or_null key; d_status := pending |}.

Definition payment : CreateWebhookDto :=
  {| dto_source := "stripe"; dto_event := "payment.completed";
     dto_payload := Json.Obj [("orderId", Json.Str "12345"); ("amount", Json.Num 100)] |}.

Definition refund : CreateWebhookDto :=
  {| dto_source := "stripe"; dto_event := "payment.refunded";
     dto_payload := Json.Obj [("orderId", Json.Str "12345")] |}.

Definition sample_uuid (n : nat) : string :=
  "00000000-0000-4000-8000-" ++ NilZero.string_of_uint (Nat.to_uint n).

(** A database that leaves rows with equal [receivedAt] in the order of
    the table, and one that returns them in the opposite order of their
    identifiers' lengths. *)
Definition table_order : nat -> Webhook -> Z := fun _ _ => 0%Z.

Definition longer_id_first : nat -> Webhook -> Z :=
  fun _ r => (- Z.of_nat (String.length (id r)))%Z.

(** An empty table; identifiers and time follow the step counter. *)
Definition empty_world : World :=
  {| rows := []; steps := 0; uuid_at := sample_uuid;
     time_at := fun n => Z.of_nat n; tie_at := table_order |}.

(** No two rows hold the same non-null idempotency key under different
    identifiers. *)
Definition unique_keys (rows : table) : Prop :=
  forall r1 r2 k, In r1 rows -> In r2 rows ->
    idempotencyKey r1 = Some k -> idempotencyKey r2 = Some k ->
    id r1 = id r2.

End ServiceClaims.

Module RaceClaims.
Import Repository Async WebhooksService ServiceClaims.

(** Two deliveries of the same event in flight. *)
Definition duplicates : list (Async.t CreateResult) :=
  [ create payment (Some "sig") (Some "k1");
    create payment (Some "sig") (Some "k1") ].

(** Both look the key up before either saves. *)
Definition race : list nat := [0; 1; 0; 0; 1; 1].

(** A table that already holds the key. *)
Definition taken_world : World :=
  {| rows := [ {| id := "00000000-0000-4000-8000-1"; source := "stripe";
                  event := "payment.completed"; payload := Json.Obj [];
                  signature := None; idempotencyKey := Some "k1";
                  receivedAt := 3; status := pending |} ];
     steps := 7; uuid_at := sample_uuid; time_at := fun n => Z.of_nat n;
     tie_at := table_order |}.

End RaceClaims.

Module PageClaims.
Import Repository Async WebhooksService ServiceClaims.

(** Newest first. *)
Definition newer_first (a b : Webhook) : Prop :=
  (receivedAt b <= receivedAt a)%Z.

Definition dto_newer_first (a b : WebhookResponseDto) : Prop :=
  (r_receivedAt b <= r_receivedAt a)%Z.

Definition numbered (n : nat) : Webhook :=
  {| id := sample_uuid n; source := "stripe"; event := "payment.completed";
     payload := Json.Obj []; signature := None; idempotencyKey := None;
     receivedAt := Z.of_nat n; status := pending |}.

(** 25 records, stored oldest first. *)
Definition world25 : World :=
  {| rows := List.map numbered (seq 0 25); steps := 25;
     uuid_at := sample_uuid; time_at := fun n => Z.of_nat n;
     tie_at := longer_id_first |}.

Definition page_query (page limit : Z) (src ev : Js.maybe_string)
  : QueryWebhookDto :=
  {| q_page := Some page; q_limit := Some limit;
     q_source := src; q_event := ev |}.

(** The conditions [findAll] puts on the query for the given filters. *)
Definition selected (src ev : Js.maybe_string) (r : Webhook) : bool :=
  matches {| where_source := Js.or_null src; where_event := Js.or_null ev;
             orderBy_receivedAt := None; skip := None; take := None |} r.

(** The query that [findAll] hands to the repository. *)
Definition built_query (page limit : Z) (src ev : Js.maybe_string)
  : QueryBuilder :=
  {| where_source := Js.or_null src; where_event := Js.or_null ev;
     orderBy_receivedAt := Some DESC;
     skip := Some ((page - 1) * limit)%Z; take := Some limit |}.

End PageClaims.

(** ** Letter case and suffixes of signatures *)

Module SignatureTerms.

(** A digit or a letter from [a] to [f]. *)
Definition lower_hex_digit (c : ascii) : bool :=
  let n := N_of_ascii c in
  ((48 <=? n) && (n <=? 57))%N || ((97 <=? n) && (n <=? 102))%N.

Fixpoint all_chars (p : ascii -> bool) (s : string) : bool :=
  match s with
  | EmptyString => true
  | String c rest => p c && all_chars p rest
  end.

(** The letters [a] to [z] in upper case, or [A] to [Z] in lower case;
    every other character as it is. *)
Definition upper_ascii (u : N) : N :=
  if ((97 <=? u) && (u <=? 122))%N then (u - 32)%N else u.

Definition lower_ascii (u : N) : N :=
  if ((65 <=? u) && (u <=? 90))%N then (u + 32)%N else u.

(** The string begins with two hexadecimal digits. *)
Definition hex_pair_prefix (s : string) : bool :=
  match s with
  | String a (String b _) =>
      match Buffer.unhex a, Buffer.unhex b with
      | Some _, Some _ => true
      | _, _ => false
      end
  | _ => false
  end.

(** The string begins with two characters that [Buffer.from(s, 'hex')]
    reads as digits. *)
Definition digit_pair_prefix (t : Utf16.t) : bool :=
  hex_pair_prefix (Utf16.low_bytes t).

End SignatureTerms.

(** ** Reading pages one after the other *)

Module PagingTerms.
Import Repository Async WebhooksService ServiceClaims PageClaims.

(** The records of page [p] (from 1), as [findAll] returns them. *)
Definition page_data (w : World) (limit : Z) (src ev : Js.maybe_string)
    (p : nat) : list WebhookResponseDto :=
  match run (findAll (page_query (Z.of_nat p) limit src ev)) w with
  | (Fulfilled res, _, _) => data res
  | (Rejected _, _, _) => []
  end.

(** The primary key: no two rows bear the same [id]. *)
Definition unique_ids (rows : table) : Prop := NoDup (List.map id rows).

(** The world of the [p]-th read of an unchanged table: the step
    counter has moved on, and the database orders rows with equal
    [receivedAt] in its own way at each read. *)
Definition reread (w : World) (p : nat) : World :=
  {| rows := rows w; steps := steps w + p; uuid_at := uuid_at w;
     time_at := time_at w;
     tie_at := fun n r => (Z.of_nat n * Z.of_nat (String.length (id r)))%Z |}.

(** The world in which [create] draws its identifier: one step later
    when it first looks the key up. *)
Definition after_lookup (key : Js.maybe_string) (w : World) : World :=
  if Js.truthy key then next_world w (rows w) else w.

Definition not_found_message (i : string) : string :=
  "Webhook with ID " ++ String Json.dquote i ++ String Json.dquote " not found".

End PagingTerms.

(** ** The interceptor in front of the controller *)

Module PipelineTerms.
Import Repository Async WebhooksService IdempotencyInterceptor.

(** [next.handle()] for [POST /webhooks]: the controller's [create] run
    to completion; its value is what the observable emits, its rejection
    what the observable fails with. *)
Definition handle_create (dto : CreateWebhookDto)
    (signature idempotencyKey : Js.maybe_string)
  : CallHandler WebhooksController.CreateWebhookResponseDto Async.exception World :=
  fun w =>
    match run (WebhooksController.create dto signature idempotencyKey) w with
    | (Fulfilled resp, w', _) => (Emits resp, w')
    | (Rejected e, w', _) => (Fails e, w')
    end.

(** The cache of a process that has just started. *)
Definition cold_cache
  : gmap string (CachedResponse WebhooksController.CreateWebhookResponseDto) := ∅.

End PipelineTerms.

(** ** Exceptions on their way to the filter *)

Module FilterTerms.
Import HttpExceptionFilter.

(** [new ForbiddenException(msg)], [new NotFoundException(msg)]: for a
    message that is not empty, the exception carries the status of its
    class and a body whose [message] is [msg]. *)
Definition http_exception (status : Z) (msg : string) : thrown :=
  HttpException status (ResponseObject (MessageString msg) None) msg.

Definition of_guard (e : SignatureGuard.exception) : thrown :=
  match e with
  | SignatureGuard.ForbiddenException msg => http_exception 403 msg
  end.

(** A rejection of the service: [NotFoundException] is an
    [HttpException]; TypeORM's [QueryFailedError] is a plain [Error]
    whose message and stack are the driver's. *)
Definition of_service (e : Async.exception) (driver_message : string)
    (stack : Js.maybe_string) : thrown :=
  match e with
  | Async.NotFoundException msg => http_exception 404 msg
  | Async.QueryFailed _ => Error driver_message stack
  end.

(** The request as the filter sees it once [RequestIdMiddleware] has
    run. *)
Definition tagged (eff : RequestIdMiddleware.Effect) (url : string) : Request :=
  {| req_requestId := Some (RequestIdMiddleware.req_requestId eff);
     req_url := url |}.

End FilterTerms.

(** ** Bodies in the log *)

Module LogTerms.
Import LoggingInterceptor.

Definition sensitive (k : string) : bool :=
  existsb (String.eqb k) sensitiveFields.

Definition redacted : Json.value := Json.Str "[REDACTED]".

(** Two lists of members with the same names in the same order, and the
    same values except under sensitive names. *)
Definition same_but_secrets (m1 m2 : list (string * Json.value)) : Prop :=
  Forall2 (fun a b => a.1 = b.1 /\ (sensitive a.1 = false -> a.2 = b.2)) m1 m2.

(** A member as it is logged. *)
Definition redact_member (kv : string * Json.value) : string * Json.value :=
  if sensitive kv.1 then (kv.1, redacted) else kv.

Definition with_body (r : Request) (b : option Json.value) : Request :=
  {| method := method r; url := url r; body := b;
     requestId := requestId r; user_agent := user_agent r |}.

End LogTerms.

(* ===================================================================== *)
(** * Part II: properties                                                 *)
(* ===================================================================== *)

(** Known answers: FIPS 180-4 for "abc", RFC 4231 test case 2, and the
    signature of the unit tests' payload. *)
Example sha256_abc :
  Buffer.to_hex (List.map Buffer.byte_of_N
                   (Sha256.sha256 (Sha256.bytes_of_string "abc")))
  = "ba7816bf8f01cfea414140de5dae2223b00361a396177a9cb410ff61f20015ad".
Proof. vm_compute. reflexivity. Qed.

Example sha256_two_blocks :
  Buffer.to_hex (List.map Buffer.byte_of_N
                   (Sha256.sha256
                      (Sha256.bytes_of_string
                         "abcdbcdecdefdefgefghfghighijhijkijkljklmklmnlmnomnopnopq")))
  = "248d6a61d20638b8e5c026930c3e6039a33ce45964ff2167f6ecedd419db06c1".
Proof. vm_compute. reflexivity. Qed.

Example hmac_rfc4231_case2 :
  SignatureService.hmac_hex "Jefe" "what do ya want for nothing?"
  = "5bdcc146bf60754e6a042426089575c75a003f089d2739839dec58b964ec3843".
Proof. vm_compute. reflexivity. Qed.

Example generate_test_payload :
  SignatureService.generate test_service test_payload
  = "56c5bdb8991fef8b4380d2f7a1dcb00ce8800af268af6d5dc4b78e44b55107dd".
Proof. vm_compute. reflexivity. Qed.

(** ** Hexadecimal encoding *)

Section Hex.
Import Buffer.

Lemma unhex_lt c a : unhex c = Some a -> (a < 16)%N.
Proof.
  unfold unhex. intros H.
  repeat match type of H with
         | (if ?b then _ else _) = _ =>
             let E := fresh "E" in
             destruct b eqn:E;
             [apply andb_true_iff in E; rewrite !N.leb_le in E|clear E]
         end; inversion H; subst; clear H; lia.
Qed.

Lemma byte_of_N_to_N b : byte_of_N (Byte.to_N b) = b.
Proof. unfold byte_of_N. now rewrite Byte.of_to_N. Qed.

Lemma to_N_byte_of_N n : (n < 256)%N -> Byte.to_N (byte_of_N n) = n.
Proof.
  intros Hn. unfold byte_of_N.
  destruct (Byte.of_N n) as [b|] eqn:E.
  - now apply Byte.to_of_N.
  - apply Byte.of_N_None_iff in E. lia.
Qed.

Lemma unhex_hex_digit n : (n < 16)%N -> unhex (hex_digit n) = Some n.
Proof.
  intros Hn.
  assert (Hc : In n (List.map N.of_nat (seq 0 16))).
  { apply in_map_iff. exists (N.to_nat n). split; [lia|].
    apply in_seq. lia. }
  simpl in Hc.
  repeat (destruct Hc as [<- | Hc]; [reflexivity|]).
  destruct Hc.
Qed.

Lemma to_N_lt b : (Byte.to_N b < 256)%N.
Proof. pose proof (Byte.to_N_bounded b). lia. Qed.

Lemma from_hex_to_hex bs : from_hex (to_hex bs) = bs.
Proof.
  induction bs as [|b bs IH]; [reflexivity|].
  pose proof (to_N_lt b) as Hb.
  cbn [to_hex from_hex].
  rewrite !unhex_hex_digit.
  - rewrite IH. f_equal.
    rewrite <- (byte_of_N_to_N b) at 3. f_equal.
    pose proof (N.div_mod (Byte.to_N b) 16). lia.
  - apply N.mod_lt. lia.
  - apply N.Div0.div_lt_upper_bound. lia.
Qed.

Lemma length_to_hex bs : String.length (to_hex bs) = 2 * length bs.
Proof. induction bs as [|b bs IH]; cbn [to_hex String.length length]; lia. Qed.

(** Decoding consumes two characters per byte. *)
Lemma length_from_hex_pair s c :
  2 * length (from_hex s) <= String.length s
  /\ 2 * length (from_hex (String c s)) <= S (String.length s).
Proof.
  revert c. induction s as [|c1 s IH]; intros c.
  - cbn. lia.
  - destruct (IH c1) as [IH1 IH2]. split; [exact IH2|].
    cbn [from_hex String.length].
    destruct (unhex c), (unhex c1); cbn [length]; lia.
Qed.

Lemma length_from_hex s : 2 * length (from_hex s) <= String.length s.
Proof. destruct s as [|c s]; [cbn; lia|]. apply length_from_hex_pair. Qed.

End Hex.

(** ** SignatureService: generate and verify *)

Section Signature.
Import SignatureService Claims.

Lemma length_sha256 m : length (Sha256.sha256 m) = 32.
Proof. reflexivity. Qed.

Lemma length_hmac_sha256 k m : length (Sha256.hmac_sha256 k m) = 32.
Proof. apply length_sha256. Qed.

Lemma generate_to_hex svc payload :
  generate svc payload = Buffer.to_hex (digest svc payload).
Proof. reflexivity. Qed.

Lemma length_digest svc payload : length (digest svc payload) = 32.
Proof. unfold digest. rewrite length_map. apply length_hmac_sha256. Qed.

Lemma length_generate svc payload : String.length (generate svc payload) = 64.
Proof. rewrite generate_to_hex, length_to_hex, length_digest. reflexivity. Qed.

Lemma from_hex_generate svc payload :
  Buffer.from_hex (generate svc payload) = digest svc payload.
Proof. rewrite generate_to_hex. apply from_hex_to_hex. Qed.

Lemma truthy_generate svc payload : Js.truthy (Some (generate svc payload)) = true.
Proof.
  pose proof (length_generate svc payload) as H.
  destruct (generate svc payload); [discriminate H|reflexivity].
Qed.

(** The [try] block of [verify] completes normally, with the equality
    of the two decoded buffers: the length test shields
    [timingSafeEqual]. *)
Lemma compare_hex_normal s e :
  compare_hex s e = Normal (bool_decide (Buffer.from_hex s = Buffer.from_hex e)).
Proof.
  unfold compare_hex, timingSafeEqual.
  destruct (Nat.eqb (length (Buffer.from_hex s)) (length (Buffer.from_hex e))) eqn:E;
    cbn [negb]; [reflexivity|].
  apply Nat.eqb_neq in E.
  rewrite bool_decide_eq_false_2; [reflexivity|].
  intros Heq. apply E. now rewrite Heq.
Qed.

Lemma verify_some svc payload s :
  verify svc payload (Some s)
  = Js.truthy (Some s) && bool_decide (Buffer.from_hex s = digest svc payload).
Proof.
  unfold verify. rewrite compare_hex_normal, from_hex_generate.
  destruct (Js.truthy (Some s)); reflexivity.
Qed.

Lemma verify_false_of_decoded_neq svc payload s :
  Buffer.from_hex s <> digest svc payload -> verify svc payload (Some s) = false.
Proof.
  intros H. rewrite verify_some, bool_decide_eq_false_2 by exact H.
  apply andb_false_r.
Qed.

End Signature.

Section Flip.
Import Buffer Claims.

Lemma nibbles_of_byte b :
  unhex (hex_digit (Byte.to_N b / 16)) = Some (Byte.to_N b / 16)%N
  /\ unhex (hex_digit (Byte.to_N b mod 16)) = Some (Byte.to_N b mod 16)%N.
Proof.
  pose proof (to_N_lt b). split; apply unhex_hex_digit.
  - apply N.Div0.div_lt_upper_bound. lia.
  - apply N.mod_lt. lia.
Qed.

(** A byte determines its two nibbles. *)
Lemma byte_of_nibbles_inj a x b :
  (a < 16)%N -> (x < 16)%N -> byte_of_N (a * 16 + x) = b ->
  a = (Byte.to_N b / 16)%N /\ x = (Byte.to_N b mod 16)%N.
Proof.
  intros Ha Hx Hb.
  assert (Hn : Byte.to_N b = (a * 16 + x)%N).
  { rewrite <- Hb. apply to_N_byte_of_N. lia. }
  rewrite Hn. split.
  - rewrite N.div_add_l by lia. rewrite N.div_small by lia. lia.
  - rewrite N.add_comm, N.Div0.mod_add. now rewrite N.mod_small.
Qed.

(** Replacing one character of an encoded buffer by a character that
    does not denote the same digit changes what is decoded. *)
Lemma from_hex_replace_neq d : forall i c c0,
  String.get i (to_hex d) = Some c0 ->
  unhex c <> unhex c0 ->
  from_hex (replace_at i c (to_hex d)) <> d.
Proof.
  induction d as [|b d IH]; intros i c c0 Hget Hne.
  - destruct i; discriminate Hget.
  - destruct (nibbles_of_byte b) as [Hhi Hlo].
    cbn [to_hex] in *.
    destruct i as [|[|i]].
    + cbn in Hget. inversion Hget; subst c0; clear Hget.
      cbn [replace_at from_hex]. rewrite Hlo.
      destruct (unhex c) as [a|] eqn:Ec; [|discriminate].
      intros Heq. inversion Heq as [[Hb Hd]].
      apply byte_of_nibbles_inj in Hb as [Ha _].
      * apply Hne. now rewrite Hhi, Ha.
      * now apply unhex_lt in Ec.
      * pose proof (to_N_lt b). apply N.mod_lt. lia.
    + cbn in Hget. inversion Hget; subst c0; clear Hget.
      cbn [replace_at from_hex]. rewrite Hhi.
      destruct (unhex c) as [x|] eqn:Ec; [|discriminate].
      intros Heq. inversion Heq as [[Hb Hd]].
      apply byte_of_nibbles_inj in Hb as [_ Hx].
      * apply Hne. now rewrite Hlo, Hx.
      * pose proof (to_N_lt b). apply N.Div0.div_lt_upper_bound. lia.
      * now apply unhex_lt in Ec.
    + cbn in Hget. cbn [replace_at from_hex]. rewrite Hhi, Hlo.
      intros Heq. inversion Heq as [[Hb Hd]].
      exact (IH i c c0 Hget Hne Hd).
Qed.

(** A character that is not a digit among the first [2 * n] cuts the
    decoded buffer below [n] bytes. *)
Lemma from_hex_non_digit_pair s : forall i c x,
  (String.get i s = Some c -> unhex c = None -> 2 * length (from_hex s) <= i)
  /\ (String.get i (String x s) = Some c -> unhex c = None ->
      2 * length (from_hex (String x s)) <= i).
Proof.
  induction s as [|c1 s IH]; intros i c x.
  - split; [destruct i; discriminate|].
    intros Hget Hnone. cbn. lia.
  - destruct (IH i c c1) as [IH1 IH2]. split; [exact IH2|].
    intros Hget Hnone. cbn [from_hex].
    destruct i as [|[|i]].
    + cbn in Hget. inversion Hget; subst. rewrite Hnone. cbn. lia.
    + cbn in Hget. inversion Hget; subst. rewrite Hnone.
      destruct (unhex x); cbn; lia.
    + destruct (unhex x), (unhex c1); cbn [length]; try lia.
      cbn in Hget.
      destruct (IH i c c1) as [IH3 _].
      specialize (IH3 Hget Hnone). lia.
Qed.

Lemma from_hex_non_digit s i c :
  String.get i s = Some c -> unhex c = None ->
  2 * length (from_hex s) <= i.
Proof.
  destruct s as [|x s]; [destruct i; discriminate|].
  apply from_hex_non_digit_pair.
Qed.

End Flip.

(** ** Signatures of any characters *)

Section Units.
Import Buffer Claims SignatureService.

Lemma low_byte_of_ascii c : Utf16.low_byte (N_of_ascii c) = c.
Proof.
  unfold Utf16.low_byte.
  rewrite N.mod_small by apply N_ascii_bounded.
  apply ascii_N_embedding.
Qed.

Lemma of_latin1_cons c s :
  Utf16.of_latin1 (String c s) = N_of_ascii c :: Utf16.of_latin1 s.
Proof. reflexivity. Qed.

Lemma low_bytes_cons u s :
  Utf16.low_bytes (u :: s) = String (Utf16.low_byte u) (Utf16.low_bytes s).
Proof. reflexivity. Qed.

Lemma low_bytes_of_latin1 s : Utf16.low_bytes (Utf16.of_latin1 s) = s.
Proof.
  induction s as [|c s IH]; [reflexivity|].
  now rewrite of_latin1_cons, low_bytes_cons, low_byte_of_ascii, IH.
Qed.

Lemma low_bytes_app (s t : Utf16.t) :
  Utf16.low_bytes (s ++ t)%list = Utf16.low_bytes s ++ Utf16.low_bytes t.
Proof.
  induction s as [|u s IH]; [reflexivity|].
  cbn [app]. rewrite !low_bytes_cons, IH. reflexivity.
Qed.

Lemma lookup_of_latin1 s : forall i,
  Utf16.of_latin1 s !! i = option_map N_of_ascii (String.get i s).
Proof.
  induction s as [|c s IH]; intros [|i]; try reflexivity.
  rewrite of_latin1_cons. cbn [String.get]. apply IH.
Qed.

Lemma low_bytes_insert u s : forall i,
  Utf16.low_bytes (<[i := u]> (Utf16.of_latin1 s))
  = replace_at i (Utf16.low_byte u) s.
Proof.
  induction s as [|c s IH]; intros [|i]; try reflexivity.
  - rewrite of_latin1_cons. cbn [replace_at].
    change (<[0 := u]> (N_of_ascii c :: Utf16.of_latin1 s))
      with (u :: Utf16.of_latin1 s).
    now rewrite low_bytes_cons, low_bytes_of_latin1.
  - rewrite of_latin1_cons. cbn [replace_at].
    change (<[S i := u]> (N_of_ascii c :: Utf16.of_latin1 s))
      with (N_of_ascii c :: <[i := u]> (Utf16.of_latin1 s)).
    now rewrite low_bytes_cons, low_byte_of_ascii, IH.
Qed.

(** What is decoded depends on the digits the characters are read as,
    and on nothing else. *)
Lemma from_hex_ext_pair s1 :
  (forall s2,
      List.map unhex (list_ascii_of_string s1)
      = List.map unhex (list_ascii_of_string s2) ->
      from_hex s1 = from_hex s2)
  /\ (forall c s2,
         List.map unhex (list_ascii_of_string (String c s1))
         = List.map unhex (list_ascii_of_string s2) ->
         from_hex (String c s1) = from_hex s2).
Proof.
  induction s1 as [|c1 s1 [IH1 IH2]].
  - split.
    + intros [|c' s2] H; [reflexivity|discriminate H].
    + intros c [|c' [|c'' s2]] H; try discriminate H. reflexivity.
  - split; [intros s2; apply (IH2 c1)|].
    intros c [|c' [|c1' s2]] H; try discriminate H.
    cbn [list_ascii_of_string List.map] in H.
    injection H as Hc Hc1 Hrest.
    cbn [from_hex]. rewrite Hc, Hc1.
    destruct (unhex c'), (unhex c1'); try reflexivity.
    f_equal. now apply IH1.
Qed.

Lemma from_hex_ext s1 s2 :
  List.map unhex (list_ascii_of_string s1)
  = List.map unhex (list_ascii_of_string s2) ->
  from_hex s1 = from_hex s2.
Proof. apply from_hex_ext_pair. Qed.

Lemma from_hex_replace_same s : forall i c c0,
  String.get i s = Some c0 -> unhex c = unhex c0 ->
  from_hex (replace_at i c s) = from_hex s.
Proof.
  intros i c c0 Hget Heq. apply from_hex_ext.
  revert i Hget. induction s as [|x s IH]; intros [|i] Hget;
    try discriminate Hget; cbn [replace_at list_ascii_of_string List.map].
  - cbn in Hget. injection Hget as ->. now rewrite Heq.
  - f_equal. apply IH. exact Hget.
Qed.

Lemma units_map_ext (f : N -> N) :
  (forall u, digit_of (f u) = digit_of u) ->
  forall s, Utf16.from_hex (List.map f s) = Utf16.from_hex s.
Proof.
  intros Hf s. apply from_hex_ext. unfold Utf16.low_bytes.
  rewrite !list_ascii_of_string_of_list_ascii.
  induction s as [|u s IH]; [reflexivity|].
  cbn [List.map]. f_equal; [apply Hf|exact IH].
Qed.

Lemma compare_units_normal s e :
  SignatureServiceJs.compare_hex s e
  = Normal (bool_decide (Utf16.from_hex s = Buffer.from_hex e)).
Proof. apply (compare_hex_normal (Utf16.low_bytes s) e). Qed.

Lemma verify_units_some svc payload s :
  SignatureServiceJs.verify svc (Some payload) (Some s)
  = SignatureServiceJs.Returns
      (Utf16.truthy (Some s)
       && bool_decide (Utf16.from_hex s = digest svc payload)).
Proof.
  unfold SignatureServiceJs.verify, SignatureServiceJs.generate.
  rewrite compare_units_normal, from_hex_generate.
  destruct (Utf16.truthy (Some s)); reflexivity.
Qed.

(** On a string payload and a signature below U+0100, the two models of
    [verify] agree. *)
Lemma verify_latin1 svc payload signature :
  SignatureServiceJs.verify svc (Some payload)
    (option_map Utf16.of_latin1 signature)
  = SignatureServiceJs.Returns (verify svc payload signature).
Proof.
  destruct signature as [s|]; [|reflexivity].
  cbn [option_map]. rewrite verify_units_some, verify_some.
  unfold Utf16.from_hex. rewrite low_bytes_of_latin1.
  destruct s; reflexivity.
Qed.

Lemma truthy_units s : Utf16.truthy (Some s) = true <-> s <> [].
Proof. destruct s; cbn; split; congruence. Qed.

End Units.

(** ** C4 and C5: what [verify] accepts *)

Section VerifyClaims.
Import SignatureService Claims.

(** C4, as stated, fails: [Buffer.from(s, 'hex')] reads both letter cases,
    so turning the [c] at index 2 of the signature of the unit tests'
    payload into [C] gives a different string that [verify] accepts. *)
Lemma C4_counterexample_case_flip :
  let s := generate test_service test_payload in
  String.get 2 s = Some "c"%char
  /\ "C"%char <> "c"%char
  /\ verify test_service test_payload
       (Some (replace_at 2 "C"%char s)) = true.
Proof.
  cbv zeta. split; [vm_compute; reflexivity|].
  split; [discriminate|vm_compute; reflexivity].
Qed.

(** C4 (amended): for every secret and payload, [verify] accepts the
    signature that [generate] produces; and of the string obtained from
    it by putting any character in the place of one of its characters,
    [verify] returns [true] when [Buffer.from(s, 'hex')] reads the new
    character as the same hexadecimal digit as the one it replaces, and
    [false] when it reads it as another digit or as no digit.  (It reads
    a character by the low byte of its code unit, in either letter
    case.) *)
Theorem C4_verify_generate_roundtrip svc payload :
  let s := Utf16.of_latin1 (generate svc payload) in
  SignatureServiceJs.verify svc (Some payload) (Some s)
  = SignatureServiceJs.Returns true
  /\ forall i u u0,
       s !! i = Some u0 ->
       SignatureServiceJs.verify svc (Some payload) (Some (<[i := u]> s))
       = SignatureServiceJs.Returns (bool_decide (digit_of u = digit_of u0)).
Proof.
  cbv zeta. split.
  - etransitivity;
      [exact (verify_latin1 svc payload (Some (generate svc payload)))|].
    rewrite verify_some, truthy_generate, from_hex_generate.
    now rewrite bool_decide_eq_true_2.
  - intros i u u0 Hget.
    rewrite lookup_of_latin1 in Hget.
    destruct (String.get i (generate svc payload)) as [c0|] eqn:Hc0;
      [|discriminate Hget].
    cbn [option_map] in Hget. injection Hget as <-.
    rewrite verify_units_some.
    assert (Ht : Utf16.truthy
                   (Some (<[i := u]> (Utf16.of_latin1 (generate svc payload))))
                 = true).
    { pose proof (truthy_generate svc payload) as H.
      destruct (generate svc payload) as [|x g]; [discriminate H|].
      destruct i; reflexivity. }
    rewrite Ht. cbn [andb]. f_equal.
    unfold Utf16.from_hex, digit_of.
    rewrite low_bytes_insert, low_byte_of_ascii.
    destruct (bool_decide (Buffer.unhex (Utf16.low_byte u) = Buffer.unhex c0))
      eqn:E.
    + apply bool_decide_eq_true_1 in E.
      apply bool_decide_eq_true_2.
      rewrite (from_hex_replace_same _ i _ c0 Hc0 E).
      apply from_hex_generate.
    + apply bool_decide_eq_false_1 in E.
      apply bool_decide_eq_false_2.
      rewrite generate_to_hex in *.
      now apply from_hex_replace_neq with (c0 := c0).
Qed.

Lemma C4_verify_generate_roundtrip_witness :
  (test_signature !! 1 = Some 54%N
   /\ SignatureServiceJs.verify test_service (Some test_payload)
        (Some (<[1 := K_cedilla]> test_signature))
      = SignatureServiceJs.Returns (bool_decide (digit_of K_cedilla = digit_of 54))
   /\ bool_decide (digit_of K_cedilla = digit_of 54) = true)
  /\ (test_signature !! 0 = Some 53%N
      /\ SignatureServiceJs.verify test_service (Some test_payload)
           (Some (<[0 := 54%N]> test_signature))
         = SignatureServiceJs.Returns (bool_decide (digit_of 54 = digit_of 53))
      /\ bool_decide (digit_of 54 = digit_of 53) = false).
Proof.
  assert (H1 : test_signature !! 1 = Some 54%N) by (vm_compute; reflexivity).
  assert (H0 : test_signature !! 0 = Some 53%N) by (vm_compute; reflexivity).
  destruct (C4_verify_generate_roundtrip test_service test_payload) as [_ H2].
  split.
  - split; [exact H1|]. split; [|vm_compute; reflexivity].
    exact (H2 1 K_cedilla 54%N H1).
  - split; [exact H0|]. split; [|vm_compute; reflexivity].
    exact (H2 0 54%N 53%N H0).
Defined.

(** C5, as stated, fails twice.  A string that is not valid hexadecimal
    is accepted when its first 64 characters are the expected digest,
    because decoding stops silently at the first pair that is not
    hexadecimal; and a payload that is [undefined] makes [verify] raise,
    because [generate] is called before the [try] block. *)
Lemma C5_counterexample_garbage_and_absent_payload :
  let s := generate test_service test_payload ++ "zz" in
  valid_hex s = false
  /\ verify test_service test_payload (Some s) = true
  /\ SignatureServiceJs.verify test_service (Some test_payload)
       (Some (Utf16.of_latin1 s)) = SignatureServiceJs.Returns true
  /\ SignatureServiceJs.verify test_service None (Some (Utf16.of_latin1 "abc123"))
     = SignatureServiceJs.Raises
         (SignatureServiceJs.TypeError "ERR_INVALID_ARG_TYPE").
Proof. cbv zeta. repeat split; vm_compute; reflexivity. Qed.

(** C5 (amended): for every secret, every payload that is a string and
    every signature (a string of any characters, [null] or [undefined])
    [verify] returns a boolean and raises nothing, and the comparison in
    its [try] block completes normally, so the [catch] is never needed.
    It returns [false] for a signature that is absent or empty, whatever
    the payload; for a signature that [Buffer.from(s, 'hex')] decodes to
    a number of bytes other than 32, hence for one with a character not
    read as a hexadecimal digit among its first 64, and for one shorter
    than 64 characters.  It returns [true] exactly when the signature is
    not empty and decodes to the 32 bytes of the expected digest.  When
    the payload is [null] or [undefined] and the signature is not empty,
    [verify] raises a [TypeError]. *)
Theorem C5_verify_never_throws_false_on_malformed svc payload :
  (forall s, exists b,
      SignatureServiceJs.verify svc (Some payload) s
      = SignatureServiceJs.Returns b)
  /\ (forall s, exists b,
         SignatureServiceJs.compare_hex s (generate svc payload) = Normal b)
  /\ (forall p, SignatureServiceJs.verify svc p None
                = SignatureServiceJs.Returns false
                /\ SignatureServiceJs.verify svc p (Some [])
                   = SignatureServiceJs.Returns false)
  /\ (forall s, length (Utf16.from_hex s) <> 32 ->
                SignatureServiceJs.verify svc (Some payload) (Some s)
                = SignatureServiceJs.Returns false)
  /\ (forall s i u, s !! i = Some u -> digit_of u = None -> i < 64 ->
                    SignatureServiceJs.verify svc (Some payload) (Some s)
                    = SignatureServiceJs.Returns false)
  /\ (forall s, length s < 64 ->
                SignatureServiceJs.verify svc (Some payload) (Some s)
                = SignatureServiceJs.Returns false)
  /\ (forall s, SignatureServiceJs.verify svc (Some payload) (Some s)
                = SignatureServiceJs.Returns true
                <-> s <> [] /\ Utf16.from_hex s = digest svc payload)
  /\ (forall s, s <> [] ->
                SignatureServiceJs.verify svc None (Some s)
                = SignatureServiceJs.Raises
                    (SignatureServiceJs.TypeError "ERR_INVALID_ARG_TYPE")).
Proof.
  assert (Hlen : forall s, length (Utf16.from_hex s) <> 32 ->
                           SignatureServiceJs.verify svc (Some payload) (Some s)
                           = SignatureServiceJs.Returns false).
  { intros s Hs. rewrite verify_units_some.
    rewrite bool_decide_eq_false_2; [now rewrite andb_false_r|].
    intros Heq. apply Hs. rewrite Heq. apply length_digest. }
  assert (Hunits : forall s, String.length (Utf16.low_bytes s) = length s).
  { induction s as [|u s IH]; [reflexivity|].
    rewrite low_bytes_cons. cbn [String.length length]. now rewrite IH. }
  assert (Hget : forall s i u, s !! i = Some u ->
                   String.get i (Utf16.low_bytes s) = Some (Utf16.low_byte u)).
  { induction s as [|x s IH]; intros [|i] u H; try discriminate H.
    - cbn in H. injection H as ->. reflexivity.
    - rewrite low_bytes_cons. cbn [String.get]. apply IH. exact H. }
  split; [|split; [|split; [|split; [|split; [|split; [|split]]]]]].
  - intros [s|]; [|eexists; reflexivity].
    eexists. apply verify_units_some.
  - intros s. eexists. apply compare_units_normal.
  - intros p. split; reflexivity.
  - exact Hlen.
  - intros s i u Hi Hnone Hlt. apply Hlen. unfold Utf16.from_hex.
    pose proof (from_hex_non_digit _ i _ (Hget s i u Hi) Hnone). lia.
  - intros s Hs. apply Hlen. unfold Utf16.from_hex.
    pose proof (length_from_hex (Utf16.low_bytes s)) as H.
    rewrite Hunits in H. lia.
  - intros s. rewrite verify_units_some. split.
    + intros H. injection H as H. apply andb_true_iff in H as [Ht Hd].
      split; [now apply truthy_units|now apply bool_decide_eq_true_1 in Hd].
    + intros [Hne Hd]. apply truthy_units in Hne. rewrite Hne.
      now rewrite bool_decide_eq_true_2.
  - intros [|u s] Hne; [congruence|reflexivity].
Qed.

Lemma C5_verify_never_throws_false_on_malformed_witness :
  SignatureServiceJs.verify test_service (Some test_payload)
    (Some (Utf16.of_latin1 "abc123")) = SignatureServiceJs.Returns false
  /\ SignatureServiceJs.verify test_service (Some test_payload)
       (Some (Utf16.of_latin1 "invalid-signature-that-is-not-valid-hex"))
     = SignatureServiceJs.Returns false
  /\ SignatureServiceJs.verify test_service None
       (Some (Utf16.of_latin1 "abc123"))
     = SignatureServiceJs.Raises
         (SignatureServiceJs.TypeError "ERR_INVALID_ARG_TYPE").
Proof.
  destruct (C5_verify_never_throws_false_on_malformed test_service test_payload)
    as (_ & _ & _ & Hlen & Hdigit & _ & _ & Hraise).
  split; [|split].
  - apply Hlen. vm_compute. discriminate.
  - apply (Hdigit _ 0 105%N); [reflexivity|reflexivity|lia].
  - apply Hraise. discriminate.
Defined.

End VerifyClaims.

(** The cases of the service's unit tests. *)
Example verify_unit_tests :
  SignatureService.verify test_service test_payload
    (Some (SignatureService.generate test_service test_payload)) = true
  /\ SignatureService.verify test_service test_payload
       (Some "invalid-signature-that-is-not-valid-hex") = false
  /\ SignatureService.verify test_service
       ("{" ++ dq ++ "tampered" ++ dq ++ ":" ++ dq ++ "data" ++ dq ++ "}")
       (Some (SignatureService.generate test_service
                ("{" ++ dq ++ "original" ++ dq ++ ":" ++ dq ++ "data" ++ dq ++ "}")))
     = false
  /\ SignatureService.verify test_service test_payload (Some EmptyString) = false
  /\ SignatureService.verify test_service test_payload None = false
  /\ SignatureService.verify test_service test_payload (Some "abc123") = false
  /\ SignatureService.verifyWithSecret test_payload
       (Some (SignatureService.hmac_hex "my-custom-secret" test_payload))
       (Some "my-custom-secret") = true
  /\ SignatureService.verifyWithSecret test_payload
       (Some (SignatureService.hmac_hex "correct-secret" test_payload))
       (Some "wrong-secret") = false
  /\ SignatureService.verifyWithSecret test_payload (Some "some-signature")
       (Some EmptyString) = false
  /\ SignatureService.verifyWithSecret test_payload (Some "some-signature") None
     = false.
Proof. vm_compute. repeat split; reflexivity. Qed.

(** ** C3: SignatureGuard *)

Section SignatureGuardClaims.
Import SignatureGuard GateClaims.

Lemma includes_mutating m :
  Js.includes Js.mutating_methods m = true <-> mutating m.
Proof.
  unfold Js.includes, Js.mutating_methods, mutating. cbn [existsb].
  rewrite !orb_true_iff, !String.eqb_eq. intuition discriminate.
Qed.

Lemma includes_not_mutating m :
  Js.includes Js.mutating_methods m = false <-> ~ mutating m.
Proof.
  rewrite <- includes_mutating.
  destruct (Js.includes Js.mutating_methods m); intuition congruence.
Qed.

Lemma truthy_false_iff s :
  Js.truthy s = false <-> s = None \/ s = Some EmptyString.
Proof.
  destruct s as [[|c s]|]; cbn; intuition congruence.
Qed.

(** C3, as stated, fails on a signature header that is present and empty:
    the header is not absent and does not verify, so the stated procedure
    denies with "invalid signature", whereas the guard denies with
    "signature required". *)
Lemma C3_counterexample_empty_header :
  x_webhook_signature empty_signature_post <> None
  /\ SignatureGate_spec Json.stringify test_service false empty_signature_post
     = invalid
  /\ canActivate Json.stringify test_service None empty_signature_post
     = required.
Proof. split; [discriminate|]. split; reflexivity. Qed.

(** C3 (amended): the guard admits a route carrying the skip-signature
    annotation; else admits a method other than POST, PUT and PATCH
    without looking at the signature; else denies with "Webhook signature
    is required" when the signature header is absent or empty; else
    verifies the header against [JSON.stringify] of the parsed body,
    denying with "Invalid webhook signature" on mismatch and admitting
    otherwise.  The transmitted bytes play no part in the decision. *)
Theorem C3_signature_guard_decision {Body : Type}
    (JSON_stringify : Body -> string) (svc : SignatureService.t)
    (skip : option bool) (request : Request Body) :
  (skip = Some true -> canActivate JSON_stringify svc skip request = Activated)
  /\ (skip <> Some true -> ~ mutating (method request) ->
      canActivate JSON_stringify svc skip request = Activated)
  /\ (skip <> Some true -> mutating (method request) ->
      x_webhook_signature request = None
      \/ x_webhook_signature request = Some EmptyString ->
      canActivate JSON_stringify svc skip request = required)
  /\ (forall s, skip <> Some true -> mutating (method request) ->
      x_webhook_signature request = Some s -> s <> EmptyString ->
      canActivate JSON_stringify svc skip request
      = if SignatureService.verify svc (JSON_stringify (body request)) (Some s)
        then Activated else invalid)
  /\ (forall raw',
      canActivate JSON_stringify svc skip (with_raw request raw')
      = canActivate JSON_stringify svc skip request).
Proof.
  assert (Hskip : skip <> Some true -> metadata_set skip = false).
  { destruct skip as [[|]|]; [congruence|reflexivity|reflexivity]. }
  unfold canActivate.
  split; [|split; [|split; [|split]]].
  - intros ->. reflexivity.
  - intros Hs Hm. rewrite (Hskip Hs).
    apply includes_not_mutating in Hm. now rewrite Hm.
  - intros Hs Hm Hsig. rewrite (Hskip Hs).
    apply includes_mutating in Hm. rewrite Hm. cbn [negb].
    apply truthy_false_iff in Hsig. now rewrite Hsig.
  - intros s Hs Hm Hsig Hne. rewrite (Hskip Hs).
    apply includes_mutating in Hm. rewrite Hm. cbn [negb].
    rewrite Hsig.
    assert (Ht : Js.truthy (Some s) = true) by (destruct s; [congruence|reflexivity]).
    rewrite Ht. cbn [negb].
    destruct (SignatureService.verify svc (JSON_stringify (body request)) (Some s));
      reflexivity.
  - intros raw'. reflexivity.
Qed.

Lemma C3_signature_guard_decision_witness :
  canActivate Json.stringify test_service (Some true) empty_signature_post
  = Activated
  /\ canActivate Json.stringify test_service None
       {| method := "GET"; x_webhook_signature := None;
          body := Json.Obj []; raw := EmptyString |} = Activated
  /\ canActivate Json.stringify test_service None empty_signature_post = required
  /\ canActivate Json.stringify test_service (Some false) spaced_post
     = (if SignatureService.verify test_service
             (Json.stringify (body spaced_post))
             (Some (SignatureService.generate test_service spaced_raw))
        then Activated else invalid).
Proof.
  split; [|split; [|split]].
  - destruct (C3_signature_guard_decision Json.stringify test_service
                (Some true) empty_signature_post) as (H & _).
    apply H. reflexivity.
  - destruct (C3_signature_guard_decision Json.stringify test_service None
                {| method := "GET"; x_webhook_signature := None;
                   body := Json.Obj []; raw := EmptyString |})
      as (_ & H & _).
    apply H; [discriminate|].
    unfold mutating. cbn. intuition discriminate.
  - destruct (C3_signature_guard_decision Json.stringify test_service None
                empty_signature_post) as (_ & _ & H & _).
    apply H; [discriminate|left; reflexivity|right; reflexivity].
  - destruct (C3_signature_guard_decision Json.stringify test_service
                (Some false) spaced_post) as (_ & _ & _ & H & _).
    apply H; [discriminate|left; reflexivity|reflexivity|].
    vm_compute. discriminate.
Defined.

(** The signature is checked against the re-serialized body: a body
    signed over the bytes that were sent, which differ from
    [JSON.stringify] of what they parse to, is denied; signed over the
    re-serialization it is admitted. *)
Example reserialized_body_is_what_is_verified :
  Json.stringify (body spaced_post) <> raw spaced_post
  /\ SignatureService.verify test_service (raw spaced_post)
       (x_webhook_signature spaced_post) = true
  /\ canActivate Json.stringify test_service None spaced_post = invalid
  /\ canActivate Json.stringify test_service None
       {| method := "POST";
          x_webhook_signature :=
            Some (SignatureService.generate test_service
                    (Json.stringify (body spaced_post)));
          body := body spaced_post;
          raw := spaced_raw |} = Activated.
Proof.
  split; [vm_compute; discriminate|].
  split; [vm_compute; reflexivity|].
  split; vm_compute; reflexivity.
Qed.

End SignatureGuardClaims.

(** ** C6: ApiKeyGuard *)

Section ApiKeyGuardClaims.
Import ApiKeyGuard.

(** C6: a public route is admitted whatever the credential; otherwise an
    absent credential is denied with "credential required", a credential
    different from the configured value is denied with "invalid
    credential", and the configured value is admitted. *)
Theorem C6_credential_gate_policy (configured : string) (isPublic : bool)
    (credential : Js.maybe_string) :
  (isPublic = true -> canActivate configured isPublic credential = Admit)
  /\ (isPublic = false -> credential = None ->
      canActivate configured isPublic credential = Deny "credential required")
  /\ (forall c, isPublic = false -> credential = Some c -> c <> configured ->
      canActivate configured isPublic credential = Deny "invalid credential")
  /\ (isPublic = false -> credential = Some configured ->
      canActivate configured isPublic credential = Admit).
Proof.
  unfold canActivate.
  split; [|split; [|split]].
  - intros ->. reflexivity.
  - intros -> ->. reflexivity.
  - intros c -> -> Hne.
    destruct (String.eqb_spec c configured); [contradiction|reflexivity].
  - intros -> ->. now rewrite String.eqb_refl.
Qed.

Lemma C6_credential_gate_policy_witness :
  canActivate "valid-api-key-12345" true None = Admit
  /\ canActivate "valid-api-key-12345" false None = Deny "credential required"
  /\ canActivate "valid-api-key-12345" false (Some "invalid-api-key")
     = Deny "invalid credential"
  /\ canActivate "valid-api-key-12345" false (Some "valid-api-key-12345") = Admit.
Proof.
  split; [|split; [|split]].
  - destruct (C6_credential_gate_policy "valid-api-key-12345" true None)
      as (H & _).
    apply H. reflexivity.
  - destruct (C6_credential_gate_policy "valid-api-key-12345" false None)
      as (_ & H & _).
    apply H; reflexivity.
  - destruct (C6_credential_gate_policy "valid-api-key-12345" false
                (Some "invalid-api-key")) as (_ & _ & H & _).
    apply (H "invalid-api-key"); [reflexivity|reflexivity|discriminate].
  - destruct (C6_credential_gate_policy "valid-api-key-12345" false
                (Some "valid-api-key-12345")) as (_ & _ & _ & H).
    apply H; reflexivity.
Defined.

(** The guard's unit tests, with the spec's reasons for the messages:
    valid key, invalid key, missing key, public route without a key, empty
    key. *)
Example api_key_unit_tests :
  canActivate "valid-api-key-12345" false (Some "valid-api-key-12345") = Admit
  /\ canActivate "valid-api-key-12345" false (Some "invalid-api-key")
     = Deny "invalid credential"
  /\ canActivate "valid-api-key-12345" false None = Deny "credential required"
  /\ canActivate "valid-api-key-12345" true None = Admit
  /\ canActivate "valid-api-key-12345" false (Some EmptyString) <> Admit.
Proof. repeat split; discriminate. Qed.

End ApiKeyGuardClaims.

(** ** C7 and C10: IdempotencyInterceptor *)

Section InterceptorClaims.
Import IdempotencyInterceptor GateClaims CacheClaims.
Context {Data Err W : Type}.
Implicit Types (cache : gmap string (CachedResponse Data))
               (next : CallHandler Data Err W).

Lemma lookup_cleanExpiredEntries cache now k (e : CachedResponse Data) :
  cleanExpiredEntries now cache !! k = Some e
  <-> cache !! k = Some e /\ (now - timestamp e <= TTL)%Z.
Proof.
  unfold cleanExpiredEntries. rewrite map_lookup_filter_Some.
  unfold expired. cbn. split; intros [H1 H2]; (split; [exact H1|lia]).
Qed.

Lemma lookup_cleanExpiredEntries_None cache now k :
  cache !! k = None -> cleanExpiredEntries now cache !! k = None.
Proof.
  intros H. unfold cleanExpiredEntries.
  apply map_lookup_filter_None. left. exact H.
Qed.

(** The interceptor on a mutating request with a non-empty key. *)
Lemma intercept_keyed cache request next now later w key :
  mutating (method request) ->
  x_idempotency_key request = Some key -> key <> EmptyString ->
  intercept cache request next now later w
  = let cache1 := cleanExpiredEntries now cache in
    match cache1 !! key with
    | Some cached => (Emits (data cached), cache1, w)
    | None =>
        match next w with
        | (Emits d, w') =>
            (Emits d, <[key := {| data := d; timestamp := later |}]> cache1, w')
        | (Fails e, w') => (Fails e, cache1, w')
        end
    end.
Proof.
  intros Hm Hk Hne. unfold intercept.
  apply includes_mutating in Hm. rewrite Hm, Hk. cbn [negb].
  assert (Ht : Js.truthy (Some key) = true) by (destruct key; [congruence|reflexivity]).
  rewrite Ht. cbn [negb]. cbv zeta.
  destruct (cleanExpiredEntries now cache !! key); [reflexivity|].
  destruct (next w) as [[d|e] w']; reflexivity.
Qed.



(** C10: when the handler of a mutating request with a non-empty key
    fails, the error is passed on and the interceptor stores nothing: the
    cache is the swept cache, without an entry for the key, and a retry
    with the same key runs the handler again. *)
Theorem C10_failed_handler_is_not_cached cache request next now later w key e w' :
  mutating (method request) ->
  x_idempotency_key request = Some key -> key <> EmptyString ->
  cleanExpiredEntries now cache !! key = None ->
  next w = (Fails e, w') ->
  intercept cache request next now later w
  = (Fails e, cleanExpiredEntries now cache, w')
  /\ snd (fst (intercept cache request next now later w)) !! key = None
  /\ forall next2 now2 later2,
       let cache' := snd (fst (intercept cache request next now later w)) in
       fst (fst (intercept cache' request next2 now2 later2 w')) = fst (next2 w')
       /\ snd (intercept cache' request next2 now2 later2 w') = snd (next2 w').
Proof.
  intros Hm Hk Hne Hmiss Hfail.
  assert (Hi : intercept cache request next now later w
               = (Fails e, cleanExpiredEntries now cache, w')).
  { rewrite (intercept_keyed cache request next now later w key Hm Hk Hne).
    cbv zeta. now rewrite Hmiss, Hfail. }
  rewrite Hi. cbn [fst snd].
  split; [reflexivity|]. split; [exact Hmiss|].
  intros next2 now2 later2. cbv zeta.
  rewrite (intercept_keyed _ request next2 now2 later2 w' key Hm Hk Hne).
  cbv zeta.
  rewrite (lookup_cleanExpiredEntries_None _ now2 key Hmiss).
  destruct (next2 w') as [[d|e2] w'']; split; reflexivity.
Qed.

End InterceptorClaims.

Section InterceptorWitnesses.
Import IdempotencyInterceptor GateClaims CacheClaims.


Lemma C10_failed_handler_is_not_cached_witness :
  intercept sample_cache (post (Some "k2")) failing_handler sample_now sample_now 0
  = (Fails "QueryFailedError", cleanExpiredEntries sample_now sample_cache, 1)
  /\ fst (fst (intercept (cleanExpiredEntries sample_now sample_cache)
                 (post (Some "k2")) sample_handler sample_now sample_now 1))
     = Emits "id-2".
Proof.
  destruct (C10_failed_handler_is_not_cached sample_cache (post (Some "k2"))
              failing_handler sample_now sample_now 0 "k2" "QueryFailedError" 1)
    as (H1 & H2 & H3).
  - left. reflexivity.
  - reflexivity.
  - discriminate.
  - vm_compute. reflexivity.
  - reflexivity.
  - split; [exact H1|].
    specialize (H3 sample_handler sample_now sample_now). cbv zeta in H3.
    rewrite H1 in H3. cbn [fst snd] in H3. apply H3.
Defined.

End InterceptorWitnesses.

(** ** The repository *)

Section RepositoryFacts.
Import Repository.

Lemma violates_unique_false_of_no_key d k rows :
  d_idempotencyKey d = Some k ->
  findOneByKey k rows = None ->
  violates_unique d rows = false.
Proof.
  intros Hk Hnone. unfold violates_unique. rewrite Hk.
  unfold findOneByKey in Hnone.
  induction rows as [|x rows IH]; [reflexivity|].
  cbn in Hnone |- *. destruct (has_key k x); [discriminate|].
  cbn. now apply IH.
Qed.

Lemma violates_unique_null d rows :
  d_idempotencyKey d = None -> violates_unique d rows = false.
Proof. intros H. unfold violates_unique. now rewrite H. Qed.

Lemma find_key_after_insert k r rows :
  findOneByKey k rows = None -> has_key k r = true ->
  findOneByKey k (rows ++ [r])%list = Some r.
Proof.
  unfold findOneByKey. intros Hnone Hr.
  induction rows as [|x rows IH]; cbn in *.
  - now rewrite Hr.
  - destruct (has_key k x); [discriminate|]. now apply IH.
Qed.

Lemma find_key_after_update k i r old rows :
  findOneByKey k rows = None -> has_key k r = true ->
  findOneById i rows = Some old ->
  findOneByKey k (List.map (fun x => if has_id i x then r else x) rows) = Some r.
Proof.
  unfold findOneByKey, findOneById. intros Hnone Hr Hold.
  induction rows as [|x rows IH]; cbn in *; [discriminate|].
  destruct (has_key k x) eqn:Ex; [discriminate|].
  destruct (has_id i x) eqn:Ei.
  - now rewrite Hr.
  - rewrite Ex. now apply IH.
Qed.

Lemma in_after_update i r old rows :
  findOneById i rows = Some old ->
  In r (List.map (fun x => if has_id i x then r else x) rows).
Proof.
  unfold findOneById. induction rows as [|x rows IH]; cbn; [discriminate|].
  destruct (has_id i x) eqn:Ei; [now left|]. intros H. right. now apply IH.
Qed.

(** What a successful [save] leaves in the table. *)
Lemma save_accepted now d rows :
  violates_unique d rows = false ->
  exists at_ rows',
    save now d rows = (inr (stored d at_), rows')
    /\ In (stored d at_) rows'
    /\ (forall k, d_idempotencyKey d = Some k -> findOneByKey k rows = None ->
                  findOneByKey k rows' = Some (stored d at_)).
Proof.
  intros Hv. unfold save. rewrite Hv.
  destruct (findOneById (d_id d) rows) as [old|] eqn:Eid.
  - exists (receivedAt old), (List.map (fun x => if has_id (d_id d) x
                                         then stored d (receivedAt old) else x) rows).
    split; [reflexivity|]. split; [now apply in_after_update with (old := old)|].
    intros k Hk Hnone. apply find_key_after_update with (old := old); auto.
    unfold has_key. cbn. rewrite Hk. apply String.eqb_refl.
  - exists now, (rows ++ [stored d now])%list.
    split; [reflexivity|]. split; [apply in_or_app; right; now left|].
    intros k Hk Hnone. apply find_key_after_insert; auto.
    unfold has_key. cbn. rewrite Hk. apply String.eqb_refl.
Qed.

Lemma save_rejected now d rows :
  violates_unique d rows = true ->
  save now d rows = (inl (UniqueConstraintFailed "idempotencyKey"), rows).
Proof. intros Hv. unfold save. now rewrite Hv. Qed.

End RepositoryFacts.

(** ** C1 and C9: create and the idempotency key *)

Section CreateClaims.
Import Repository Async WebhooksService ServiceClaims.

Lemma truthy_nonempty key : key <> EmptyString -> Js.truthy (Some key) = true.
Proof. destruct key; [congruence|reflexivity]. Qed.

Lemma or_null_nonempty key : key <> EmptyString -> Js.or_null (Some key) = Some key.
Proof. intros H. unfold Js.or_null. now rewrite truthy_nonempty. Qed.

Lemma create_new_unfold dto sig key :
  create_new dto sig key
  = Await Uuidv4 (fun uuid =>
      await_save (draft dto sig key uuid) (fun saved =>
        Return {| webhook := saved; isNew := true |})).
Proof. reflexivity. Qed.

(** [create] when a record with the key is already stored: that record
    is returned after the one lookup. *)
Lemma run_create_existing dto sig key w found :
  key <> EmptyString ->
  findOneByKey key (rows w) = Some found ->
  run (create dto sig (Some key)) w
  = (Fulfilled {| webhook := found; isNew := false |},
     next_world w (rows w), [Called (FindOneByKey key)]).
Proof.
  intros Hne Hfound. unfold create. rewrite (truthy_nonempty key Hne).
  cbn [run perform]. now rewrite Hfound.
Qed.

(** The rest of [create] when the save is accepted. *)
Lemma run_create_new_accepted dto sig key w :
  let d := draft dto sig key (uuid_at w (steps w)) in
  violates_unique d (rows w) = false ->
  exists at_ rows',
    save (time_at w (S (steps w))) d (rows w) = (inr (stored d at_), rows')
    /\ run (create_new dto sig key) w
       = (Fulfilled {| webhook := stored d at_; isNew := true |},
          next_world (next_world w (rows w)) rows',
          [Called Uuidv4; Called (Save d)]).
Proof.
  intros d Hv.
  destruct (save_accepted (time_at w (S (steps w))) d (rows w) Hv)
    as (at_ & rows' & Hsave & _).
  exists at_, rows'. split; [exact Hsave|].
  rewrite create_new_unfold. unfold await_save.
  cbn [run perform next_world rows steps time_at uuid_at].
  fold d. rewrite Hsave. reflexivity.
Qed.

(** The rest of [create] when the save is rejected. *)
Lemma run_create_new_rejected dto sig key w :
  let d := draft dto sig key (uuid_at w (steps w)) in
  violates_unique d (rows w) = true ->
  run (create_new dto sig key) w
  = (Rejected (QueryFailed (UniqueConstraintFailed "idempotencyKey")),
     next_world (next_world w (rows w)) (rows w),
     [Called Uuidv4; Called (Save d)]).
Proof.
  intros d Hv.
  rewrite create_new_unfold. unfold await_save.
  cbn [run perform next_world rows steps time_at uuid_at].
  fold d. rewrite (save_rejected _ d (rows w) Hv). reflexivity.
Qed.

(** C1: two [create] calls in a row with the same non-empty idempotency
    key, whatever their payloads and signatures: the first returns a
    record, the second returns [isNew = false] with a record of the same
    [id], makes the one lookup and no [save], and leaves the table as the
    first call left it. *)
Theorem C1_second_create_returns_first_record
    dto1 sig1 dto2 sig2 (key : string) (w : World) :
  key <> EmptyString ->
  exists r1 w1 tr1 r2 w2,
    run (create dto1 sig1 (Some key)) w = (Fulfilled r1, w1, tr1)
    /\ In (webhook r1) (rows w1)
    /\ run (create dto2 sig2 (Some key)) w1
       = (Fulfilled r2, w2, [Called (FindOneByKey key)])
    /\ isNew r2 = false
    /\ id (webhook r2) = id (webhook r1)
    /\ rows w2 = rows w1.
Proof.
  intros Hne.
  destruct (findOneByKey key (rows w)) as [found|] eqn:Efind.
  - (* the key was already used before the first call *)
    exists {| webhook := found; isNew := false |}, (next_world w (rows w)),
           [Called (FindOneByKey key)],
           {| webhook := found; isNew := false |},
           (next_world (next_world w (rows w)) (rows w)).
    split; [now apply run_create_existing|].
    split; [apply find_some in Efind; tauto|].
    split;
      [exact (run_create_existing dto2 sig2 key (next_world w (rows w))
                found Hne Efind)|].
    repeat split.
  - (* the first call stores the record *)
    set (w0 := next_world w (rows w)).
    set (d := draft dto1 sig1 (Some key) (uuid_at w0 (steps w0))).
    assert (Hk : d_idempotencyKey d = Some key) by (apply or_null_nonempty, Hne).
    assert (Hv : violates_unique d (rows w0) = false)
      by (now apply violates_unique_false_of_no_key with (k := key)).
    destruct (save_accepted (time_at w0 (S (steps w0))) d (rows w0) Hv)
      as (at_ & rows' & Hsave & Hin & Hfind).
    destruct (run_create_new_accepted dto1 sig1 (Some key) w0 Hv)
      as (at2 & rows2 & Hsave2 & Hrun).
    fold d in Hsave2, Hrun.
    rewrite Hsave in Hsave2. inversion Hsave2; subst at2 rows2; clear Hsave2.
    set (w1 := next_world (next_world w0 (rows w0)) rows') in *.
    exists {| webhook := stored d at_; isNew := true |}, w1,
           [Called (FindOneByKey key); Called Uuidv4; Called (Save d)],
           {| webhook := stored d at_; isNew := false |},
           (next_world w1 (rows w1)).
    split.
    { unfold create. rewrite (truthy_nonempty key Hne).
      cbn [run perform]. rewrite Efind. fold w0. now rewrite Hrun. }
    split; [exact Hin|].
    split.
    { apply run_create_existing; [exact Hne|]. now apply Hfind. }
    repeat split.
Qed.

End CreateClaims.

Section CreateClaims2.
Import Repository Async WebhooksService ServiceClaims.

Lemma C1_second_create_returns_first_record_witness :
  exists r1 w1 tr1 r2 w2,
    run (create payment (Some "sig") (Some "k1")) empty_world
    = (Fulfilled r1, w1, tr1)
    /\ In (webhook r1) (rows w1)
    /\ run (create refund None (Some "k1")) w1
       = (Fulfilled r2, w2, [Called (FindOneByKey "k1")])
    /\ isNew r2 = false
    /\ id (webhook r2) = id (webhook r1)
    /\ rows w2 = rows w1.
Proof.
  apply (C1_second_create_returns_first_record
           payment (Some "sig") refund None "k1" empty_world).
  discriminate.
Defined.

(** The scenario of the witness, computed: the stored record keeps the
    payload of the first call. *)
Example create_twice_same_key :
  let '(_, w1, _) := run (create payment (Some "sig") (Some "k1")) empty_world in
  let '(o2, w2, _) := run (create refund None (Some "k1")) w1 in
  option_map (fun r => (id (webhook r), event (webhook r), isNew r))
    (match o2 with Fulfilled r => Some r | Rejected _ => None end)
  = Some ("00000000-0000-4000-8000-1", "payment.completed", false)
  /\ length (rows w2) = 1.
Proof. vm_compute. split; reflexivity. Qed.

(** C9: with the empty string as idempotency key, [create] is the same
    program as without a key: it makes no lookup by key, only draws the
    identifier and saves; the save is accepted, the stored record has a
    null [idempotencyKey], and the result has [isNew = true]. *)
Theorem C9_empty_key_is_no_key dto sig (w : World) :
  create dto sig (Some EmptyString) = create dto sig None
  /\ exists r w' d,
       run (create dto sig (Some EmptyString)) w
       = (Fulfilled r, w', [Called Uuidv4; Called (Save d)])
       /\ existsb is_key_lookup [Called Uuidv4; Called (Save d)] = false
       /\ d_idempotencyKey d = None
       /\ isNew r = true
       /\ idempotencyKey (webhook r) = None
       /\ In (webhook r) (rows w').
Proof.
  split; [reflexivity|].
  set (d := draft dto sig (Some EmptyString) (uuid_at w (steps w))).
  assert (Hv : violates_unique d (rows w) = false)
    by (apply violates_unique_null; reflexivity).
  destruct (save_accepted (time_at w (S (steps w))) d (rows w) Hv)
    as (at_ & rows' & Hsave & Hin & _).
  destruct (run_create_new_accepted dto sig (Some EmptyString) w Hv)
    as (at2 & rows2 & Hsave2 & Hrun).
  fold d in Hsave2, Hrun.
  rewrite Hsave in Hsave2. inversion Hsave2; subst at2 rows2; clear Hsave2.
  exists {| webhook := stored d at_; isNew := true |},
         (next_world (next_world w (rows w)) rows'), d.
  split; [exact Hrun|].
  repeat split. exact Hin.
Qed.

Example create_empty_key_twice :
  let '(_, w1, _) := run (create payment None (Some EmptyString)) empty_world in
  let '(o2, w2, tr2) := run (create payment None (Some EmptyString)) w1 in
  List.map idempotencyKey (rows w2) = [None; None]
  /\ List.map is_key_lookup tr2 = [false; false].
Proof. vm_compute. split; reflexivity. Qed.

End CreateClaims2.

(** ** C2: a concurrent duplicate *)

Section RaceProofs.
Import Repository Async WebhooksService ServiceClaims RaceClaims.

(** C2, as stated, fails: when two deliveries with the key [k1] both miss
    the lookup, the save of the second is rejected by the unique index and
    its [create] ends with that error; it is not turned into
    [isNew = false]. *)
Lemma C2_counterexample_race_rejects :
  let '(pool, w) := interleave race duplicates empty_world in
  List.map (fun p => match p with
                     | Return r => Some (inr (id (webhook r), isNew r))
                     | Throw e => Some (inl e)
                     | Await _ _ => None
                     end) pool
  = [ Some (inr ("00000000-0000-4000-8000-2", true));
      Some (inl (QueryFailed (UniqueConstraintFailed "idempotencyKey"))) ]
  /\ List.map idempotencyKey (rows w) = [Some "k1"].
Proof. vm_compute. split; reflexivity. Qed.

Lemma unique_keys_save now d rows :
  unique_keys rows -> unique_keys (snd (save now d rows)).
Proof.
  intros Hu. unfold save.
  destruct (violates_unique d rows) eqn:Hv; [exact Hu|].
  assert (Hclash : forall x k, In x rows -> d_idempotencyKey d = Some k ->
                               idempotencyKey x = Some k -> id x = d_id d).
  { intros x k Hx Hk Hxk. unfold violates_unique in Hv. rewrite Hk in Hv.
    destruct (String.eqb_spec (id x) (d_id d)) as [|Hne]; [assumption|].
    exfalso. apply not_true_iff_false in Hv. apply Hv.
    apply existsb_exists. exists x. split; [exact Hx|].
    unfold has_key, has_id. rewrite Hxk, String.eqb_refl. cbn.
    apply negb_true_iff. now apply String.eqb_neq. }
  destruct (findOneById (d_id d) rows) as [old|] eqn:Eid; cbn [snd].
  - intros r1 r2 k H1 H2 K1 K2.
    apply in_map_iff in H1 as (x1 & E1 & I1).
    apply in_map_iff in H2 as (x2 & E2 & I2).
    destruct (has_id (d_id d) x1) eqn:A1, (has_id (d_id d) x2) eqn:A2;
      subst r1 r2; cbn in *.
    + reflexivity.
    + symmetry. now apply (Hclash x2 k).
    + now apply (Hclash x1 k).
    + now apply (Hu x1 x2 k).
  - intros r1 r2 k H1 H2 K1 K2.
    apply in_app_or in H1. apply in_app_or in H2.
    destruct H1 as [H1|[<-|[]]], H2 as [H2|[<-|[]]]; cbn in *.
    + now apply (Hu r1 r2 k).
    + now apply (Hclash r1 k).
    + symmetry. now apply (Hclash r2 k).
    + reflexivity.
Qed.

Lemma unique_keys_perform {X} (c : call X) w :
  unique_keys (rows w) -> unique_keys (rows (snd (perform c w))).
Proof.
  intros Hu. destruct c; cbn [perform]; try exact Hu.
  pose proof (unique_keys_save (time_at w (steps w)) d (rows w) Hu) as Hs.
  destruct (save (time_at w (steps w)) d (rows w)) as [r rows']. exact Hs.
Qed.

Lemma unique_keys_interleave {A} schedule : forall (pool : list (Async.t A)) w,
  unique_keys (rows w) ->
  unique_keys (rows (snd (interleave schedule pool w))).
Proof.
  induction schedule as [|i schedule IH]; intros pool w Hu; [exact Hu|].
  cbn [interleave].
  destruct (pool !! i) as [[a|e|X c k]|]; try now apply IH.
  pose proof (unique_keys_perform c w Hu) as Hp.
  destruct (perform c w) as [x w']. now apply IH.
Qed.

(** C2 (amended): when the lookup has missed and the persistence
    collaborator then rejects the save with a unique-constraint violation
    on [idempotencyKey], [create] makes no further call (no re-fetch), the
    rejection reaches the caller and the table is left as it was.  The
    unique index alone keeps the invariant: whatever requests run, in
    whatever interleaving, two stored records with the same non-null
    [idempotencyKey] have the same [id]. *)
Theorem C2_rejected_save_propagates dto sig (key : string) (w : World) :
  key <> EmptyString ->
  violates_unique (draft dto sig (Some key) (uuid_at w (steps w))) (rows w) = true ->
  (create dto sig (Some key)
   = Await (FindOneByKey key) (fun existing =>
       match existing with
       | Some found => Return {| webhook := found; isNew := false |}
       | None => create_new dto sig (Some key)
       end))
  /\ (exists w',
        run (create_new dto sig (Some key)) w
        = (Rejected (QueryFailed (UniqueConstraintFailed "idempotencyKey")), w',
           [Called Uuidv4;
            Called (Save (draft dto sig (Some key) (uuid_at w (steps w))))])
        /\ rows w' = rows w)
  /\ (forall (schedule : list nat) (pool : list (Async.t CreateResult)) w0,
        unique_keys (rows w0) ->
        unique_keys (rows (snd (interleave schedule pool w0)))).
Proof.
  intros Hne Hv. split; [|split].
  - unfold create. now rewrite (truthy_nonempty key Hne).
  - eexists. split; [now apply run_create_new_rejected|reflexivity].
  - intros schedule pool w0. apply unique_keys_interleave.
Qed.

Lemma C2_rejected_save_propagates_witness :
  exists w',
    run (create_new payment (Some "sig") (Some "k1")) taken_world
    = (Rejected (QueryFailed (UniqueConstraintFailed "idempotencyKey")), w',
       [Called Uuidv4;
        Called (Save (draft payment (Some "sig") (Some "k1")
                        (uuid_at taken_world (steps taken_world))))])
    /\ rows w' = rows taken_world.
Proof.
  destruct (C2_rejected_save_propagates payment (Some "sig") "k1" taken_world)
    as (_ & H & _).
  - discriminate.
  - vm_compute. reflexivity.
  - exact H.
Defined.

End RaceProofs.

(** ** C8: findAll *)

Section FindAllClaims.
Import Repository Async WebhooksService ServiceClaims PageClaims.

Lemma insert_sorted_perm d tie r l :
  Permutation (insert_sorted d tie r l) (r :: l).
Proof.
  induction l as [|x l IH]; cbn; [reflexivity|].
  destruct (before d tie r x); [reflexivity|].
  rewrite IH. apply perm_swap.
Qed.

Lemma sort_rows_perm d tie l : Permutation (sort_rows d tie l) l.
Proof.
  induction l as [|x l IH]; cbn; [reflexivity|].
  rewrite insert_sorted_perm. now apply perm_skip.
Qed.

Lemma before_desc tie a b :
  if before DESC tie a b then newer_first a b else newer_first b a.
Proof.
  unfold before, newer_first.
  destruct (Z.ltb_spec (receivedAt b) (receivedAt a)); cbn [orb]; [lia|].
  destruct (Z.eqb_spec (receivedAt b) (receivedAt a)); cbn [andb]; [|lia].
  destruct (tie a <=? tie b)%Z; lia.
Qed.

(** Whatever the database does with ties, the rows come out newest
    first. *)
Lemma insert_sorted_desc tie r l :
  StronglySorted newer_first l ->
  StronglySorted newer_first (insert_sorted DESC tie r l).
Proof.
  induction 1 as [|x l Hs IH Hall]; cbn [insert_sorted].
  - repeat constructor.
  - pose proof (before_desc tie r x) as E.
    destruct (before DESC tie r x).
    + constructor; [now constructor|].
      constructor; [exact E|].
      eapply Forall_impl; [exact Hall|].
      intros y Hy. unfold newer_first in *. lia.
    + constructor; [exact IH|].
      eapply Permutation_Forall; [symmetry; apply insert_sorted_perm|].
      constructor; [exact E|exact Hall].
Qed.

Lemma sort_rows_desc tie l : StronglySorted newer_first (sort_rows DESC tie l).
Proof.
  induction l as [|x l IH]; cbn; [constructor|].
  now apply insert_sorted_desc.
Qed.

Lemma StronglySorted_skipn {A} (R : A -> A -> Prop) n l :
  StronglySorted R l -> StronglySorted R (skipn n l).
Proof.
  revert l. induction n as [|n IH]; intros l Hs; [exact Hs|].
  destruct l as [|x l]; [constructor|].
  cbn. apply IH. now inversion Hs.
Qed.

Lemma StronglySorted_firstn {A} (R : A -> A -> Prop) n l :
  StronglySorted R l -> StronglySorted R (firstn n l).
Proof.
  revert l. induction n as [|n IH]; intros l Hs; [constructor|].
  destruct l as [|x l]; [constructor|].
  inversion Hs as [|? ? Hs' Hall]; subst. cbn. constructor.
  - now apply IH.
  - now apply Forall_take.
Qed.

End FindAllClaims.

Section FindAllClaims2.
Import Repository Async WebhooksService ServiceClaims PageClaims.

Lemma StronglySorted_map_fromEntity l :
  StronglySorted newer_first l ->
  StronglySorted dto_newer_first (List.map fromEntity l).
Proof.
  induction 1 as [|x l Hs IH Hall]; cbn; constructor; [exact IH|].
  apply Forall_map. eapply Forall_impl; [exact Hall|].
  intros y Hy. exact Hy.
Qed.

Lemma findAll_unfold page limit src ev :
  findAll (page_query page limit src ev)
  = Await (GetManyAndCount (built_query page limit src ev))
      (fun '(webhooks, total) =>
         Return {| data := List.map fromEntity webhooks;
                   meta := {| total := total; page := page; limit := limit;
                              totalPages := Math_ceil_div total limit |} |}).
Proof.
  unfold findAll, built_query, page_query. cbn [q_page q_limit q_source q_event default].
  destruct src as [[|c s]|], ev as [[|c' s']|]; reflexivity.
Qed.

Lemma getManyAndCount_built tie page limit src ev rows :
  getManyAndCount tie (built_query page limit src ev) rows
  = (limit_rows limit
       (offset_rows ((page - 1) * limit)
          (sort_rows DESC tie (List.filter (selected src ev) rows))),
     Z.of_nat (length (List.filter (selected src ev) rows))).
Proof. reflexivity. Qed.

Lemma limit_rows_pos limit l :
  (1 <= limit)%Z -> limit_rows limit l = firstn (Z.to_nat limit) l.
Proof.
  intros Hl. unfold limit_rows.
  destruct (Z.ltb_spec 0 limit); [reflexivity|lia].
Qed.

Lemma Math_ceil_div_spec total limit :
  (1 <= limit)%Z ->
  exists tp, Math_ceil_div total limit = Finite tp
             /\ ((tp - 1) * limit < total <= tp * limit)%Z.
Proof.
  intros Hl. unfold Math_ceil_div.
  destruct (Z.eqb_spec limit 0) as [->|_]; [lia|].
  eexists. split; [reflexivity|].
  pose proof (Z.div_mod (- total) limit ltac:(lia)) as Hdm.
  pose proof (Z.mod_pos_bound (- total) limit ltac:(lia)) as Hb.
  nia.
Qed.

(** C8, as stated, fails for a limit or a page below 1: the query
    builder hands [limit] and [(page - 1) * limit] to the database as
    they are, and SQLite reads a negative [LIMIT] as none and a negative
    [OFFSET] as 0.  With 25 records stored, page 1 with limit -5 returns
    all 25, which is more than the limit, and [totalPages] is -5; page 0
    with limit 10 returns the very records of page 1, skipping none
    where [(page - 1) * limit] is -10. *)
Lemma C8_counterexample_limit_or_page_below_1 :
  (exists res,
      fst (fst (run (findAll (page_query 1 (-5) None None)) world25)) = Fulfilled res
      /\ length (data res) = 25
      /\ ~ (Z.of_nat (length (data res)) <= limit (meta res))%Z
      /\ totalPages (meta res) = Finite (-5))
  /\ (exists res0 res1,
         fst (fst (run (findAll (page_query 0 10 None None)) world25)) = Fulfilled res0
         /\ fst (fst (run (findAll (page_query 1 10 None None)) world25)) = Fulfilled res1
         /\ ((page (meta res0) - 1) * limit (meta res0) = -10)%Z
         /\ data res0 = data res1
         /\ List.map r_receivedAt (data res0)
            = [24; 23; 22; 21; 20; 19; 18; 17; 16; 15]%Z).
Proof.
  split.
  - eexists. split; [vm_compute; reflexivity|].
    cbn [data meta limit totalPages].
    split; [reflexivity|]. split; [cbn; lia|reflexivity].
  - eexists. eexists.
    split; [vm_compute; reflexivity|].
    split; [vm_compute; reflexivity|].
    cbn [data meta limit page].
    split; [reflexivity|]. split; reflexivity.
Qed.

(** C8 (amended): for every table, every filter and every page and limit
    from 1 up, [findAll] reads the table once and returns the matching
    records from newest to oldest [receivedAt] (records with the same
    [receivedAt] in the order the database gives them), leaving out the
    first [(page - 1) * limit] of them and keeping at most [limit],
    together with [total] (the number of matching records), [page],
    [limit] and [totalPages], the least number of pages of [limit]
    records that hold [total].  With 25 matching records and
    [limit = 10], [totalPages] is 3 and page 3 holds the 5 oldest, newest
    first. *)
Theorem C8_findAll_pagination (w : World) (page limit : Z)
    (src ev : Js.maybe_string) :
  (1 <= page)%Z -> (1 <= limit)%Z ->
  let matching := List.filter (selected src ev) (rows w) in
  exists res w' tp ordered,
    run (findAll (page_query page limit src ev)) w
    = (Fulfilled res, w', [Called (GetManyAndCount (built_query page limit src ev))])
    /\ rows w' = rows w
    /\ Permutation ordered matching
    /\ StronglySorted newer_first ordered
    /\ data res
       = List.map fromEntity
           (firstn (Z.to_nat limit)
              (skipn (Z.to_nat ((page - 1) * limit)) ordered))
    /\ StronglySorted dto_newer_first (data res)
    /\ (Z.of_nat (length (data res)) <= limit)%Z
    /\ meta res = {| total := Z.of_nat (length matching); page := page;
                     limit := limit; totalPages := Finite tp |}
    /\ ((tp - 1) * limit < Z.of_nat (length matching) <= tp * limit)%Z
    /\ (length matching = 25 -> limit = 10%Z ->
        tp = 3%Z
        /\ (page = 3%Z ->
            data res = List.map fromEntity (skipn 20 ordered)
            /\ length (data res) = 5)).
Proof.
  intros Hp Hl matching.
  set (ordered := sort_rows DESC (tie_at w (steps w)) matching).
  destruct (Math_ceil_div_spec (Z.of_nat (length matching)) limit Hl)
    as (tp & Htp & Hbounds).
  set (slice := firstn (Z.to_nat limit)
                  (skipn (Z.to_nat ((page - 1) * limit)) ordered)).
  exists {| data := List.map fromEntity slice;
            meta := {| total := Z.of_nat (length matching); page := page;
                       limit := limit; totalPages := Finite tp |} |},
         (next_world w (rows w)), tp, ordered.
  assert (Hperm : Permutation ordered matching) by apply sort_rows_perm.
  assert (Hsorted : StronglySorted newer_first ordered) by apply sort_rows_desc.
  split.
  { rewrite findAll_unfold. cbn [run perform].
    rewrite getManyAndCount_built, (limit_rows_pos limit _ Hl).
    unfold offset_rows. fold matching. fold ordered. fold slice.
    now rewrite Htp. }
  split; [reflexivity|].
  split; [exact Hperm|].
  split; [exact Hsorted|].
  split; [reflexivity|].
  cbn [data meta].
  split.
  { apply StronglySorted_map_fromEntity.
    now apply StronglySorted_firstn, StronglySorted_skipn. }
  split.
  { rewrite length_map. unfold slice.
    pose proof (firstn_le_length (Z.to_nat limit)
                  (skipn (Z.to_nat ((page - 1) * limit)) ordered)). lia. }
  split; [reflexivity|].
  split; [exact Hbounds|].
  intros H25 H10. subst limit. rewrite H25 in Hbounds.
  split; [lia|].
  intros ->. unfold slice.
  change (Z.to_nat ((3 - 1) * 10)) with 20. change (Z.to_nat 10) with 10.
  assert (Hlen : length (skipn 20 ordered) = 5).
  { rewrite length_skipn, (Permutation_length Hperm), H25. reflexivity. }
  rewrite firstn_all2 by lia.
  split; [reflexivity|]. now rewrite length_map.
Qed.

Lemma C8_findAll_pagination_witness :
  exists res,
    fst (fst (run (findAll (page_query 3 10 None None)) world25)) = Fulfilled res
    /\ StronglySorted dto_newer_first (data res)
    /\ length (data res) = 5
    /\ List.map r_receivedAt (data res) = [4; 3; 2; 1; 0]%Z
    /\ meta res = {| total := 25; page := 3; limit := 10; totalPages := Finite 3 |}.
Proof.
  destruct (C8_findAll_pagination world25 3 10 None None)
    as (res & w' & tp & ordered & Hrun & _ & _ & _ & _ & Hsorted & _ & Hmeta & _ & H25);
    [lia|lia|].
  destruct H25 as [Htp Hpage]; [vm_compute; reflexivity|reflexivity|].
  destruct Hpage as [_ Hlen]; [reflexivity|].
  exists res. split; [now rewrite Hrun|]. split; [exact Hsorted|].
  split; [exact Hlen|]. split.
  - vm_compute in Hrun. injection Hrun as <- _. reflexivity.
  - rewrite Hmeta, Htp. vm_compute. reflexivity.
Defined.

End FindAllClaims2.

(* ===================================================================== *)
(** * Part III: further properties of the code                            *)
(* ===================================================================== *)

(** ** SignatureService *)

Section SignatureExtras.
Import SignatureService Claims SignatureTerms.

Lemma lower_hex_digit_hex_digit n :
  (n < 16)%N -> lower_hex_digit (Buffer.hex_digit n) = true.
Proof.
  intros Hn.
  assert (Hc : In n (List.map N.of_nat (seq 0 16))).
  { apply in_map_iff. exists (N.to_nat n). split; [lia|].
    apply in_seq. lia. }
  simpl in Hc.
  repeat (destruct Hc as [<- | Hc]; [reflexivity|]).
  destruct Hc.
Qed.

Lemma all_lower_hex_to_hex bs : all_chars lower_hex_digit (Buffer.to_hex bs) = true.
Proof.
  induction bs as [|b bs IH]; [reflexivity|].
  pose proof (to_N_lt b).
  cbn [Buffer.to_hex all_chars].
  rewrite !lower_hex_digit_hex_digit, IH; [reflexivity| |].
  - apply N.mod_lt. lia.
  - apply N.Div0.div_lt_upper_bound. lia.
Qed.

(** X1: a signature made by [generate] is 64 characters long, all of them
    digits or letters from [a] to [f], for every secret and payload. *)
Theorem X1_generate_is_64_lowercase_hex svc payload :
  String.length (generate svc payload) = 64
  /\ all_chars lower_hex_digit (generate svc payload) = true.
Proof.
  split; [apply length_generate|].
  rewrite generate_to_hex. apply all_lower_hex_to_hex.
Qed.

Lemma digit_of_upper u : digit_of (upper_ascii u) = digit_of u.
Proof.
  unfold upper_ascii.
  destruct ((97 <=? u) && (u <=? 122))%N eqn:E; [|reflexivity].
  apply andb_true_iff in E as [H1 H2]. apply N.leb_le in H1, H2.
  assert (Hc : In u (List.map N.of_nat (seq 97 26))).
  { apply in_map_iff. exists (N.to_nat u). split; [lia|]. apply in_seq. lia. }
  vm_compute in Hc.
  repeat (destruct Hc as [<- | Hc]; [reflexivity|]).
  destruct Hc.
Qed.

Lemma digit_of_lower u : digit_of (lower_ascii u) = digit_of u.
Proof.
  unfold lower_ascii.
  destruct ((65 <=? u) && (u <=? 90))%N eqn:E; [|reflexivity].
  apply andb_true_iff in E as [H1 H2]. apply N.leb_le in H1, H2.
  assert (Hc : In u (List.map N.of_nat (seq 65 26))).
  { apply in_map_iff. exists (N.to_nat u). split; [lia|]. apply in_seq. lia. }
  vm_compute in Hc.
  repeat (destruct Hc as [<- | Hc]; [reflexivity|]).
  destruct Hc.
Qed.

Lemma verify_units_map (f : N -> N) svc payload s :
  (forall u, digit_of (f u) = digit_of u) ->
  SignatureServiceJs.verify svc payload (Some (List.map f s))
  = SignatureServiceJs.verify svc payload (Some s).
Proof.
  intros Hf. destruct payload as [p|].
  - rewrite !verify_units_some, (units_map_ext f Hf).
    destruct s; reflexivity.
  - destruct s; reflexivity.
Qed.

(** X2: [verify] does not look at the case of the letters [a] to [z].
    A signature, of any characters, and the signature with those letters
    in upper case, or with the letters [A] to [Z] in lower case, every
    other character being left as it is, get the same result. *)
Theorem X2_verify_ignores_letter_case svc payload s :
  SignatureServiceJs.verify svc payload (Some (List.map upper_ascii s))
  = SignatureServiceJs.verify svc payload (Some s)
  /\ SignatureServiceJs.verify svc payload (Some (List.map lower_ascii s))
     = SignatureServiceJs.verify svc payload (Some s).
Proof.
  split; apply verify_units_map; [apply digit_of_upper|apply digit_of_lower].
Qed.

Lemma append_cons c s t : String c s ++ t = String c (s ++ t).
Proof. reflexivity. Qed.

Lemma from_hex_to_hex_app d t :
  Buffer.from_hex (Buffer.to_hex d ++ t) = (d ++ Buffer.from_hex t)%list.
Proof.
  induction d as [|b d IH]; [reflexivity|].
  destruct (nibbles_of_byte b) as [Hhi Hlo].
  cbn [Buffer.to_hex]. rewrite !append_cons.
  cbn [Buffer.from_hex]. rewrite Hhi, Hlo, IH.
  cbn [app]. f_equal.
  rewrite <- (byte_of_N_to_N b) at 3. f_equal.
  pose proof (N.div_mod (Byte.to_N b) 16). lia.
Qed.

Lemma from_hex_nil_iff t : Buffer.from_hex t = [] <-> hex_pair_prefix t = false.
Proof.
  destruct t as [|a [|b t]]; cbn; try tauto.
  destruct (Buffer.unhex a), (Buffer.unhex b); split; congruence.
Qed.

(** X3: what follows the 64 characters of the right signature is ignored
    unless it begins with two characters that [Buffer.from(s, 'hex')]
    reads as hexadecimal digits (by the low byte of their code units):
    for a payload that is a string, [verify] accepts [generate(P)]
    followed by [t] exactly when [t] does not begin with such a pair. *)
Theorem X3_verify_ignores_undecodable_suffix svc payload (t : Utf16.t) :
  SignatureServiceJs.verify svc (Some payload)
    (Some (Utf16.of_latin1 (generate svc payload) ++ t)%list)
  = SignatureServiceJs.Returns (negb (digit_pair_prefix t)).
Proof.
  rewrite verify_units_some. f_equal.
  match goal with |- (?a && _) = _ => assert (Ht : a = true) end.
  { pose proof (truthy_generate svc payload) as H.
    destruct (generate svc payload); [discriminate H|reflexivity]. }
  rewrite Ht. cbn [andb]. unfold Utf16.from_hex, digit_pair_prefix.
  rewrite low_bytes_app, low_bytes_of_latin1, generate_to_hex, from_hex_to_hex_app.
  destruct (hex_pair_prefix (Utf16.low_bytes t)) eqn:E; cbn [negb].
  - apply bool_decide_eq_false_2. intros Heq.
    apply (f_equal (@length _)) in Heq. rewrite length_app in Heq.
    assert (Buffer.from_hex (Utf16.low_bytes t) <> []) as Hne.
    { intros Hnil. apply from_hex_nil_iff in Hnil. congruence. }
    destruct (Buffer.from_hex (Utf16.low_bytes t)); [congruence|cbn in Heq; lia].
  - apply bool_decide_eq_true_2.
    apply from_hex_nil_iff in E. rewrite E. apply app_nil_r.
Qed.

(** X4: [verifyWithSecret] with the configured secret is [verify], as
    long as that secret is not empty, and it accepts the signature that
    [generate] makes.  With an empty or absent secret it rejects every
    signature. *)
Theorem X4_verifyWithSecret_agrees_with_verify svc payload signature :
  (webhookSecret svc <> EmptyString ->
   verifyWithSecret payload signature (Some (webhookSecret svc))
   = verify svc payload signature
   /\ verifyWithSecret payload (Some (generate svc payload))
        (Some (webhookSecret svc)) = true)
  /\ verifyWithSecret payload signature (Some EmptyString) = false
  /\ verifyWithSecret payload signature None = false.
Proof.
  split; [|split].
  - intros Hne.
    assert (Hagree : forall sig,
               verifyWithSecret payload sig (Some (webhookSecret svc))
               = verify svc payload sig).
    { intros [sig|]; [|reflexivity].
      unfold verifyWithSecret, verify, generate.
      assert (Ht : Js.truthy (Some (webhookSecret svc)) = true)
        by (destruct (webhookSecret svc); [congruence|reflexivity]).
      rewrite Ht. cbn [negb]. rewrite orb_false_r. reflexivity. }
    split; [apply Hagree|].
    rewrite Hagree, verify_some, truthy_generate, from_hex_generate.
    now rewrite bool_decide_eq_true_2.
  - destruct signature as [sig|]; [|reflexivity].
    unfold verifyWithSecret. cbn [Js.truthy negb]. now rewrite orb_true_r.
  - destruct signature; reflexivity.
Qed.

Lemma X4_verifyWithSecret_agrees_with_verify_witness :
  verifyWithSecret test_payload (Some "abc123") (Some "test-webhook-secret")
  = verify test_service test_payload (Some "abc123")
  /\ verifyWithSecret test_payload
       (Some (generate test_service test_payload))
       (Some "test-webhook-secret") = true.
Proof.
  destruct (X4_verifyWithSecret_agrees_with_verify test_service test_payload
              (Some "abc123")) as (H & _).
  apply H. discriminate.
Defined.

End SignatureExtras.

(** ** SignatureGuard *)

Section GuardExtras.
Import SignatureGuard GateClaims.

(** X5: a request whose signature header is [generate] of
    [JSON.stringify] of its parsed body is admitted, whatever its method
    and whatever the route's annotation. *)
Theorem X5_guard_admits_signed_body {Body : Type}
    (JSON_stringify : Body -> string) (svc : SignatureService.t)
    (skip : option bool) (request : Request Body) :
  x_webhook_signature request
  = Some (SignatureService.generate svc (JSON_stringify (body request))) ->
  canActivate JSON_stringify svc skip request = Activated.
Proof.
  intros Hsig. unfold canActivate.
  destruct (metadata_set skip); [reflexivity|].
  destruct (negb (Js.includes Js.mutating_methods (method request)));
    [reflexivity|].
  rewrite Hsig, truthy_generate. cbn [negb].
  rewrite verify_some, truthy_generate, from_hex_generate.
  now rewrite bool_decide_eq_true_2.
Qed.

Lemma X5_guard_admits_signed_body_witness :
  canActivate Json.stringify test_service None
    {| method := "POST";
       x_webhook_signature :=
         Some (SignatureService.generate test_service
                 (Json.stringify (Json.Obj [("data", Json.Str "test")])));
       body := Json.Obj [("data", Json.Str "test")];
       raw := EmptyString |} = Activated.
Proof.
  apply (X5_guard_admits_signed_body Json.stringify test_service None).
  vm_compute. reflexivity.
Defined.

End GuardExtras.

(** ** IdempotencyInterceptor *)

Section CacheExtras.
Import IdempotencyInterceptor GateClaims.
Context {Data Err W : Type}.
Implicit Types (cache : gmap string (CachedResponse Data))
               (next : CallHandler Data Err W).

(** X6: store, then replay.  When a mutating request with a non-empty
    key misses the cache and its handler succeeds, a later mutating
    request with the same key (of any of the three methods), arriving no
    more than 24 hours after the response was stored, receives that same
    response; its own handler is not run and the cache only loses what
    has expired. *)
Theorem X6_stored_response_is_replayed
    cache request1 request2 next1 next2 now1 later1 now2 later2 w key d w1 :
  mutating (method request1) -> mutating (method request2) ->
  x_idempotency_key request1 = Some key ->
  x_idempotency_key request2 = Some key ->
  key <> EmptyString ->
  cleanExpiredEntries now1 cache !! key = None ->
  next1 w = (Emits d, w1) ->
  (now2 - later1 <= TTL)%Z ->
  exists cache1,
    intercept cache request1 next1 now1 later1 w = (Emits d, cache1, w1)
    /\ cache1 !! key = Some {| data := d; timestamp := later1 |}
    /\ intercept cache1 request2 next2 now2 later2 w1
       = (Emits d, cleanExpiredEntries now2 cache1, w1).
Proof.
  intros Hm1 Hm2 Hk1 Hk2 Hne Hmiss Hok Hfresh.
  exists (<[key := {| data := d; timestamp := later1 |}]>
            (cleanExpiredEntries now1 cache)).
  split.
  { rewrite (intercept_keyed cache request1 next1 now1 later1 w key Hm1 Hk1 Hne).
    cbv zeta. now rewrite Hmiss, Hok. }
  split; [apply lookup_insert_eq|].
  rewrite (intercept_keyed _ request2 next2 now2 later2 w1 key Hm2 Hk2 Hne).
  cbv zeta.
  assert (Hs : cleanExpiredEntries now2
                 (<[key := {| data := d; timestamp := later1 |}]>
                    (cleanExpiredEntries now1 cache)) !! key
               = Some {| data := d; timestamp := later1 |}).
  { apply lookup_cleanExpiredEntries. split; [apply lookup_insert_eq|exact Hfresh]. }
  now rewrite Hs.
Qed.

(** X7: expiry.  More than 24 hours after a response was stored under a
    key, a request with that key runs its handler again; when the handler
    succeeds its response replaces the stored one. *)
Theorem X7_expired_entry_is_recomputed
    cache request next now later w key (old : CachedResponse Data) d w' :
  mutating (method request) ->
  x_idempotency_key request = Some key -> key <> EmptyString ->
  cache !! key = Some old ->
  (now - timestamp old > TTL)%Z ->
  next w = (Emits d, w') ->
  exists cache',
    intercept cache request next now later w = (Emits d, cache', w')
    /\ cache' !! key = Some {| data := d; timestamp := later |}.
Proof.
  intros Hm Hk Hne Hold Hexp Hok.
  assert (Hmiss : cleanExpiredEntries now cache !! key = None).
  { destruct (cleanExpiredEntries now cache !! key) as [e|] eqn:E; [|reflexivity].
    apply lookup_cleanExpiredEntries in E as [E1 E2].
    rewrite Hold in E1. inversion E1; subst e. lia. }
  eexists. split.
  - rewrite (intercept_keyed cache request next now later w key Hm Hk Hne).
    cbv zeta. rewrite Hmiss, Hok. reflexivity.
  - apply lookup_insert_eq.
Qed.

(** X8: sweeping twice is sweeping at the later time, and a sweep only
    removes entries: what it keeps are entries the cache already held. *)
Theorem X8_sweeps_compose cache (t1 t2 : Z) :
  (t1 <= t2)%Z ->
  cleanExpiredEntries t2 (cleanExpiredEntries t1 cache)
  = cleanExpiredEntries t2 cache
  /\ cleanExpiredEntries t1 cache ⊆ cache.
Proof.
  intros Hle. split.
  - apply map_eq. intros k.
    destruct (cleanExpiredEntries t2 cache !! k) as [e|] eqn:E.
    + apply lookup_cleanExpiredEntries in E as [E1 E2].
      apply lookup_cleanExpiredEntries. split; [|exact E2].
      apply lookup_cleanExpiredEntries. split; [exact E1|lia].
    + destruct (cleanExpiredEntries t2 (cleanExpiredEntries t1 cache) !! k)
        as [e|] eqn:E'; [|reflexivity].
      apply lookup_cleanExpiredEntries in E' as [E1 E2].
      apply lookup_cleanExpiredEntries in E1 as [E1 _].
      assert (cleanExpiredEntries t2 cache !! k = Some e)
        by now apply lookup_cleanExpiredEntries.
      congruence.
  - apply map_filter_subseteq.
Qed.

End CacheExtras.

Section CacheExtrasWitnesses.
Import IdempotencyInterceptor GateClaims CacheClaims.

Lemma X6_stored_response_is_replayed_witness :
  exists cache1,
    intercept sample_cache (post (Some "k2")) sample_handler sample_now sample_now 0
    = (Emits "id-2", cache1, 1)
    /\ cache1 !! "k2" = Some {| data := "id-2"; timestamp := sample_now |}
    /\ intercept cache1 {| method := "PUT"; x_idempotency_key := Some "k2" |}
         failing_handler (sample_now + 5) (sample_now + 6) 1
       = (Emits "id-2", cleanExpiredEntries (sample_now + 5) cache1, 1).
Proof.
  apply (X6_stored_response_is_replayed sample_cache (post (Some "k2"))
           {| method := "PUT"; x_idempotency_key := Some "k2" |}
           sample_handler failing_handler sample_now sample_now
           (sample_now + 5) (sample_now + 6) 0 "k2" "id-2" 1).
  - left. reflexivity.
  - right. left. reflexivity.
  - reflexivity.
  - reflexivity.
  - discriminate.
  - vm_compute. reflexivity.
  - reflexivity.
  - vm_compute. discriminate.
Defined.

Lemma X7_expired_entry_is_recomputed_witness :
  exists cache',
    intercept sample_cache (post (Some "k0")) sample_handler sample_now sample_now 0
    = (Emits "id-2", cache', 1)
    /\ cache' !! "k0" = Some {| data := "id-2"; timestamp := sample_now |}.
Proof.
  apply (X7_expired_entry_is_recomputed sample_cache (post (Some "k0"))
           sample_handler sample_now sample_now 0 "k0"
           {| data := "id-0"; timestamp := 0 |} "id-2" 1).
  - left. reflexivity.
  - reflexivity.
  - discriminate.
  - vm_compute. reflexivity.
  - vm_compute. reflexivity.
  - reflexivity.
Defined.

Lemma X8_sweeps_compose_witness :
  cleanExpiredEntries (sample_now + 5) (cleanExpiredEntries sample_now sample_cache)
  = cleanExpiredEntries (sample_now + 5) sample_cache
  /\ cleanExpiredEntries sample_now sample_cache ⊆ sample_cache.
Proof.
  apply (X8_sweeps_compose (Data := string) sample_cache sample_now (sample_now + 5)).
  vm_compute. discriminate.
Defined.

End CacheExtrasWitnesses.

(** ** WebhooksService and WebhooksController *)

Section ServiceExtras.
Import Repository Async AsyncOps WebhooksService ServiceClaims PageClaims PagingTerms.

Lemma run_bind {A B : Type} (p : Async.t A) (k : A -> Async.t B) : forall w,
  run (bind p k) w
  = match run p w with
    | (Fulfilled a, w1, tr1) =>
        let '(o, w2, tr2) := run (k a) w1 in (o, w2, (tr1 ++ tr2)%list)
    | (Rejected e, w1, tr1) => (Rejected e, w1, tr1)
    end.
Proof.
  induction p as [a|e|X c f IH]; intros w; cbn [bind run].
  - destruct (run (k a) w) as [[o w2] tr2]. reflexivity.
  - reflexivity.
  - destruct (perform c w) as [x w1]. rewrite IH.
    destruct (run (f x) w1) as [[[a|e] w2] tr1]; [|reflexivity].
    destruct (run (k a) w2) as [[o w3] tr2]. reflexivity.
Qed.

Lemma has_id_eq i x : has_id i x = true <-> id x = i.
Proof. unfold has_id. apply String.eqb_eq. Qed.

Lemma find_id_none_iff i rows :
  findOneById i rows = None <-> forall x, In x rows -> id x <> i.
Proof.
  unfold findOneById. split.
  - intros H x Hx Hid. apply (find_none _ _ H) in Hx.
    apply has_id_eq in Hid. congruence.
  - intros H. induction rows as [|y rows IH]; [reflexivity|]. cbn.
    destruct (has_id i y) eqn:E.
    + apply has_id_eq in E. exfalso. apply (H y); [now left|exact E].
    + apply IH. intros x Hx. apply H. now right.
Qed.

Lemma find_id_of_In rows x :
  unique_ids rows -> In x rows -> findOneById (id x) rows = Some x.
Proof.
  unfold unique_ids, findOneById.
  induction rows as [|y rows IH]; intros Hnd Hx; [destruct Hx|].
  cbn in Hnd |- *. inversion Hnd as [|? ? Hnotin Hnd']; subst.
  destruct Hx as [->|Hx].
  - unfold has_id. now rewrite String.eqb_refl.
  - destruct (has_id (id x) y) eqn:E.
    + apply has_id_eq in E. exfalso. apply Hnotin. rewrite E.
      apply list_elem_of_In. now apply in_map.
    + now apply IH.
Qed.

Lemma find_app_none {A} (f : A -> bool) l l' :
  List.find f l = None -> List.find f (l ++ l') = List.find f l'.
Proof.
  induction l as [|x l IH]; cbn; [reflexivity|].
  destruct (f x); [discriminate|exact IH].
Qed.

(** An accepted [save]: the record can be read back by its [id], the
    table grows by one row exactly when the [id] was not in use, and the
    primary key stays unique. *)
Lemma save_accepted_by_id now d rows :
  violates_unique d rows = false ->
  exists at_ rows',
    save now d rows = (inr (stored d at_), rows')
    /\ findOneById (d_id d) rows' = Some (stored d at_)
    /\ length rows'
       = match findOneById (d_id d) rows with
         | Some _ => length rows
         | None => S (length rows)
         end
    /\ (unique_ids rows -> unique_ids rows')
    /\ (forall k, d_idempotencyKey d = Some k -> findOneByKey k rows = None ->
                  findOneByKey k rows' = Some (stored d at_)).
Proof.
  intros Hv.
  destruct (save_accepted now d rows Hv) as (at0 & rows0 & Hsave0 & _ & Hkey0).
  enough (exists at_ rows',
    save now d rows = (inr (stored d at_), rows')
    /\ findOneById (d_id d) rows' = Some (stored d at_)
    /\ length rows'
       = match findOneById (d_id d) rows with
         | Some _ => length rows
         | None => S (length rows)
         end
    /\ (unique_ids rows -> unique_ids rows')) as (at_ & rows' & Hs & H1 & H2 & H3).
  { exists at_, rows'. rewrite Hs in Hsave0.
    injection Hsave0 as Hst Hr.
    split; [exact Hs|]. split; [exact H1|]. split; [exact H2|].
    split; [exact H3|].
    intros k Hk Hnone. rewrite Hr, Hst. now apply Hkey0. }
  clear at0 rows0 Hsave0 Hkey0.
  unfold save. rewrite Hv.
  destruct (findOneById (d_id d) rows) as [old|] eqn:Eid.
  - set (r := stored d (receivedAt old)).
    exists (receivedAt old),
           (List.map (fun x => if has_id (d_id d) x then r else x) rows).
    split; [reflexivity|].
    assert (Hids : List.map id (List.map (fun x => if has_id (d_id d) x then r else x) rows)
                   = List.map id rows).
    { rewrite List.map_map. apply List.map_ext. intros x.
      destruct (has_id (d_id d) x) eqn:E; [|reflexivity].
      apply has_id_eq in E. now rewrite E. }
    split; [|split].
    + unfold findOneById in *. clear Hv Hids.
      induction rows as [|x rows IH]; cbn in *; [discriminate|].
      destruct (has_id (d_id d) x) eqn:E.
      * unfold has_id at 1. cbn. now rewrite String.eqb_refl.
      * rewrite E. now apply IH.
    + now rewrite length_map.
    + unfold unique_ids. now rewrite Hids.
  - exists now, (rows ++ [stored d now])%list.
    split; [reflexivity|]. split; [|split].
    + unfold findOneById in *. rewrite (find_app_none _ _ _ Eid). cbn.
      unfold has_id. cbn. now rewrite String.eqb_refl.
    + rewrite length_app. cbn. lia.
    + unfold unique_ids. intros Hnd. rewrite List.map_app. cbn.
      apply NoDup_app. split; [exact Hnd|]. split; [|apply NoDup_singleton].
      intros i Hi Hin. apply list_elem_of_In in Hin. destruct Hin as [<-|[]].
      apply list_elem_of_In, in_map_iff in Hi. destruct Hi as (x & Hx & Hin').
      apply (proj1 (find_id_none_iff (d_id d) rows) Eid x Hin' Hx).
Qed.

(** Everything a completed [create] guarantees, in one place. *)
Lemma create_outcome dto sig key w :
  let w0 := after_lookup key w in
  let d := draft dto sig key (uuid_at w0 (steps w0)) in
  exists r w1 tr,
    run (create dto sig key) w = (Fulfilled r, w1, tr)
    /\ (forall k, key = Some k -> k <> EmptyString ->
                  findOneByKey k (rows w1) = Some (webhook r))
    /\ (isNew r = false ->
        rows w1 = rows w /\ In (webhook r) (rows w)
        /\ exists k, key = Some k /\ k <> EmptyString
                     /\ findOneByKey k (rows w) = Some (webhook r))
    /\ (isNew r = true ->
        (exists at_, webhook r = stored d at_)
        /\ (forall k, key = Some k -> k <> EmptyString ->
                      findOneByKey k (rows w) = None)
        /\ findOneById (id (webhook r)) (rows w1) = Some (webhook r)
        /\ length (rows w1)
           = match findOneById (d_id d) (rows w) with
              | Some _ => length (rows w)
              | None => S (length (rows w))
              end
        /\ (unique_ids (rows w) -> unique_ids (rows w1))).
Proof.
  intros w0 d.
  assert (Hnew : violates_unique d (rows w0) = false ->
                 rows w0 = rows w ->
                 (forall k, key = Some k -> k <> EmptyString ->
                            findOneByKey k (rows w) = None) ->
                 forall tr0,
                 exists r w1 tr,
                   (let '(o, w2, tr2) := run (create_new dto sig key) w0 in
                    (o, w2, (tr0 ++ tr2)%list)) = (Fulfilled r, w1, tr)
                   /\ isNew r = true
                   /\ (forall k, key = Some k -> k <> EmptyString ->
                                 findOneByKey k (rows w1) = Some (webhook r))
                   /\ (exists at_, webhook r = stored d at_)
                   /\ findOneById (id (webhook r)) (rows w1) = Some (webhook r)
                   /\ length (rows w1)
                      = match findOneById (d_id d) (rows w) with
                         | Some _ => length (rows w)
                         | None => S (length (rows w))
                         end
                   /\ (unique_ids (rows w) -> unique_ids (rows w1))).
  { intros Hv Hrows Hmiss tr0.
    destruct (save_accepted_by_id (time_at w0 (S (steps w0))) d (rows w0) Hv)
      as (at_ & rows' & Hsave & Hbyid & Hlen & Hnd & Hbykey).
    destruct (run_create_new_accepted dto sig key w0 Hv)
      as (at2 & rows2 & Hsave2 & Hrun).
    fold d in Hsave2, Hrun.
    rewrite Hsave in Hsave2. inversion Hsave2; subst at2 rows2; clear Hsave2.
    rewrite Hrun, Hrows in *.
    eexists _, _, _. split; [reflexivity|]. cbn [isNew webhook rows next_world].
    split; [reflexivity|].
    split.
    { intros k -> Hne. apply Hbykey; [apply or_null_nonempty, Hne|].
      now apply Hmiss. }
    split; [now exists at_|].
    split; [exact Hbyid|]. split; [exact Hlen|exact Hnd]. }
  unfold create.
  destruct key as [k|].
  - destruct (Js.truthy (Some k)) eqn:Et.
    + assert (Hne : k <> EmptyString) by (intros ->; discriminate Et).
      cbn [run perform].
      destruct (findOneByKey k (rows w)) as [found|] eqn:Efind.
      * cbn [run].
        exists {| webhook := found; isNew := false |}, (next_world w (rows w)),
               [Called (FindOneByKey k)].
        split; [reflexivity|].
        split; [intros k' [= <-] _; exact Efind|]. split; [|discriminate].
        intros _. split; [reflexivity|].
        split; [apply find_some in Efind; tauto|].
        exists k. auto.
      * assert (Hw0 : w0 = next_world w (rows w))
          by (unfold w0, after_lookup; now rewrite Et).
        assert (Hk : d_idempotencyKey d = Some k) by (apply or_null_nonempty, Hne).
        assert (Hv : violates_unique d (rows w0) = false).
        { apply violates_unique_false_of_no_key with (k := k); [exact Hk|].
          now rewrite Hw0. }
        destruct (Hnew Hv) with (tr0 := [Called (FindOneByKey k)])
          as (r & w1 & tr & Hrun & Hisnew & Hkeyafter & Hst & Hbyid & Hlen & Hnd).
        { now rewrite Hw0. }
        { intros k' [= <-] _. exact Efind. }
        rewrite Hw0 in Hrun.
        destruct (run (create_new dto sig (Some k)) (next_world w (rows w)))
          as [[o w2] tr2].
        inversion Hrun; subst o w2 tr; clear Hrun.
        exists r, w1, (Called (FindOneByKey k) :: tr2).
        split; [reflexivity|].
        destruct Hst as [at_ Hst].
        split; [exact Hkeyafter|].
        split; [rewrite Hisnew; discriminate|].
        intros _. split; [now exists at_|].
        split; [intros k' [= <-] _; exact Efind|].
        auto.
    + assert (Hw0 : w0 = w) by (unfold w0, after_lookup; now rewrite Et).
      assert (Hv : violates_unique d (rows w0) = false).
      { apply violates_unique_null. unfold d, draft. cbn. unfold Js.or_null.
        now rewrite Et. }
      destruct (Hnew Hv) with (tr0 := @nil entry)
        as (r & w1 & tr & Hrun & Hisnew & Hkeyafter & Hst & Hbyid & Hlen & Hnd).
      { now rewrite Hw0. }
      { intros k' [= Hk'] Hne. subst k'. destruct k; [congruence|discriminate Et]. }
      rewrite Hw0 in Hrun.
      destruct (run (create_new dto sig (Some k)) w) as [[o w2] tr2].
      cbn [app] in Hrun. inversion Hrun; subst o w2 tr; clear Hrun.
      exists r, w1, tr2. split; [reflexivity|].
      destruct Hst as [at_ Hst].
      split; [exact Hkeyafter|].
      split; [rewrite Hisnew; discriminate|].
      intros _. split; [now exists at_|].
      split; [intros k' [= Hk'] Hne; subst k'; destruct k; [congruence|discriminate Et]|].
      auto.
  - assert (Hv : violates_unique d (rows w0) = false)
      by (apply violates_unique_null; reflexivity).
    destruct (Hnew Hv) with (tr0 := @nil entry)
      as (r & w1 & tr & Hrun & Hisnew & Hkeyafter & Hst & Hbyid & Hlen & Hnd).
    { reflexivity. }
    { discriminate. }
    change w0 with w in Hrun.
    destruct (run (create_new dto sig None) w) as [[o w2] tr2].
    cbn [app] in Hrun. inversion Hrun; subst o w2 tr; clear Hrun.
    exists r, w1, tr2. split; [reflexivity|].
    destruct Hst as [at_ Hst].
    split; [exact Hkeyafter|].
    split; [rewrite Hisnew; discriminate|].
    intros _. split; [now exists at_|].
    split; [discriminate|]. auto.
Qed.

End ServiceExtras.


Section ControllerExtras.
Import Repository Async AsyncOps WebhooksService ServiceClaims PageClaims PagingTerms.

Lemma run_controller_create dto sig key w :
  run (WebhooksController.create dto sig key) w
  = match run (create dto sig key) w with
    | (Fulfilled r, w1, tr) =>
        (Fulfilled {| WebhooksController.c_id := id (webhook r);
                      WebhooksController.c_message :=
                        if isNew r then "Webhook received"
                        else "Webhook already processed (idempotent)" |},
         w1, tr)
    | (Rejected e, w1, tr) => (Rejected e, w1, tr)
    end.
Proof.
  unfold WebhooksController.create. rewrite run_bind.
  destruct (run (create dto sig key) w) as [[[r|e] w1] tr]; [|reflexivity].
  cbn [run]. now rewrite app_nil_r.
Qed.

Lemma run_findOne i w :
  run (findOne i) w
  = (match findOneById i (rows w) with
     | Some r => Fulfilled r
     | None => Rejected (NotFoundException (not_found_message i))
     end, next_world w (rows w), [Called (FindOneById i)]).
Proof.
  unfold findOne. cbn [run perform].
  destruct (findOneById i (rows w)); reflexivity.
Qed.

Lemma run_controller_findOne i w :
  run (WebhooksController.findOne i) w
  = (match findOneById i (rows w) with
     | Some r => Fulfilled (fromEntity r)
     | None => Rejected (NotFoundException (not_found_message i))
     end, next_world w (rows w), [Called (FindOneById i)]).
Proof.
  unfold WebhooksController.findOne. rewrite run_bind, run_findOne.
  destruct (findOneById i (rows w)); reflexivity.
Qed.

(** X9: what POST stores, GET returns.  In a table with unique ids,
    after [create] has answered with an [id], [findOne] of that [id]
    succeeds with one lookup and no write and returns the record of that
    [id]; when the answer was "Webhook received" it carries the source,
    event and payload that were posted, with status pending. *)
Theorem X9_findOne_returns_what_create_stored dto sig key (w : World) :
  unique_ids (rows w) ->
  exists resp w1 tr1 got w2,
    run (WebhooksController.create dto sig key) w = (Fulfilled resp, w1, tr1)
    /\ run (WebhooksController.findOne (WebhooksController.c_id resp)) w1
       = (Fulfilled got, w2,
          [Called (FindOneById (WebhooksController.c_id resp))])
    /\ rows w2 = rows w1
    /\ r_id got = WebhooksController.c_id resp
    /\ (WebhooksController.c_message resp = "Webhook received" ->
        r_source got = dto_source dto /\ r_event got = dto_event dto
        /\ r_payload got = dto_payload dto /\ r_status got = pending).
Proof.
  intros Hnd.
  destruct (create_outcome dto sig key w) as (r & w1 & tr & Hrun & _ & Hold & Hnew).
  assert (Hby : findOneById (id (webhook r)) (rows w1) = Some (webhook r)).
  { destruct (isNew r) eqn:E.
    - now destruct (Hnew eq_refl) as (_ & _ & H & _).
    - destruct (Hold eq_refl) as (Hrows & Hin & _). rewrite Hrows.
      now apply find_id_of_In. }
  exists {| WebhooksController.c_id := id (webhook r);
            WebhooksController.c_message :=
              if isNew r then "Webhook received"
              else "Webhook already processed (idempotent)" |},
         w1, tr, (fromEntity (webhook r)), (next_world w1 (rows w1)).
  split; [now rewrite run_controller_create, Hrun|].
  cbn [WebhooksController.c_id WebhooksController.c_message].
  split; [now rewrite run_controller_findOne, Hby|].
  split; [reflexivity|]. split; [reflexivity|].
  intros Hmsg. destruct (isNew r) eqn:E; [|discriminate Hmsg].
  destruct (Hnew eq_refl) as ((at_ & Hst) & _). rewrite Hst.
  repeat split.
Qed.

Lemma X9_findOne_returns_what_create_stored_witness :
  exists resp w1 tr1 got w2,
    run (WebhooksController.create payment (Some "sig") (Some "k1")) empty_world
    = (Fulfilled resp, w1, tr1)
    /\ run (WebhooksController.findOne (WebhooksController.c_id resp)) w1
       = (Fulfilled got, w2,
          [Called (FindOneById (WebhooksController.c_id resp))])
    /\ rows w2 = rows w1
    /\ r_id got = WebhooksController.c_id resp
    /\ (WebhooksController.c_message resp = "Webhook received" ->
        r_source got = dto_source payment /\ r_event got = dto_event payment
        /\ r_payload got = dto_payload payment /\ r_status got = pending).
Proof.
  apply (X9_findOne_returns_what_create_stored payment (Some "sig") (Some "k1")
           empty_world).
  constructor.
Defined.

(** X10: [findOne] makes one lookup and never writes.  When no stored
    record has the [id] it rejects with NotFound and the message
    [Webhook with ID "<id>" not found]; otherwise it returns a record
    with that [id]. *)
Theorem X10_findOne_found_or_not_found (i : string) (w : World) :
  (exists o, run (findOne i) w = (o, next_world w (rows w), [Called (FindOneById i)]))
  /\ ((forall r, In r (rows w) -> id r <> i) ->
      fst (fst (run (findOne i) w))
      = Rejected (NotFoundException (not_found_message i))
      /\ fst (fst (run (WebhooksController.findOne i) w))
         = Rejected (NotFoundException (not_found_message i)))
  /\ (forall r, In r (rows w) -> id r = i ->
      exists r', In r' (rows w) /\ id r' = i
                 /\ fst (fst (run (findOne i) w)) = Fulfilled r'
                 /\ fst (fst (run (WebhooksController.findOne i) w))
                    = Fulfilled (fromEntity r')).
Proof.
  split; [|split].
  - rewrite run_findOne. eexists. reflexivity.
  - intros Hnone. apply find_id_none_iff in Hnone.
    now rewrite run_findOne, run_controller_findOne, Hnone.
  - intros r Hin Hid.
    destruct (findOneById i (rows w)) as [r'|] eqn:E.
    + exists r'. apply find_some in E as Hr'. destruct Hr' as [Hin' Hid'].
      apply has_id_eq in Hid'.
      rewrite run_findOne, run_controller_findOne, E. auto.
    + exfalso. apply (proj1 (find_id_none_iff i (rows w)) E r Hin Hid).
Qed.

Lemma X10_findOne_found_or_not_found_witness :
  fst (fst (run (findOne "non-existent-id") empty_world))
  = Rejected (NotFoundException (not_found_message "non-existent-id"))
  /\ exists r', In r' (rows RaceClaims.taken_world)
                /\ id r' = "00000000-0000-4000-8000-1"
                /\ fst (fst (run (findOne "00000000-0000-4000-8000-1")
                               RaceClaims.taken_world)) = Fulfilled r'
                /\ fst (fst (run (WebhooksController.findOne
                                    "00000000-0000-4000-8000-1")
                               RaceClaims.taken_world))
                   = Fulfilled (fromEntity r').
Proof.
  split.
  - destruct (X10_findOne_found_or_not_found "non-existent-id" empty_world)
      as (_ & H & _).
    apply H. intros r [].
  - destruct (X10_findOne_found_or_not_found "00000000-0000-4000-8000-1"
                RaceClaims.taken_world) as (_ & _ & H).
    eapply H; [left; reflexivity|reflexivity].
Defined.

(** X11: [count] after [create].  A [create] that finds its key in use
    leaves the number of records as it was; a [create] that stores a
    record raises it by one when the drawn identifier was not in use, and
    leaves it as it was when it was (the record of that identifier is
    then overwritten). *)
Theorem X11_count_after_create dto sig key (w : World) :
  exists r w1 tr,
    run (create dto sig key) w = (Fulfilled r, w1, tr)
    /\ fst (fst (run count w1))
       = Fulfilled
           (Z.of_nat (length (rows w))
            + (if isNew r
               then match findOneById (id (webhook r)) (rows w) with
                    | Some _ => 0
                    | None => 1
                    end
               else 0))%Z.
Proof.
  destruct (create_outcome dto sig key w) as (r & w1 & tr & Hrun & _ & Hold & Hnew).
  exists r, w1, tr. split; [exact Hrun|].
  unfold count. cbn [run perform fst]. f_equal.
  destruct (isNew r) eqn:E.
  - destruct (Hnew eq_refl) as ((at_ & Hst) & _ & _ & Hlen & _).
    rewrite Hlen, Hst. cbn [id stored].
    destruct (findOneById _ (rows w)); lia.
  - destruct (Hold eq_refl) as (-> & _). lia.
Qed.

(** X12: the two answers of the controller.  When no stored record has
    the (non-empty) key, the first [create] answers "Webhook received";
    a second [create] with the same key, whatever it posts, answers
    "Webhook already processed (idempotent)" with the same [id], after a
    single lookup. *)
Theorem X12_controller_messages dto1 sig1 dto2 sig2 (key : string) (w : World) :
  key <> EmptyString ->
  findOneByKey key (rows w) = None ->
  exists i w1 tr1 w2,
    run (WebhooksController.create dto1 sig1 (Some key)) w
    = (Fulfilled {| WebhooksController.c_id := i;
                    WebhooksController.c_message := "Webhook received" |},
       w1, tr1)
    /\ run (WebhooksController.create dto2 sig2 (Some key)) w1
       = (Fulfilled {| WebhooksController.c_id := i;
                       WebhooksController.c_message :=
                         "Webhook already processed (idempotent)" |},
          w2, [Called (FindOneByKey key)])
    /\ rows w2 = rows w1.
Proof.
  intros Hne Hmiss.
  destruct (create_outcome dto1 sig1 (Some key) w)
    as (r & w1 & tr & Hrun & Hafter & Hold & _).
  assert (Hisnew : isNew r = true).
  { destruct (isNew r) eqn:E; [reflexivity|].
    destruct (Hold eq_refl) as (_ & _ & k & [= <-] & _ & Hfound). congruence. }
  exists (id (webhook r)), w1, tr, (next_world w1 (rows w1)).
  split; [now rewrite run_controller_create, Hrun, Hisnew|].
  split; [|reflexivity].
  rewrite run_controller_create.
  now rewrite (run_create_existing dto2 sig2 key w1 (webhook r) Hne
                 (Hafter key eq_refl Hne)).
Qed.

Lemma X12_controller_messages_witness :
  exists i w1 tr1 w2,
    run (WebhooksController.create payment (Some "sig") (Some "k1")) empty_world
    = (Fulfilled {| WebhooksController.c_id := i;
                    WebhooksController.c_message := "Webhook received" |},
       w1, tr1)
    /\ run (WebhooksController.create refund None (Some "k1")) w1
       = (Fulfilled {| WebhooksController.c_id := i;
                       WebhooksController.c_message :=
                         "Webhook already processed (idempotent)" |},
          w2, [Called (FindOneByKey "k1")])
    /\ rows w2 = rows w1.
Proof.
  apply (X12_controller_messages payment (Some "sig") refund None "k1" empty_world);
    [discriminate|reflexivity].
Defined.

(** X13: the record that [create] stores.  When [create] answers
    [isNew = true], the record has the posted source, event and payload,
    status pending, the signature and the idempotency key it was given,
    each stored as null when absent or empty, and it is in the table. *)
Theorem X13_created_record_fields dto sig key (w : World) :
  exists r w1 tr,
    run (create dto sig key) w = (Fulfilled r, w1, tr)
    /\ (isNew r = true ->
        In (webhook r) (rows w1)
        /\ source (webhook r) = dto_source dto
        /\ event (webhook r) = dto_event dto
        /\ payload (webhook r) = dto_payload dto
        /\ status (webhook r) = pending
        /\ signature (webhook r) = (if Js.truthy sig then sig else None)
        /\ idempotencyKey (webhook r) = (if Js.truthy key then key else None)).
Proof.
  destruct (create_outcome dto sig key w) as (r & w1 & tr & Hrun & _ & _ & Hnew).
  exists r, w1, tr. split; [exact Hrun|].
  intros E. destruct (Hnew E) as ((at_ & Hst) & _ & Hby & _).
  split; [unfold findOneById in Hby; apply find_some in Hby; tauto|].
  rewrite Hst. repeat split.
Qed.

Lemma X13_created_record_fields_witness :
  exists r w1 tr,
    run (create payment (Some EmptyString) None) empty_world = (Fulfilled r, w1, tr)
    /\ isNew r = true
    /\ signature (webhook r) = None
    /\ idempotencyKey (webhook r) = None
    /\ status (webhook r) = pending.
Proof.
  destruct (X13_created_record_fields payment (Some EmptyString) None empty_world)
    as (r & w1 & tr & Hrun & H).
  exists r, w1, tr. split; [exact Hrun|].
  assert (E : isNew r = true).
  { vm_compute in Hrun. inversion Hrun. reflexivity. }
  destruct (H E) as (_ & _ & _ & _ & Hs & Hsig & Hkey).
  auto.
Defined.

End ControllerExtras.


(** ** findAll: filters and pages *)

Section FindAllExtras.
Import Repository Async WebhooksService ServiceClaims PageClaims PagingTerms.

Lemma run_findAll w page limit src ev :
  run (findAll (page_query page limit src ev)) w
  = (Fulfilled
       {| data :=
            List.map fromEntity
              (limit_rows limit
                 (offset_rows ((page - 1) * limit)
                    (sort_rows DESC (tie_at w (steps w))
                       (List.filter (selected src ev) (rows w)))));
          meta :=
            {| total := Z.of_nat (length (List.filter (selected src ev) (rows w)));
               page := page; limit := limit;
               totalPages :=
                 Math_ceil_div
                   (Z.of_nat (length (List.filter (selected src ev) (rows w))))
                   limit |} |},
     next_world w (rows w),
     [Called (GetManyAndCount (built_query page limit src ev))]).
Proof.
  rewrite findAll_unfold. cbn [run perform].
  now rewrite getManyAndCount_built.
Qed.

Lemma findAll_defaults q :
  findAll q
  = findAll (page_query (default 1 (q_page q)) (default 20 (q_limit q))
               (q_source q) (q_event q)).
Proof. destruct q as [[p|] [l|] s e]; reflexivity. Qed.

Lemma selected_iff src ev r :
  selected src ev r = true
  <-> (forall s, src = Some s -> s <> EmptyString -> source r = s)
      /\ (forall e, ev = Some e -> e <> EmptyString -> event r = e).
Proof.
  unfold selected, matches. cbn [where_source where_event].
  rewrite andb_true_iff.
  assert (H : forall (f : Js.maybe_string) (v : string),
            match Js.or_null f with
            | Some s => String.eqb v s
            | None => true
            end = true
            <-> (forall s, f = Some s -> s <> EmptyString -> v = s)).
  { intros [[|c s]|] v; cbn.
    - split; [intros _ s [= <-] Hne; congruence|reflexivity].
    - rewrite String.eqb_eq. split.
      + intros -> s' [= <-] _. reflexivity.
      + intros H. apply (H _ eq_refl). discriminate.
    - split; [discriminate|reflexivity]. }
  now rewrite !H.
Qed.

(** Whatever the offset and the limit, a returned row is one of the
    rows offered. *)
Lemma in_page_in_rows (x : Webhook) n m l l' :
  Permutation l l' -> In x (limit_rows n (offset_rows m l)) -> In x l'.
Proof.
  intros Hp Hx. apply (Permutation_in _ Hp).
  unfold offset_rows in Hx.
  rewrite <- (firstn_skipn (Z.to_nat m) l). apply in_or_app. right.
  unfold limit_rows in Hx. destruct (0 <? n)%Z; [|exact Hx].
  rewrite <- (firstn_skipn (Z.to_nat n) (skipn (Z.to_nat m) l)).
  apply in_or_app. now left.
Qed.

(** Rows with pairwise distinct [receivedAt] have one order from newest
    to oldest. *)
Lemma newest_first_unique (l1 : list Webhook) : forall l2,
  Permutation l1 l2 ->
  StronglySorted newer_first l1 -> StronglySorted newer_first l2 ->
  NoDup (List.map receivedAt l1) ->
  l1 = l2.
Proof.
  induction l1 as [|a l1 IH]; intros l2 Hp Hs1 Hs2 Hnd.
  - now apply Permutation_nil in Hp.
  - destruct l2 as [|b l2].
    { symmetry in Hp. now apply Permutation_nil in Hp. }
    apply StronglySorted_inv in Hs1 as [Hs1 Ha].
    apply StronglySorted_inv in Hs2 as [Hs2 Hb].
    rewrite List.Forall_forall in Ha, Hb.
    cbn [List.map] in Hnd. apply NoDup_cons in Hnd as [Hnotin Hnd].
    rewrite list_elem_of_In in Hnotin.
    assert (Hab : a = b).
    { assert (Hin : In b (a :: l1))
        by (apply (Permutation_in _ (Permutation_sym Hp)); now left).
      destruct Hin as [Heq|Hin]; [exact Heq|].
      exfalso. apply Hnotin.
      assert (Hin' : In a (b :: l2))
        by (apply (Permutation_in _ Hp); now left).
      assert (Hle : (receivedAt a <= receivedAt b)%Z).
      { destruct Hin' as [<-|Hin']; [lia|]. apply (Hb _ Hin'). }
      pose proof (Ha _ Hin) as Hge. unfold newer_first in Hge.
      replace (receivedAt a) with (receivedAt b) by lia.
      now apply in_map. }
    subst b. f_equal.
    apply IH; [now apply Permutation_cons_inv in Hp|exact Hs1|exact Hs2|exact Hnd].
Qed.

End FindAllExtras.

Section FindAllExtras2.
Import Repository Async WebhooksService ServiceClaims PageClaims PagingTerms.

(** X14: filters and defaults of [findAll].  For every query, whatever
    its page and limit, every record returned is a stored record that
    has the asked source and the asked event (a filter that is absent or
    empty asks nothing).  An absent page or limit stands for page 1 and
    limit 20: the query makes the repository call of the query that
    names them, and returns its records and metadata.  When the page and
    the limit are at least 1, [total] counts exactly the stored records
    that have the asked source and event. *)
Theorem X14_findAll_filters_and_defaults (q : QueryWebhookDto) (w : World) :
  exists res,
    fst (fst (run (findAll q) w)) = Fulfilled res
    /\ run (findAll q) w
       = run (findAll (page_query (default 1 (q_page q)) (default 20 (q_limit q))
                         (q_source q) (q_event q))) w
    /\ page (meta res) = default 1 (q_page q)
    /\ limit (meta res) = default 20 (q_limit q)
    /\ (forall r, selected (q_source q) (q_event q) r = true
                  <-> (forall s, q_source q = Some s -> s <> EmptyString -> source r = s)
                      /\ (forall e, q_event q = Some e -> e <> EmptyString -> event r = e))
    /\ (forall x, In x (data res) ->
          exists r, In r (rows w) /\ x = fromEntity r
                    /\ selected (q_source q) (q_event q) r = true)
    /\ ((1 <= default 1 (q_page q))%Z -> (1 <= default 20 (q_limit q))%Z ->
        total (meta res)
        = Z.of_nat (length (List.filter (selected (q_source q) (q_event q)) (rows w)))).
Proof.
  rewrite <- findAll_defaults.
  rewrite (findAll_defaults q), run_findAll. cbn [fst].
  eexists. split; [reflexivity|]. cbn [meta data page limit total].
  split; [reflexivity|].
  split; [reflexivity|]. split; [reflexivity|].
  split; [intros r; apply selected_iff|].
  split; [|reflexivity].
  intros x Hx. apply in_map_iff in Hx as (r & <- & Hr).
  exists r. split; [|split; [reflexivity|]].
  - eapply in_page_in_rows in Hr; [|apply sort_rows_perm].
    apply filter_In in Hr. tauto.
  - eapply in_page_in_rows in Hr; [|apply sort_rows_perm].
    apply filter_In in Hr. tauto.
Qed.

Lemma X14_findAll_filters_and_defaults_witness :
  exists res,
    fst (fst (run (findAll {| q_page := None; q_limit := None;
                              q_source := Some "stripe"; q_event := None |})
                world25)) = Fulfilled res
    /\ page (meta res) = 1%Z /\ limit (meta res) = 20%Z
    /\ length (data res) = 20
    /\ total (meta res) = 25%Z.
Proof.
  destruct (X14_findAll_filters_and_defaults
              {| q_page := None; q_limit := None;
                 q_source := Some "stripe"; q_event := None |} world25)
    as (res & Hres & Hrun & Hp & Hl & _ & _ & Htotal).
  exists res. split; [exact Hres|]. split; [exact Hp|]. split; [exact Hl|].
  split.
  - vm_compute in Hres. injection Hres as <-. reflexivity.
  - rewrite Htotal; [vm_compute; reflexivity|cbn; lia|cbn; lia].
Defined.

Lemma chunks_concat {A} (L : nat) : forall (n : nat) (l : list A),
  0 < L -> length l <= n * L ->
  concat (List.map (fun i => firstn L (skipn (i * L) l)) (seq 0 n)) = l.
Proof.
  induction n as [|n IH]; intros l HL Hlen.
  - destruct l; [reflexivity|cbn in Hlen; lia].
  - assert (Hrest := IH (skipn L l) HL).
    rewrite length_skipn in Hrest. specialize (Hrest ltac:(lia)).
    cbn [seq List.map concat].
    etransitivity; [|apply (firstn_skipn L l)].
    f_equal.
    etransitivity; [|exact Hrest].
    rewrite <- seq_shift, List.map_map.
    f_equal. apply List.map_ext. intros i.
    rewrite skipn_skipn. do 2 f_equal. lia.
Qed.

Lemma page_data_eq w limit src ev p :
  page_data w limit src ev p
  = List.map fromEntity
      (limit_rows limit
         (offset_rows ((Z.of_nat p - 1) * limit)
            (sort_rows DESC (tie_at w (steps w))
               (List.filter (selected src ev) (rows w))))).
Proof. unfold page_data. now rewrite run_findAll. Qed.

(** X15: the pages partition the result.  Let pages 1 to [totalPages] be
    read one after the other with the same filters and a limit of at
    least 1, each by a query of its own, while the table stays as it is.
    If no two matching records have the same [receivedAt], the pages put
    end to end are the matching records, each exactly once, from newest
    to oldest, whatever the database does at each query: nothing is
    skipped or repeated at a page boundary. *)
Theorem X15_pages_partition_the_records (stored : table) (reads : nat -> World)
    (limit : Z) (src ev : Js.maybe_string) :
  (1 <= limit)%Z ->
  (forall p, rows (reads p) = stored) ->
  NoDup (List.map receivedAt (List.filter (selected src ev) stored)) ->
  exists tp ordered,
    Math_ceil_div (Z.of_nat (length (List.filter (selected src ev) stored))) limit
    = Finite tp
    /\ Permutation ordered (List.filter (selected src ev) stored)
    /\ StronglySorted newer_first ordered
    /\ concat (List.map (fun p => page_data (reads p) limit src ev p)
                 (seq 1 (Z.to_nat tp)))
       = List.map fromEntity ordered.
Proof.
  intros Hl Hrows Hnd.
  set (matching := List.filter (selected src ev) stored) in *.
  set (ordered := sort_rows DESC (fun _ => 0%Z) matching).
  destruct (Math_ceil_div_spec (Z.of_nat (length matching)) limit Hl)
    as (tp & Htp & Hb).
  exists tp, ordered.
  assert (Hperm : Permutation ordered matching) by apply sort_rows_perm.
  assert (Hsorted : StronglySorted newer_first ordered) by apply sort_rows_desc.
  split; [exact Htp|]. split; [exact Hperm|]. split; [exact Hsorted|].
  assert (Hsame : forall tie, sort_rows DESC tie matching = ordered).
  { intros tie. symmetry. apply newest_first_unique.
    - rewrite Hperm. symmetry. apply sort_rows_perm.
    - exact Hsorted.
    - apply sort_rows_desc.
    - assert (Hpm : Permutation (List.map receivedAt ordered)
                                (List.map receivedAt matching))
        by now apply Permutation_map.
      rewrite Hpm. exact Hnd. }
  assert (Hlen : length ordered = length matching)
    by now apply Permutation_length.
  assert (Hc := chunks_concat (Z.to_nat limit) (Z.to_nat tp) ordered
                  ltac:(lia) ltac:(rewrite Hlen; nia)).
  transitivity
    (List.map fromEntity
       (concat (List.map (fun i => firstn (Z.to_nat limit)
                                     (skipn (i * Z.to_nat limit) ordered))
                  (seq 0 (Z.to_nat tp)))));
    [|now rewrite Hc].
  rewrite concat_map, List.map_map, <- seq_shift, List.map_map.
  f_equal. apply List.map_ext. intros i.
  rewrite page_data_eq, Hrows. fold matching. rewrite Hsame.
  rewrite (limit_rows_pos limit _ Hl). unfold offset_rows. do 3 f_equal.
  replace ((Z.of_nat (S i) - 1) * limit)%Z with (Z.of_nat i * limit)%Z by lia.
  rewrite Z2Nat.inj_mul by lia. now rewrite Nat2Z.id.
Qed.

Lemma X15_pages_partition_the_records_witness :
  exists ordered,
    Permutation ordered (rows world25)
    /\ StronglySorted newer_first ordered
    /\ concat (List.map (fun p => page_data (reread world25 p) 10 None None p)
                 (seq 1 3))
       = List.map fromEntity ordered.
Proof.
  destruct (X15_pages_partition_the_records (rows world25) (reread world25)
              10 None None) as (tp & ordered & Htp & Hperm & Hsorted & H).
  - lia.
  - intros p. reflexivity.
  - apply (bool_decide_unpack _). vm_compute. exact I.
  - vm_compute in Htp. inversion Htp; subst tp.
    exists ordered. split; [exact Hperm|]. split; [exact Hsorted|exact H].
Defined.

(** X16: a page past the last one is empty, not an error: when
    [(page - 1) * limit] reaches the number of matching records,
    [findAll] returns no record, with the same [total]. *)
Theorem X16_page_past_the_end_is_empty (w : World) (page limit : Z)
    (src ev : Js.maybe_string) :
  (1 <= page)%Z -> (1 <= limit)%Z ->
  (Z.of_nat (length (List.filter (selected src ev) (rows w)))
   <= (page - 1) * limit)%Z ->
  exists res,
    fst (fst (run (findAll (page_query page limit src ev)) w)) = Fulfilled res
    /\ data res = []
    /\ total (meta res)
       = Z.of_nat (length (List.filter (selected src ev) (rows w))).
Proof.
  intros Hp Hl Hpast. rewrite run_findAll. cbn [fst].
  eexists. split; [reflexivity|]. cbn [data meta total]. split; [|reflexivity].
  rewrite (limit_rows_pos limit _ Hl). unfold offset_rows.
  rewrite skipn_all2; [now rewrite firstn_nil|].
  rewrite (Permutation_length (sort_rows_perm DESC _ _)). lia.
Qed.

Lemma X16_page_past_the_end_is_empty_witness :
  exists res,
    fst (fst (run (findAll (page_query 4 10 None None)) world25)) = Fulfilled res
    /\ data res = []
    /\ total (meta res) = 25%Z.
Proof.
  apply (X16_page_past_the_end_is_empty world25 4 10 None None);
    [lia|lia|vm_compute; discriminate].
Defined.

End FindAllExtras2.


(** ** The idempotency interceptor in front of the controller *)

Section PipelineExtras.
Import Repository Async AsyncOps WebhooksService ServiceClaims PagingTerms.
Import IdempotencyInterceptor GateClaims CacheClaims PipelineTerms.

Lemma handle_create_outcome dto sig key w :
  exists r w1 tr,
    run (create dto sig key) w = (Fulfilled r, w1, tr)
    /\ handle_create dto sig key w
       = (Emits {| WebhooksController.c_id := id (webhook r);
                   WebhooksController.c_message :=
                     if isNew r then "Webhook received"
                     else "Webhook already processed (idempotent)" |}, w1).
Proof.
  destruct (create_outcome dto sig key w) as (r & w1 & tr & Hrun & _).
  exists r, w1, tr. split; [exact Hrun|].
  unfold handle_create. now rewrite run_controller_create, Hrun.
Qed.

(** X17: a duplicate delivery within 24 hours.  When a POST with a
    non-empty key misses the cache, the controller's answer is stored;
    a second POST with that key, whatever it carries, arriving within 24
    hours receives the very same answer (same [id] and same message, so
    "Webhook received" again when the first was new) and reaches neither
    the controller nor the table. *)
Theorem X17_duplicate_within_ttl_gets_first_answer
    cache dto1 sig1 dto2 sig2 (key : string) now1 later1 now2 later2 (w : World) :
  key <> EmptyString ->
  cleanExpiredEntries now1 cache !! key = None ->
  (now2 - later1 <= TTL)%Z ->
  exists resp cache1 w1,
    intercept cache (post (Some key)) (handle_create dto1 sig1 (Some key))
      now1 later1 w = (Emits resp, cache1, w1)
    /\ intercept cache1 (post (Some key)) (handle_create dto2 sig2 (Some key))
         now2 later2 w1 = (Emits resp, cleanExpiredEntries now2 cache1, w1)
    /\ (findOneByKey key (rows w) = None ->
        WebhooksController.c_message resp = "Webhook received").
Proof.
  intros Hne Hmiss Hfresh.
  destruct (handle_create_outcome dto1 sig1 (Some key) w)
    as (r & w1 & tr & Hrun & Hh).
  destruct (create_outcome dto1 sig1 (Some key) w)
    as (r' & w1' & tr' & Hrun' & _ & Hold & _).
  rewrite Hrun in Hrun'. inversion Hrun'; subst r' w1' tr'; clear Hrun'.
  assert (Hm : mutating (method (post (Some key)))) by (left; reflexivity).
  eexists _, _, w1. split; [|split].
  - rewrite (intercept_keyed cache (post (Some key)) _ now1 later1 w key Hm eq_refl Hne).
    cbv zeta. rewrite Hmiss, Hh. reflexivity.
  - rewrite (intercept_keyed _ (post (Some key)) _ now2 later2 w1 key Hm eq_refl Hne).
    cbv zeta.
    match goal with
    | |- context [cleanExpiredEntries now2 ?c !! key] =>
        assert (Hs : cleanExpiredEntries now2 c !! key
                     = Some {| data := {| WebhooksController.c_id := id (webhook r);
                                          WebhooksController.c_message :=
                                            if isNew r then "Webhook received"
                                            else "Webhook already processed (idempotent)" |};
                               timestamp := later1 |})
    end.
    { apply lookup_cleanExpiredEntries. split; [apply lookup_insert_eq|exact Hfresh]. }
    rewrite Hs. reflexivity.
  - intros Hnone. cbn [WebhooksController.c_message].
    destruct (isNew r) eqn:E; [reflexivity|].
    destruct (Hold eq_refl) as (_ & _ & k & [= <-] & _ & Hfound). congruence.
Qed.

(** X18: a duplicate delivery after 24 hours.  Once the stored answer is
    older than 24 hours, a POST with the same key reaches the controller
    again; the service finds the record by its key, so the answer has
    the same [id] with the message "Webhook already processed
    (idempotent)", the table is unchanged, and this answer is the one
    now stored under the key. *)
Theorem X18_duplicate_after_ttl_is_deduplicated_by_service
    cache dto1 sig1 dto2 sig2 (key : string) now1 later1 now2 later2 (w : World) :
  key <> EmptyString ->
  cleanExpiredEntries now1 cache !! key = None ->
  (now2 - later1 > TTL)%Z ->
  exists resp cache1 w1 cache2 w2,
    intercept cache (post (Some key)) (handle_create dto1 sig1 (Some key))
      now1 later1 w = (Emits resp, cache1, w1)
    /\ intercept cache1 (post (Some key)) (handle_create dto2 sig2 (Some key))
         now2 later2 w1
       = (Emits {| WebhooksController.c_id := WebhooksController.c_id resp;
                   WebhooksController.c_message :=
                     "Webhook already processed (idempotent)" |}, cache2, w2)
    /\ rows w2 = rows w1
    /\ cache2 !! key
       = Some {| data := {| WebhooksController.c_id := WebhooksController.c_id resp;
                            WebhooksController.c_message :=
                              "Webhook already processed (idempotent)" |};
                 timestamp := later2 |}.
Proof.
  intros Hne Hmiss Hexp.
  destruct (handle_create_outcome dto1 sig1 (Some key) w)
    as (r & w1 & tr & Hrun & Hh).
  destruct (create_outcome dto1 sig1 (Some key) w)
    as (r' & w1' & tr' & Hrun' & Hafter & _).
  rewrite Hrun in Hrun'. inversion Hrun'; subst r' w1' tr'; clear Hrun'.
  assert (Hm : mutating (method (post (Some key)))) by (left; reflexivity).
  assert (H2 : handle_create dto2 sig2 (Some key) w1
               = (Emits {| WebhooksController.c_id := id (webhook r);
                           WebhooksController.c_message :=
                             "Webhook already processed (idempotent)" |},
                  next_world w1 (rows w1))).
  { unfold handle_create. rewrite run_controller_create.
    now rewrite (run_create_existing dto2 sig2 key w1 (webhook r) Hne
                   (Hafter key eq_refl Hne)). }
  eexists _, _, w1, _, (next_world w1 (rows w1)).
  split; [|split; [|split]].
  - rewrite (intercept_keyed cache (post (Some key)) _ now1 later1 w key Hm eq_refl Hne).
    cbv zeta. rewrite Hmiss, Hh. reflexivity.
  - rewrite (intercept_keyed _ (post (Some key)) _ now2 later2 w1 key Hm eq_refl Hne).
    cbv zeta.
    match goal with
    | |- context [cleanExpiredEntries now2 ?c !! key] =>
        assert (Hs : cleanExpiredEntries now2 c !! key = None)
    end.
    { match goal with
      | |- ?m !! key = None => destruct (m !! key) as [e|] eqn:E; [|reflexivity]
      end.
      apply lookup_cleanExpiredEntries in E as [E1 E2].
      rewrite lookup_insert_eq in E1. inversion E1; subst e. cbn in E2. lia. }
    rewrite Hs, H2. reflexivity.
  - reflexivity.
  - apply lookup_insert_eq.
Qed.

End PipelineExtras.

Section PipelineWitnesses.
Import Repository Async WebhooksService ServiceClaims.
Import IdempotencyInterceptor CacheClaims PipelineTerms.

Lemma X17_duplicate_within_ttl_gets_first_answer_witness :
  exists resp cache1 w1,
    intercept cold_cache (post (Some "k2")) (handle_create payment None (Some "k2"))
      sample_now sample_now empty_world = (Emits resp, cache1, w1)
    /\ intercept cache1 (post (Some "k2")) (handle_create refund None (Some "k2"))
         (sample_now + 5) (sample_now + 6) w1
       = (Emits resp, cleanExpiredEntries (sample_now + 5) cache1, w1)
    /\ (findOneByKey "k2" (rows empty_world) = None ->
        WebhooksController.c_message resp = "Webhook received").
Proof.
  apply (X17_duplicate_within_ttl_gets_first_answer cold_cache payment None
           refund None "k2" sample_now sample_now (sample_now + 5) (sample_now + 6)
           empty_world).
  - discriminate.
  - vm_compute. reflexivity.
  - vm_compute. discriminate.
Defined.

Lemma X18_duplicate_after_ttl_is_deduplicated_by_service_witness :
  exists resp cache1 w1 cache2 w2,
    intercept cold_cache (post (Some "k2")) (handle_create payment None (Some "k2"))
      sample_now sample_now empty_world = (Emits resp, cache1, w1)
    /\ intercept cache1 (post (Some "k2")) (handle_create refund None (Some "k2"))
         (2 * sample_now) (2 * sample_now) w1
       = (Emits {| WebhooksController.c_id := WebhooksController.c_id resp;
                   WebhooksController.c_message :=
                     "Webhook already processed (idempotent)" |}, cache2, w2)
    /\ rows w2 = rows w1
    /\ cache2 !! "k2"
       = Some {| data := {| WebhooksController.c_id := WebhooksController.c_id resp;
                            WebhooksController.c_message :=
                              "Webhook already processed (idempotent)" |};
                 timestamp := 2 * sample_now |}.
Proof.
  apply (X18_duplicate_after_ttl_is_deduplicated_by_service cold_cache payment
           None refund None "k2" sample_now sample_now (2 * sample_now)
           (2 * sample_now) empty_world).
  - discriminate.
  - vm_compute. reflexivity.
  - vm_compute. reflexivity.
Defined.

End PipelineWitnesses.


(** ** HttpExceptionFilter and RequestIdMiddleware *)

Section FilterExtras.
Import HttpExceptionFilter FilterTerms.

(** X19: an exception that is not an [HttpException] is answered with
    status 500 and the message "Internal server error", without
    [errors] or [errorCode]: the body does not depend on the message or
    the stack of the error, which only reach the log. *)
Theorem X19_unexpected_errors_are_not_disclosed
    (m1 m2 : string) (s1 s2 : Js.maybe_string) (request : Request)
    (log_now now : string) :
  let resp := fst (catch (Error m1 s1) request log_now now) in
  statusCode resp = 500%Z
  /\ message resp = "Internal server error"
  /\ errors resp = None /\ errorCode resp = None
  /\ fst (catch (Error m2 s2) request log_now now) = resp
  /\ fst (catch NotAnError request log_now now) = resp
  /\ snd (catch (Error m1 s1) request log_now now)
     = [unhandled_line (or_else (req_requestId request) "unknown") m1 s1 log_now]
  /\ snd (catch NotAnError request log_now now) = [].
Proof. cbv zeta. repeat split. Qed.

(** X20: a denial by the signature guard is answered with status 403
    and the guard's message, one of "Webhook signature is required" and
    "Invalid webhook signature"; nothing is logged by the filter. *)
Theorem X20_guard_denial_is_403 {Body : Type} (JSON_stringify : Body -> string)
    (svc : SignatureService.t) (skip : option bool)
    (guarded : SignatureGuard.Request Body) (e : SignatureGuard.exception)
    (request : Request) (log_now now : string) :
  SignatureGuard.canActivate JSON_stringify svc skip guarded
  = SignatureGuard.Throws e ->
  let resp := fst (catch (of_guard e) request log_now now) in
  statusCode resp = 403%Z
  /\ (message resp = "Webhook signature is required"
      \/ message resp = "Invalid webhook signature")
  /\ SignatureGuard.ForbiddenException (message resp) = e
  /\ errors resp = None
  /\ snd (catch (of_guard e) request log_now now) = [].
Proof.
  unfold SignatureGuard.canActivate. intros H.
  assert (He : e = SignatureGuard.ForbiddenException "Webhook signature is required"
               \/ e = SignatureGuard.ForbiddenException "Invalid webhook signature").
  { repeat match type of H with
           | (if ?b then _ else _) = _ => destruct b
           end; inversion H; auto. }
  cbv zeta. destruct He as [-> | ->]; repeat split; auto.
Qed.

End FilterExtras.

Section FilterExtras2.
Import HttpExceptionFilter FilterTerms.
Import Repository Async WebhooksService ServiceClaims PagingTerms.

Lemma X20_guard_denial_is_403_witness :
  let resp := fst (catch (of_guard
                            (SignatureGuard.ForbiddenException
                               "Webhook signature is required"))
                     {| req_requestId := None; req_url := "/api/v1/webhooks" |}
                     "t0" "t1") in
  statusCode resp = 403%Z
  /\ (message resp = "Webhook signature is required"
      \/ message resp = "Invalid webhook signature")
  /\ SignatureGuard.ForbiddenException (message resp)
     = SignatureGuard.ForbiddenException "Webhook signature is required"
  /\ errors resp = None
  /\ snd (catch (of_guard
                   (SignatureGuard.ForbiddenException
                      "Webhook signature is required"))
            {| req_requestId := None; req_url := "/api/v1/webhooks" |}
            "t0" "t1") = [].
Proof.
  apply (X20_guard_denial_is_403 Json.stringify test_service None
           GateClaims.empty_signature_post).
  reflexivity.
Defined.

(** X21: the service's failures, as the client sees them.  [findOne] of
    an [id] that no stored record has is answered 404 with the message
    [Webhook with ID "<id>" not found]; a [create] whose save is rejected
    by the unique index is answered 500 "Internal server error", whatever
    the driver reports. *)
Theorem X21_service_failures_as_responses
    (request : Request) (log_now now driver_message : string)
    (stack : Js.maybe_string) :
  (forall i (w : World) e,
     (forall r, In r (rows w) -> id r <> i) ->
     fst (fst (run (WebhooksController.findOne i) w)) = Rejected e ->
     let resp := fst (catch (of_service e driver_message stack) request log_now now) in
     statusCode resp = 404%Z /\ message resp = not_found_message i
     /\ errors resp = None)
  /\ (forall dto sig key (w : World) e,
        violates_unique (draft dto sig key (uuid_at w (steps w))) (rows w) = true ->
        fst (fst (run (create_new dto sig key) w)) = Rejected e ->
        let resp := fst (catch (of_service e driver_message stack) request log_now now) in
        statusCode resp = 500%Z /\ message resp = "Internal server error"
        /\ errors resp = None).
Proof.
  split.
  - intros i w e Hnone Hrun. apply find_id_none_iff in Hnone.
    rewrite run_controller_findOne, Hnone in Hrun. cbn [fst] in Hrun.
    inversion Hrun; subst e. cbv zeta. repeat split.
  - intros dto sig key w e Hv Hrun.
    rewrite (run_create_new_rejected dto sig key w Hv) in Hrun. cbn [fst] in Hrun.
    inversion Hrun; subst e. cbv zeta. repeat split.
Qed.

Lemma X21_service_failures_as_responses_witness :
  let request := {| req_requestId := Some "req-1";
                    req_url := "/api/v1/webhooks/non-existent-id" |} in
  (let resp := fst (catch (of_service
                             (NotFoundException (not_found_message "non-existent-id"))
                             "SQLITE_CONSTRAINT" None)
                      request "t0" "t1") in
   statusCode resp = 404%Z /\ message resp = not_found_message "non-existent-id"
   /\ errors resp = None)
  /\ (let resp := fst (catch (of_service
                                (QueryFailed (UniqueConstraintFailed "idempotencyKey"))
                                "SQLITE_CONSTRAINT" None)
                         request "t0" "t1") in
      statusCode resp = 500%Z /\ message resp = "Internal server error"
      /\ errors resp = None).
Proof.
  intros request.
  destruct (X21_service_failures_as_responses request "t0" "t1"
              "SQLITE_CONSTRAINT" None) as (H1 & H2).
  split.
  - apply (H1 "non-existent-id" empty_world); [intros r []|reflexivity].
  - apply (H2 payment (Some "sig") (Some "k1") RaceClaims.taken_world);
      vm_compute; reflexivity.
Defined.

(** X22: the request id in an error body.  After the middleware has run
    (with a generated identifier that is not empty) the [requestId] of
    every error body equals the [X-Request-ID] response header; it is the
    client's [X-Request-ID] when that header is present and not empty, and
    the generated identifier otherwise.  Without the middleware it is
    "unknown". *)
Theorem X22_request_id_is_echoed
    (header : Js.maybe_string) (uuid url : string) (exception : thrown)
    (log_now now : string) :
  uuid <> EmptyString ->
  let eff := RequestIdMiddleware.use header uuid in
  let resp := fst (catch exception (tagged eff url) log_now now) in
  requestId resp = RequestIdMiddleware.res_X_Request_ID eff
  /\ RequestIdMiddleware.req_requestId eff = RequestIdMiddleware.res_X_Request_ID eff
  /\ (forall h, header = Some h -> h <> EmptyString -> requestId resp = h)
  /\ (header = None \/ header = Some EmptyString -> requestId resp = uuid)
  /\ requestId (fst (catch exception {| req_requestId := None; req_url := url |}
                       log_now now)) = "unknown".
Proof.
  intros Hu. cbv zeta.
  assert (Hreq : forall r, requestId (fst (catch exception r log_now now))
                           = or_else (req_requestId r) "unknown").
  { intros r. unfold catch.
    destruct exception as [st [s|[|s|items] ec] m|m st|]; reflexivity. }
  rewrite !Hreq. cbn [tagged req_requestId RequestIdMiddleware.use
                        RequestIdMiddleware.req_requestId
                        RequestIdMiddleware.res_X_Request_ID].
  assert (Hnonempty : or_else header uuid <> EmptyString).
  { destruct header as [[|c h]|]; cbn; [exact Hu|discriminate|exact Hu]. }
  assert (Hid : or_else (Some (or_else header uuid)) "unknown" = or_else header uuid).
  { destruct (or_else header uuid); [congruence|reflexivity]. }
  rewrite Hid. split; [reflexivity|]. split; [reflexivity|]. split; [|split].
  - intros h -> Hne. destruct h; [congruence|reflexivity].
  - intros [-> | ->]; reflexivity.
  - reflexivity.
Qed.

Lemma X22_request_id_is_echoed_witness :
  requestId (fst (catch NotAnError
                    (tagged (RequestIdMiddleware.use (Some "client-7") "generated")
                       "/api/v1/webhooks") "t0" "t1")) = "client-7"
  /\ requestId (fst (catch NotAnError
                       (tagged (RequestIdMiddleware.use None "generated")
                          "/api/v1/webhooks") "t0" "t1")) = "generated".
Proof.
  split.
  - destruct (X22_request_id_is_echoed (Some "client-7") "generated"
                "/api/v1/webhooks" NotAnError "t0" "t1") as (_ & _ & H & _).
    + discriminate.
    + apply (H "client-7"); [reflexivity|discriminate].
  - destruct (X22_request_id_is_echoed None "generated"
                "/api/v1/webhooks" NotAnError "t0" "t1") as (_ & _ & _ & H & _).
    + discriminate.
    + apply H. now left.
Defined.

End FilterExtras2.


(** ** LoggingInterceptor: what reaches the log *)

Section LoggingExtras.
Import LoggingInterceptor LogTerms.

Lemma redact_loop fields : forall ms,
  fold_left (fun sanitized field => assign_if_present field redacted sanitized)
    fields ms
  = List.map (fun kv => if existsb (String.eqb kv.1) fields
                        then (kv.1, redacted) else kv) ms.
Proof.
  induction fields as [|f fields IH]; intros ms; cbn [fold_left existsb].
  - symmetry. apply map_id.
  - rewrite IH. unfold assign_if_present. rewrite List.map_map.
    apply List.map_ext. intros [k v]. cbn [fst snd].
    destruct (String.eqb k f); cbn [fst orb].
    + now destruct (existsb (String.eqb k) fields).
    + reflexivity.
Qed.

Lemma sanitizeBody_object ms :
  sanitizeBody (Some (Json.Obj ms)) = Some (Json.Obj (List.map redact_member ms)).
Proof.
  unfold sanitizeBody. cbn [is_object negb spread].
  fold redacted. now rewrite redact_loop.
Qed.

Lemma redact_member_idem kv : redact_member (redact_member kv) = redact_member kv.
Proof.
  unfold redact_member. destruct (sensitive kv.1) eqn:E; cbn [fst]; now rewrite E.
Qed.

(** X23: what [sanitizeBody] does to an object.  The members keep their
    names and their order; every member named password, token, secret,
    apiKey or api_key has the value "[REDACTED]"; every other member is
    kept as it is, whatever it contains; sanitizing again changes
    nothing.  A body that is not an object or an array is returned as it
    is. *)
Theorem X23_sanitizeBody_redacts_top_level_secrets
    (ms : list (string * Json.value)) :
  exists ms',
    sanitizeBody (Some (Json.Obj ms)) = Some (Json.Obj ms')
    /\ List.map fst ms' = List.map fst ms
    /\ (forall k v, In (k, v) ms' -> In k sensitiveFields -> v = redacted)
    /\ (forall k v, ~ In k sensitiveFields -> (In (k, v) ms' <-> In (k, v) ms))
    /\ sanitizeBody (Some (Json.Obj ms')) = Some (Json.Obj ms')
    /\ (forall b, is_object b = false -> sanitizeBody (Some b) = Some b)
    /\ sanitizeBody None = None.
Proof.
  assert (Hs : forall k, sensitive k = true <-> In k sensitiveFields).
  { intros k. unfold sensitive. rewrite existsb_exists. split.
    - intros (x & Hx & E). apply String.eqb_eq in E. now subst.
    - intros H. exists k. split; [exact H|apply String.eqb_refl]. }
  exists (List.map redact_member ms).
  split; [apply sanitizeBody_object|].
  split.
  { rewrite List.map_map. apply List.map_ext. intros [k v].
    unfold redact_member. cbn [fst]. now destruct (sensitive k). }
  split.
  { intros k v Hin Hk. apply in_map_iff in Hin as ([k' v'] & E & _).
    unfold redact_member in E. cbn [fst] in E.
    destruct (sensitive k') eqn:Ek; inversion E; subst; [reflexivity|].
    apply Hs in Hk. congruence. }
  split.
  { intros k v Hk.
    assert (Hf : sensitive k = false).
    { destruct (sensitive k) eqn:E; [|reflexivity]. apply Hs in E. contradiction. }
    split.
    - intros Hin. apply in_map_iff in Hin as ([k' v'] & E & Hin).
      unfold redact_member in E. cbn [fst] in E.
      destruct (sensitive k') eqn:Ek; inversion E; subst; [congruence|exact Hin].
    - intros Hin. apply in_map_iff. exists (k, v). split; [|exact Hin].
      unfold redact_member. cbn [fst]. now rewrite Hf. }
  split.
  { rewrite sanitizeBody_object, List.map_map. do 2 f_equal.
    apply List.map_ext, redact_member_idem. }
  split; [|reflexivity].
  intros b Hb. unfold sanitizeBody. now rewrite Hb.
Qed.

Lemma X23_sanitizeBody_redacts_top_level_secrets_witness :
  sanitizeBody (Some (Json.Obj [("user", Json.Obj [("password", Json.Str "p")]);
                                ("password", Json.Str "hunter2");
                                ("amount", Json.Num 100)]))
  = Some (Json.Obj [("user", Json.Obj [("password", Json.Str "p")]);
                    ("password", redacted);
                    ("amount", Json.Num 100)])
  /\ sanitizeBody (Some (Json.Str "password")) = Some (Json.Str "password").
Proof.
  destruct (X23_sanitizeBody_redacts_top_level_secrets
              [("user", Json.Obj [("password", Json.Str "p")]);
               ("password", Json.Str "hunter2");
               ("amount", Json.Num 100)])
    as (ms' & Hs & _ & _ & _ & _ & Hother & _).
  split; [|apply Hother; reflexivity].
  rewrite Hs. vm_compute in Hs. inversion Hs. reflexivity.
Defined.

(** X24: the values of sensitive members never reach the request log.
    Two requests that differ only in the values of top-level members
    named password, token, secret, apiKey or api_key of their bodies
    produce the same log line. *)
Theorem X24_log_line_independent_of_secrets
    (request : Request) (m1 m2 : list (string * Json.value)) (now : string) :
  same_but_secrets m1 m2 ->
  request_line (with_body request (Some (Json.Obj m1))) now
  = request_line (with_body request (Some (Json.Obj m2))) now.
Proof.
  intros Hsame. unfold request_line.
  cbn [with_body body method url requestId user_agent].
  rewrite !sanitizeBody_object.
  assert (Heq : List.map redact_member m1 = List.map redact_member m2).
  { induction Hsame as [|[k1 v1] [k2 v2] m1 m2 [Hk Hv] _ IH]; [reflexivity|].
    cbn [List.map]. rewrite IH. f_equal.
    cbn [fst snd] in Hk, Hv. subst k2. unfold redact_member. cbn [fst].
    destruct (sensitive k1) eqn:E; [reflexivity|]. now rewrite Hv. }
  now rewrite Heq.
Qed.

Lemma X24_log_line_independent_of_secrets_witness :
  let r := {| method := "POST"; url := "/api/v1/webhooks"; body := None;
              requestId := Some "req-1"; user_agent := None |} in
  request_line (with_body r (Some (Json.Obj [("source", Json.Str "stripe");
                                             ("token", Json.Str "s3cr3t")]))) "t0"
  = request_line (with_body r (Some (Json.Obj [("source", Json.Str "stripe");
                                               ("token", Json.Num 42)]))) "t0".
Proof.
  intros r.
  apply (X24_log_line_independent_of_secrets r).
  repeat constructor; cbn; intros; congruence.
Defined.

End LoggingExtras.
